(** * Sounding diagram engine: Skew-T projection, background grid, wind barbs

    A shallow embedding of the aero-diagram script (the [DOMContentLoaded]
    handler that defines [createTemperatureChart], [createWindChart] and
    [createDataTable]) together with the properties stated for it.

    Numbers.  A JavaScript number is modelled as a real number or [NaN]:
    arithmetic is exact (rounding to binary64 and overflow to an infinity are
    not represented), and [NaN] also stands for the [undefined] that reading
    past the end of an array yields, since every such read is immediately
    used in arithmetic.  Loop counters and array indices, which only ever
    hold small integers, are [Z] and [nat].

    Rounding.  Module [Binary64] repeats the closed-form arithmetic of the
    script on IEEE doubles, so that the concrete cases can also be evaluated
    as JavaScript evaluates them.  Where a property is about the rounding
    itself, the skew formula is also given with a rounding function applied
    after every operation ([skew_fl], [tempX_fl]).

    Presentation.  Colours, widths, legends, layout and config objects carry
    no computation; a trace keeps its coordinate lists, a tag that says which
    literal style object it was built with, and the values interpolated into
    its hover text. *)

From Stdlib Require Import Floats.
From Stdlib Require Import Reals Lra Lia ZArith Zfloor Ascii.
From stdpp Require Import base list strings gmap pretty.

Open Scope R_scope.

(** ** JavaScript numbers and the built-ins the script calls *)

Module JS.

Inductive number : Type :=
  | Num (r : R)
  | NaN.

Definition lift1 (f : R -> R) (a : number) : number :=
  match a with
  | Num r => Num (f r)
  | NaN => NaN
  end.

Definition lift2 (f : R -> R -> R) (a b : number) : number :=
  match a, b with
  | Num r, Num s => Num (f r s)
  | _, _ => NaN
  end.

Definition add : number -> number -> number := lift2 Rplus.
Definition sub : number -> number -> number := lift2 Rminus.
Definition mul : number -> number -> number := lift2 Rmult.
Definition neg : number -> number := lift1 Ropp.

(** [a / b].  A zero divisor gives an infinity or NaN in JavaScript; the
    model has no infinities and answers [NaN].  The script only divides by
    the non-zero constants 1000, 50, 20, 10, 5 and [Math.PI]. *)
Definition div (a b : number) : number :=
  match a, b with
  | Num r, Num s => if Req_dec_T s 0 then NaN else Num (r / s)
  | _, _ => NaN
  end.

(** Truncation toward zero, as used by the remainder operator. *)
Definition Ztrunc (r : R) : Z :=
  if Rle_dec 0 r then Zfloor r else Zceil r.

(** [a % b]: the remainder takes the sign of the dividend. *)
Definition Rrem (r s : R) : R := r - s * IZR (Ztrunc (r / s)).

Definition rem (a b : number) : number :=
  match a, b with
  | Num r, Num s => if Req_dec_T s 0 then NaN else Num (Rrem r s)
  | _, _ => NaN
  end.

(** [Math.floor], [Math.max], [Math.min], [Math.sqrt]. *)
Definition Math_floor : number -> number :=
  lift1 (fun r => IZR (Zfloor r)).

Definition Math_max : number -> number -> number := lift2 Rmax.
Definition Math_min : number -> number -> number := lift2 Rmin.

Definition Math_sqrt (a : number) : number :=
  match a with
  | Num r => if Rle_dec 0 r then Num (sqrt r) else NaN
  | NaN => NaN
  end.

(** [Math.PI], [Math.sin], [Math.cos]. *)
Definition Math_PI : number := Num PI.
Definition Math_sin : number -> number := lift1 sin.
Definition Math_cos : number -> number := lift1 cos.

(** [Math.atan2(y, x)] on reals: the angle of the point [(x, y)], in
    [(-PI, PI]].  (With a single real zero, [atan2(0, x)] for negative [x]
    is [PI], the value JavaScript gives for [+0].) *)
Definition atan2 (y x : R) : R :=
  if Rlt_dec 0 x then atan (y / x)
  else if Rlt_dec x 0 then
    if Rle_dec 0 y then atan (y / x) + PI else atan (y / x) - PI
  else
    if Rlt_dec 0 y then PI / 2
    else if Rlt_dec y 0 then - (PI / 2)
    else 0.

Definition Math_atan2 : number -> number -> number := lift2 atan2.

(** [Math.pow(b, e)].  For a positive base it is [exp (e * ln b)]; a zero
    base with a positive exponent gives 0.  Other bases (negative, or zero
    with a non-positive exponent) are answered [NaN] here: the script only
    raises [p / 1000] with [100 <= p <= 1050]. *)
Definition Math_pow (b e : number) : number :=
  match b, e with
  | Num r, Num s =>
      if Rlt_dec 0 r then Num (Rpower r s)
      else if Req_dec_T r 0 then (if Rlt_dec 0 s then Num 0 else NaN)
      else NaN
  | _, _ => NaN
  end.

(** [arr[i]] used as a number: [undefined] past the end. *)
Definition get (arr : list R) (i : nat) : number :=
  match arr !! i with
  | Some r => Num r
  | None => NaN
  end.

(** The number of iterations of [for (let f = 0; f < n; f++)]. *)
Definition iterations (n : number) : nat :=
  match n with
  | Num r => Z.to_nat (Zceil r)
  | NaN => O
  end.

End JS.

Import JS.
Coercion Num : R >-> number.

Declare Scope js_scope.
Delimit Scope js_scope with js.
Bind Scope js_scope with number.
Infix "+" := add : js_scope.
Infix "-" := sub : js_scope.
Infix "*" := mul : js_scope.
Infix "/" := div : js_scope.
Infix "mod" := rem : js_scope.
Notation "- a" := (neg a) : js_scope.

(** ** Counting loops

    [for (let c = start; c <= hi; c += step)], its downward twin
    [for (let c = start; c >= lo; c -= step)] and the index loop
    [for (let i = start; i < n; i += step)] return the successive values of
    the counter.  Each runs on fuel that the wrapper sets from the distance
    to the bound; the fuel lemmas below show the guard, not the fuel, ends
    the loop whenever the step is positive. *)

Fixpoint for_le_fuel (fuel : nat) (c hi step : Z) : list Z :=
  match fuel with
  | O => []
  | S n => if (c <=? hi)%Z then c :: for_le_fuel n (c + step) hi step else []
  end.

Definition for_le (start hi step : Z) : list Z :=
  for_le_fuel (Z.to_nat (hi - start + 1)) start hi step.

Fixpoint for_ge_fuel (fuel : nat) (c lo step : Z) : list Z :=
  match fuel with
  | O => []
  | S n => if (lo <=? c)%Z then c :: for_ge_fuel n (c - step) lo step else []
  end.

Definition for_ge (start lo step : Z) : list Z :=
  for_ge_fuel (Z.to_nat (start - lo + 1)) start lo step.

Fixpoint for_lt_fuel (fuel : nat) (i n step : nat) : list nat :=
  match fuel with
  | O => []
  | S k => if (i <? n)%nat then i :: for_lt_fuel k (i + step) n step else []
  end.

Definition for_lt (start n step : nat) : list nat :=
  for_lt_fuel (n - start) start n step.

(** Quotient rounded up: the number of turns of the index loop. *)
Definition ceil_div (a b : nat) : nat := ((a + b - 1) / b)%nat.

(** ** Data model *)

(** The sounding payload: five parallel arrays. *)
Record Sounding : Type := mkSounding {
  pressure : list R;
  temperature : list R;
  dewpoint : list R;
  u_wind : list R;
  v_wind : list R
}.

(** The invariant of a sounding of [N] levels. *)
Definition levels (data : Sounding) (N : nat) : Prop :=
  length (pressure data) = N /\
  length (temperature data) = N /\
  length (dewpoint data) = N /\
  length (u_wind data) = N /\
  length (v_wind data) = N.

(** [value.toFixed(digits)] inside a template: the rendered text is a
    function of the value and the digit count, kept unevaluated. *)
Inductive Formatted : Type :=
  | toFixed (value : number) (digits : nat).

Module Trace.

Inductive Style : Type :=
  | Temperature
  | Dewpoint
  | Isotherm
  | DryAdiabat
  | Isobar
  | WindSpeed
  | Shaft (hover : list Formatted)
  | Flag
  | Barb.

Record t : Type := mk {
  x : list number;
  y : list number;
  style : Style;
  text : list Formatted
}.

End Trace.

(** ** Render density *)

(** [isLowPerformance]: [hardwareConcurrency] may be missing from the
    navigator, in which case [undefined <= 2] is false. *)
Definition isLowPerformance
    (innerWidth : Z) (hardwareConcurrency : option Z) (mobileUserAgent : bool)
    : bool :=
  (innerWidth <=? 768)%Z
  || match hardwareConcurrency with
     | Some n => (n <=? 2)%Z
     | None => false
     end
  || mobileUserAgent.

(** ** [createTemperatureChart] *)

(** Slope of the isotherms, in degrees per hPa. *)
Definition skewFactor : number := 0.04.

Definition tempX (data : Sounding) : list number :=
  imap (fun i (t : R) =>
          (t + (1000 - get (pressure data) i) * skewFactor)%js)
       (temperature data).

Definition dewpointX (data : Sounding) : list number :=
  imap (fun i (t : R) =>
          (t + (1000 - get (pressure data) i) * skewFactor)%js)
       (dewpoint data).

Definition tempTrace (data : Sounding) : Trace.t :=
  Trace.mk (tempX data) (map Num (pressure data)) Trace.Temperature
           (map (fun t : R => toFixed t 1) (temperature data)).

Definition dewpointTrace (data : Sounding) : Trace.t :=
  Trace.mk (dewpointX data) (map Num (pressure data)) Trace.Dewpoint
           (map (fun t : R => toFixed t 1) (dewpoint data)).

Definition isothermStep (lowPerf : bool) : Z := if lowPerf then 20 else 10.
Definition pressureStep (lowPerf : bool) : Z := if lowPerf then 100 else 50.

(** One isotherm: the inner loop over [p] at a fixed [temp]. *)
Definition isotherm (lowPerf : bool) (temp : Z) : Trace.t :=
  let ps := for_ge 1050 100 (pressureStep lowPerf) in
  Trace.mk
    (map (fun p : Z => (IZR temp + (1000 - IZR p) * skewFactor)%js) ps)
    (map (fun p : Z => Num (IZR p)) ps)
    Trace.Isotherm [].

Definition isotherms (lowPerf : bool) : list Trace.t :=
  map (isotherm lowPerf) (for_le (-80) 40 (isothermStep lowPerf)).

Definition theta0Values (lowPerf : bool) : list Z :=
  if lowPerf then [-40; 0; 40; 80]%Z
  else [-40; -20; 0; 20; 40; 60; 80; 100]%Z.

Definition adiabatStep (lowPerf : bool) : Z := if lowPerf then 20 else 10.

(** The temperature on the adiabat of [theta0] at pressure [p], before
    skewing: the [const t] of the inner loop. *)
Definition adiabat_t (theta0 p : Z) : number :=
  (IZR theta0 * Math_pow (IZR p / 1000) 0.286 - 273.15)%js.

Definition dryAdiabat (lowPerf : bool) (theta0 : Z) : Trace.t :=
  let ps := for_ge 1050 100 (adiabatStep lowPerf) in
  Trace.mk
    (map (fun p : Z =>
            (adiabat_t theta0 p + (1000 - IZR p) * skewFactor)%js) ps)
    (map (fun p : Z => Num (IZR p)) ps)
    Trace.DryAdiabat [].

Definition dryAdiabats (lowPerf : bool) : list Trace.t :=
  map (dryAdiabat lowPerf) (theta0Values lowPerf).

Definition pressureLevels : list Z := [1000; 850; 700; 500; 300; 200; 100]%Z.

Definition isobar (p : Z) : Trace.t :=
  Trace.mk
    [(-100 + (1000 - IZR p) * skewFactor)%js;
     (60 + (1000 - IZR p) * skewFactor)%js]
    [Num (IZR p); Num (IZR p)]
    Trace.Isobar [].

Definition isobars : list Trace.t := map isobar pressureLevels.

(** The traces handed to [Plotly.newPlot('temp-chart', ...)]. *)
Definition createTemperatureChart (lowPerf : bool) (data : Sounding)
    : list Trace.t :=
  isobars ++ isotherms lowPerf ++ dryAdiabats lowPerf
    ++ [tempTrace data; dewpointTrace data].

(** The background grid of a trace list: the traces styled as isobars,
    isotherms or dry adiabats. *)
Definition is_grid (tr : Trace.t) : bool :=
  match Trace.style tr with
  | Trace.Isobar | Trace.Isotherm | Trace.DryAdiabat => true
  | _ => false
  end.

Definition background (traces : list Trace.t) : list Trace.t :=
  List.filter is_grid traces.

(** The inverse of the skew formula at pressure [p].  It is not part of
    the script: it is the inversion that the round-trip property names. *)
Definition unskew (x p : number) : number :=
  (x - (1000 - p) * skewFactor)%js.

(** ** [createWindChart] *)

Definition windSpeed (data : Sounding) : list number :=
  imap (fun i (u : R) =>
          let v := get (v_wind data) i in
          Math_sqrt (u * u + v * v)%js)
       (u_wind data).

Definition windDirection (data : Sounding) : list number :=
  imap (fun i (u : R) =>
          let v := get (v_wind data) i in
          ((Math_atan2 u v * 180 / Math_PI + 180) mod 360)%js)
       (u_wind data).

Definition windSpeedTrace (data : Sounding) : Trace.t :=
  Trace.mk (windSpeed data) (map Num (pressure data)) Trace.WindSpeed [].

Definition barbInterval (data : Sounding) : nat :=
  Nat.max 1 (length (pressure data) / 20).

(** [arr[i]] for an array of computed numbers.  Past the end the source
    reads [undefined]; in arithmetic that is [NaN], and the [toFixed] call
    on it in the shaft's hover text would throw, which the model does not
    represent.  It cannot happen when the five arrays have equal length. *)
Definition at_index (arr : list number) (i : nat) : number :=
  default NaN (arr !! i).

(** The flag loop: [n] pennants starting at [currentPos]; returns the traces
    pushed and the position left for the short barbs. *)
Fixpoint flag_loop (n : nat) (x1 dirRad p currentPos : number)
    : list Trace.t * number :=
  match n with
  | O => ([], currentPos)
  | S k =>
      let barbX := (x1 * currentPos)%js in
      let flagX := (barbX - 3 * Math_cos dirRad)%js in
      let flagY := p in
      let tr :=
        Trace.mk [barbX; flagX; (barbX - 1.5 * Math_sin dirRad)%js]
                 [flagY; flagY; flagY] Trace.Flag [] in
      let '(rest, pos) := flag_loop k x1 dirRad p (currentPos - 0.15)%js in
      (tr :: rest, pos)
  end.

(** The short-barb loop. *)
Fixpoint barb_loop (n : nat) (x1 dirRad p currentPos : number)
    : list Trace.t * number :=
  match n with
  | O => ([], currentPos)
  | S k =>
      let barbX := (x1 * currentPos)%js in
      let pX := (barbX - 2 * Math_cos dirRad)%js in
      let tr := Trace.mk [barbX; pX] [p; p] Trace.Barb [] in
      let '(rest, pos) := barb_loop k x1 dirRad p (currentPos - 0.1)%js in
      (tr :: rest, pos)
  end.

Definition numFlags (speed : number) : number :=
  Math_floor (speed / 50)%js.

Definition numBarbs (speed : number) : number :=
  Math_floor ((speed - numFlags speed * 50) / 10)%js.

(** The body of the barb loop at level [i]: the shaft, then the flags, then
    the short barbs. *)
Definition barb_glyph (speed dir p : number) : list Trace.t :=
  let barbLength := Math_min (speed / 5)%js 15 in
  let dirRad := (dir * Math_PI / 180)%js in
  let x0 : number := 0 in
  let x1 := (- barbLength * Math_sin dirRad)%js in
  let shaft :=
    Trace.mk [x0; x1] [p; p]
             (Trace.Shaft [toFixed speed 1; toFixed dir 0]) [] in
  let currentPos : number := 0.7 in
  let '(flags, currentPos) :=
    flag_loop (iterations (numFlags speed)) x1 dirRad p currentPos in
  let '(barbs, _) :=
    barb_loop (iterations (numBarbs speed)) x1 dirRad p currentPos in
  shaft :: flags ++ barbs.

(** The levels that get a barb. *)
Definition barb_indices (data : Sounding) : list nat :=
  for_lt 0 (length (pressure data)) (barbInterval data).

Definition windBarbs (data : Sounding) : list Trace.t :=
  flat_map
    (fun i =>
       barb_glyph (at_index (windSpeed data) i)
                  (at_index (windDirection data) i)
                  (get (pressure data) i))
    (barb_indices data).

(** The traces handed to [Plotly.newPlot('wind-chart', ...)]. *)
Definition createWindChart (data : Sounding) : list Trace.t :=
  windSpeedTrace data :: windBarbs data.

(** ** [createDataTable] *)

(** One table row: the five interpolated cells.  (A cell read past the end
    of its array would make [toFixed] throw; the model shows it as the
    formatting of [NaN].) *)
Definition table_row (data : Sounding) (i : nat) : list Formatted :=
  let u := get (u_wind data) i in
  let v := get (v_wind data) i in
  let speed := Math_sqrt (u * u + v * v)%js in
  let direction := ((Math_atan2 u v * 180 / Math_PI + 180) mod 360)%js in
  [toFixed (get (pressure data) i) 1;
   toFixed (get (temperature data) i) 1;
   toFixed (get (dewpoint data) i) 1;
   toFixed speed 1;
   toFixed direction 0].

Definition createDataTable (data : Sounding) : list (list Formatted) :=
  map (table_row data) (for_lt 0 (length (pressure data)) 1).

(** ** The same arithmetic on IEEE doubles

    The expressions of the script that use only [+], [-], [*], [/] and
    [Math.sqrt], on binary64 numbers with round-to-nearest; [0.04] is the
    nearest double, as for the JavaScript literal. *)

#[local] Set Warnings "-inexact-float".

Module Binary64.

(** [Math.PI]. *)
Definition PI : float := 0x1.921fb54442d18p+1%float.

Definition skew (v p : float) : float := (v + (1000 - p) * 0.04)%float.

Definition unskew (x p : float) : float := (x - (1000 - p) * 0.04)%float.

Definition speed (u v : float) : float :=
  PrimFloat.sqrt (u * u + v * v)%float.

(** The argument of [% 360] for an angle [a] returned by [Math.atan2]. *)
Definition shifted_degrees (a : float) : float :=
  (a * 180 / PI + 180)%float.

(** The arguments of the two [Math.floor] calls of the barb loop, with
    [numFlags] given. *)
Definition flags_quotient (speed : float) : float := (speed / 50)%float.

Definition barbs_quotient (speed numFlags : float) : float :=
  ((speed - numFlags * 50) / 10)%float.

End Binary64.

(** ** The skew formula with every operation rounded

    JavaScript rounds the exact result of each [+], [-] and [*], and the
    value of the literal [0.04], to the nearest double.  Here the rounding
    is a function [rnd] on the reals that the expressions of
    [createTemperatureChart] apply after each operation; what a property
    needs of [rnd] it states.  For a result [x] that does not overflow,
    round-to-nearest on binary64 is off by at most
    [eps64 * |x| + eta64]: half a unit in the last place of a normal
    number, [eps64 = 2^-53] relative, or half the spacing of the subnormal
    numbers, [eta64 = 2^-1075]. *)

Definition eps64 : R := / 9007199254740992.

Definition eta64 : R := powerRZ 2 (- 1075).

Section Rounded.

Variable rnd : R -> R.

Definition fl (a : number) : number := lift1 rnd a.

(** [(1000 - p) * skewFactor]. *)
Definition shift_fl (p : number) : number :=
  fl (fl (1000 - p) * fl skewFactor)%js.

(** [t + (1000 - p) * skewFactor], the body of both [map] callbacks. *)
Definition skew_fl (t p : number) : number :=
  fl (t + shift_fl p)%js.

Definition tempX_fl (data : Sounding) : list number :=
  imap (fun i (t : R) => skew_fl t (get (pressure data) i))
       (temperature data).

Definition dewpointX_fl (data : Sounding) : list number :=
  imap (fun i (t : R) => skew_fl t (get (pressure data) i))
       (dewpoint data).

(** The inverse formula [x - (1000 - p) * skewFactor], computed the same
    way. *)
Definition unskew_fl (x p : number) : number :=
  fl (x - shift_fl p)%js.

End Rounded.

(** Round-to-nearest, ties to even, on the binary64 grid: significands of
    53 bits and no exponent below that of the subnormal numbers.  (The
    largest finite double is not modelled: a result beyond it stays
    finite here.) *)
Definition nearest_even (y : R) : Z :=
  let f := Zfloor y in
  if Rlt_dec (y - IZR f) (1 / 2) then f
  else if Rlt_dec (1 / 2) (y - IZR f) then (f + 1)%Z
  else if Z.even f then f else (f + 1)%Z.

(** The exponent [e] with [2^e <= |x| < 2^(e+1)]. *)
Definition exponent (x : R) : Z := Zfloor (ln (Rabs x) / ln 2).

Definition round64 (x : R) : R :=
  if Req_dec_T x 0 then 0
  else
    let e := Z.max (exponent x - 52) (- 1074) in
    IZR (nearest_even (x * powerRZ 2 (- e))) * powerRZ 2 e.

(** Doubles to try the round trip on: the temperatures from -100 to 100
    degrees in tenths and the pressures from 25 to 1100 hPa in steps
    of 25. *)
Definition sweep_temperature (k : Z) : float :=
  (PrimFloat.of_uint63 (Uint63.of_Z k) / 10 - 100)%float.

Definition sweep_pressure (q : Z) : float :=
  (PrimFloat.of_uint63 (Uint63.of_Z q) * 25)%float.

Definition sweep_within (tolerance : float) : bool :=
  forallb
    (fun k =>
       forallb
         (fun q =>
            let t := sweep_temperature k in
            let p := sweep_pressure q in
            (PrimFloat.abs (Binary64.unskew (Binary64.skew t p) p - t)
             <? tolerance)%float)
         (seqZ 1 44))
    (seqZ 0 2001).

(** A five-level sounding used to exercise the statements. *)
Definition sample_sounding : Sounding :=
  mkSounding [1000; 850; 700; 500; 300]
             [15; 5; -5; -20; -45]
             [10; 0; -12; -30; -55]
             [0; 25; 30; 0; -40]
             [-10; 60; 40; 50; 0].

(** A sounding of 39 levels, 20 hPa apart from 1000 hPa up. *)
Definition sounding39 : Sounding :=
  let ks := seq 0 39 in
  mkSounding (map (fun k => 1000 - 20 * INR k) ks)
             (map (fun k => 15 - 2 * INR k) ks)
             (map (fun k => 10 - 2 * INR k) ks)
             (map (fun k => INR k) ks)
             (map (fun k => 10 + INR k) ks).

(** The nominal temperatures and the sampled pressures of the isotherm
    family, listed per density setting. *)
Definition isotherm_temps (lowPerf : bool) : list Z :=
  if lowPerf then [-80; -60; -40; -20; 0; 20; 40]%Z
  else [-80; -70; -60; -50; -40; -30; -20; -10; 0; 10; 20; 30; 40]%Z.

Definition isotherm_pressures (lowPerf : bool) : list Z :=
  if lowPerf
  then [1050; 950; 850; 750; 650; 550; 450; 350; 250; 150]%Z
  else [1050; 1000; 950; 900; 850; 800; 750; 700; 650; 600;
        550; 500; 450; 400; 350; 300; 250; 200; 150; 100]%Z.

Definition is_shaft (tr : Trace.t) : bool :=
  match Trace.style tr with
  | Trace.Shaft _ => true
  | _ => false
  end.

(** The places along the shaft, as fractions of its length from the
    origin, where the flag loop and then the short-barb loop anchor their
    decorations: 0.7 stepping down by 0.15 per flag, then by 0.1 per short
    barb. *)
Definition decoration_anchors (nf nb : nat) : list R :=
  map (fun k => 0.7 - 0.15 * INR k) (seq 0 nf)
  ++ map (fun j => 0.7 - 0.15 * INR nf - 0.1 * INR j) (seq 0 nb).

(** The first abscissa of a trace: [barbX] for a flag or a short barb. *)
Definition anchor_x (tr : Trace.t) : number :=
  at_index (Trace.x tr) 0.

(** A sounding whose wind and pressure arrays are shorter than the
    temperature array. *)
Definition ragged_sounding : Sounding :=
  mkSounding [1000; 850] [15; 5; -5] [10; 0; -12] [0; 25; 30] [-10; 60].

(** The fixed range of the temperature chart's x axis
    ([layout.xaxis.range]). *)
Definition temp_xaxis_range : R * R := (-60, 60).

(** ** [buildDiagram], its response handler and [displayResults]

    The page of the diagram script, as far as these functions write it:
    which sections are displayed, the error banner, the two plots and the
    table body.  The three text fields that copy the station name, date and
    hour are left out.  An uncaught [TypeError] (a method call on
    [undefined]) is modelled by returning the page as it stands at the throw
    together with a flag. *)

Module Aero.

(** What [showError] is called with. *)
Inductive Banner : Type :=
  | SelectStation          (* 'Пожалуйста, выберите станцию' *)
  | SelectDate             (* 'Пожалуйста, выберите дату' *)
  | ServerSaid (message : string)   (* data.error *)
  | FetchFailed            (* 'Ошибка при получении данных' *)
  | ConnectionError        (* 'Ошибка соединения с сервером: ' + error.message *).

Record Page : Type := mkPage {
  loadingAero : bool;
  errorAero : bool;
  errorAero_text : option Banner;
  stationInfo : bool;
  indicesSection : bool;
  chartsSection : bool;
  dataTableSection : bool;
  info_levels : option nat;
  info_temp : option Formatted;
  temp_chart : option (list Trace.t);
  wind_chart : option (list Trace.t);
  sounding_tbody : list (list Formatted)
}.

Definition showLoading (pg : Page) : Page :=
  mkPage true (errorAero pg) (errorAero_text pg) (stationInfo pg)
         (indicesSection pg) (chartsSection pg) (dataTableSection pg)
         (info_levels pg) (info_temp pg) (temp_chart pg) (wind_chart pg)
         (sounding_tbody pg).

Definition hideLoading (pg : Page) : Page :=
  mkPage false (errorAero pg) (errorAero_text pg) (stationInfo pg)
         (indicesSection pg) (chartsSection pg) (dataTableSection pg)
         (info_levels pg) (info_temp pg) (temp_chart pg) (wind_chart pg)
         (sounding_tbody pg).

Definition showError (message : Banner) (pg : Page) : Page :=
  mkPage (loadingAero pg) true (Some message) (stationInfo pg)
         (indicesSection pg) (chartsSection pg) (dataTableSection pg)
         (info_levels pg) (info_temp pg) (temp_chart pg) (wind_chart pg)
         (sounding_tbody pg).

Definition hideError (pg : Page) : Page :=
  mkPage (loadingAero pg) false (errorAero_text pg) (stationInfo pg)
         (indicesSection pg) (chartsSection pg) (dataTableSection pg)
         (info_levels pg) (info_temp pg) (temp_chart pg) (wind_chart pg)
         (sounding_tbody pg).

Definition hideResults (pg : Page) : Page :=
  mkPage (loadingAero pg) (errorAero pg) (errorAero_text pg) false
         false false false
         (info_levels pg) (info_temp pg) (temp_chart pg) (wind_chart pg)
         (sounding_tbody pg).

(** The body of a successful response: the sounding and whether it carries
    stability indices. *)
Record Payload : Type := mkPayload {
  sounding : Sounding;
  indices : bool
}.

(** [createWindChart] throws when a level that gets a barb has no entry in
    [windSpeed], that is none in [u_wind]: [speed.toFixed(1)] is called on
    [undefined]. *)
Definition createWindChart_throws (data : Sounding) : bool :=
  existsb (fun i => (length (u_wind data) <=? i)%nat) (barb_indices data).

(** [createDataTable] throws when some row has no temperature or no
    dewpoint: [data.temperature[i].toFixed(1)] on [undefined]. *)
Definition createDataTable_throws (data : Sounding) : bool :=
  (length (temperature data) <? length (pressure data))%nat
  || (length (dewpoint data) <? length (pressure data))%nat.

(** [displayResults]: the page it leaves and whether it threw. *)
Definition displayResults (lowPerf : bool) (data : Payload) (pg : Page)
    : Page * bool :=
  let d := sounding data in
  let levels_set :=
    mkPage (loadingAero pg) (errorAero pg) (errorAero_text pg)
           (stationInfo pg) (indicesSection pg) (chartsSection pg)
           (dataTableSection pg)
           (Some (length (pressure d))) (info_temp pg)
           (temp_chart pg) (wind_chart pg) (sounding_tbody pg) in
  match temperature d !! 0%nat with
  | None => (levels_set, true)
  | Some t0 =>
      let shown :=
        mkPage (loadingAero pg) (errorAero pg) (errorAero_text pg)
               true (indicesSection pg || indices data) (chartsSection pg)
               (dataTableSection pg)
               (Some (length (pressure d))) (Some (toFixed (Num t0) 1))
               (Some (createTemperatureChart lowPerf d))
               (wind_chart pg) (sounding_tbody pg) in
      if createWindChart_throws d then (shown, true)
      else
        let plotted :=
          mkPage (loadingAero shown) (errorAero shown) (errorAero_text shown)
                 (stationInfo shown) (indicesSection shown)
                 (chartsSection shown) (dataTableSection shown)
                 (info_levels shown) (info_temp shown) (temp_chart shown)
                 (Some (createWindChart d)) (sounding_tbody shown) in
        if createDataTable_throws d then (plotted, true)
        else
          (mkPage (loadingAero plotted) (errorAero plotted)
                  (errorAero_text plotted) (stationInfo plotted)
                  (indicesSection plotted) true true
                  (info_levels plotted) (info_temp plotted)
                  (temp_chart plotted) (wind_chart plotted)
                  (createDataTable d),
           false)
  end.

(** What the server answered, or that the request itself failed. *)
Inductive Response : Type :=
  | Success (data : Payload)
  | Failure (error : option string)
  | Rejected.

(** The [then]/[catch] chain of [buildDiagram].  A throw inside
    [displayResults] lands in the same [catch] as a failed request. *)
Definition on_response (lowPerf : bool) (r : Response) (pg : Page) : Page :=
  match r with
  | Success data =>
      let '(pg', threw) := displayResults lowPerf data (hideLoading pg) in
      if threw then showError ConnectionError (hideLoading pg') else pg'
  | Failure (Some message) =>
      match message with
      | EmptyString => showError FetchFailed (hideLoading pg)
      | _ => showError (ServerSaid message) (hideLoading pg)
      end
  | Failure None => showError FetchFailed (hideLoading pg)
  | Rejected => showError ConnectionError (hideLoading pg)
  end.

(** The request [buildDiagram] posts. *)
Record Request : Type := mkRequest {
  station_id : string;
  date : string;
  hour : string
}.

(** [date.replace(/-/g, '')]. *)
Fixpoint strip_dashes (date : string) : string :=
  match date with
  | EmptyString => EmptyString
  | String c rest =>
      if Ascii.eqb c "-"%char then strip_dashes rest
      else String c (strip_dashes rest)
  end.

(** The synchronous part of [buildDiagram]: validation, then the page is
    reset and the request goes out. *)
Definition buildDiagram (stationId dateValue hourValue : string)
    (pg : Page) : Page * option Request :=
  match stationId with
  | EmptyString => (showError SelectStation pg, None)
  | _ =>
      match dateValue with
      | EmptyString => (showError SelectDate pg, None)
      | _ =>
          (showLoading (hideResults (hideError pg)),
           Some (mkRequest stationId (strip_dashes dateValue) hourValue))
      end
  end.

End Aero.

(** The page before anything is built, and two payloads. *)
Definition blank_page : Aero.Page :=
  Aero.mkPage false false None false false false false
              None None None None [].


Definition empty_payload : Aero.Payload :=
  Aero.mkPayload (mkSounding [] [] [] [] []) false.


(** ** The METAR page script: airports, results, auto-refresh

    The state the first script keeps: its [let] variables and, of the page,
    what its functions write.  The legacy sections that are only ever hidden
    and the network calls themselves are left out; a finished request enters
    as an event that carries its results.  A [setInterval] timer is counted
    when created and when cleared, beside the variable that holds its id. *)

Module Metar.

(** What [showError] is called with. *)
Inductive Message : Type :=
  | AlreadyAdded (icao : string)
      (* `Аэропорт ${airport.icao} уже добавлен` *)
  | ChooseAirport
      (* 'Пожалуйста, выберите хотя бы один аэропорт из списка' *)
  | ChooseAirportFirst
      (* 'Сначала выберите хотя бы один аэропорт' *)
  | NoData
      (* 'Нет данных для отображения' *)
  | ConnectionFailed
      (* 'Ошибка соединения с сервером: ' + error.message *).

(** An entry of [selectedAirports]. *)
Record Airport : Type := mkAirport {
  icao : string;
  name : string;
  runway_headings : string
}.

(** The object [selectAirport] receives; its [runway_headings] may be
    missing. *)
Record Candidate : Type := mkCandidate {
  c_icao : string;
  c_name : string;
  c_runway_headings : option string
}.

(** The answer of [/fetch] for one airport. *)
Record FetchData : Type := mkFetchData {
  success : bool;
  metar : option string;
  taf : option string
}.

(** [refreshTimer.innerHTML]. *)
Inductive Timer : Type :=
  | Stopped                      (* '⏸ Остановлено' *)
  | Countdown (timeString : string).

Inductive Notice : Type :=
  | NewMetar                     (* '✅ Получен новый METAR!' *)
  | NoChange                     (* 'ℹ️ METAR не изменился' *).

Record State : Type := mkState {
  (* selection *)
  selectedAirports : list Airport;
  icaoSearch : string;
  searchResults : bool;
  selectedAirportsContainer : bool;
  airportsList : list (string * string);
  (* error banner *)
  errorMessage : bool;
  errorMessage_text : option Message;
  (* results *)
  loading : bool;
  resultSection : bool;
  resultSection_header : option nat;
  resultSection_cards : list Airport;
  lastMetarRaw : option (gmap string string);
  refresh_indicator : bool;
  notification : option Notice;
  (* auto-refresh *)
  autoRefreshToggle : bool;
  autoRefreshPanel : bool;
  autoRefreshInterval : bool;
  countdownInterval : bool;
  refresh_timers : nat;
  countdown_timers : nat;
  remainingSeconds : Z;
  refreshTimer : option Timer
}.

Definition REFRESH_INTERVAL_SECONDS : Z := 600.

(** The page as the script finds it. *)
Definition initial : State :=
  mkState [] "" false false [] false None false false None [] None false
          None false false false false 0 0 0 None.

(** *** Field updates *)

Definition with_selection
    (sel : list Airport) (box : string) (active container : bool)
    (tags : list (string * string)) (st : State) : State :=
  mkState sel box active container tags
          (errorMessage st) (errorMessage_text st)
          (loading st) (resultSection st) (resultSection_header st)
          (resultSection_cards st) (lastMetarRaw st) (refresh_indicator st)
          (notification st)
          (autoRefreshToggle st) (autoRefreshPanel st)
          (autoRefreshInterval st) (countdownInterval st)
          (refresh_timers st) (countdown_timers st)
          (remainingSeconds st) (refreshTimer st).

Definition with_error (shown : bool) (text : option Message) (st : State)
    : State :=
  mkState (selectedAirports st) (icaoSearch st) (searchResults st)
          (selectedAirportsContainer st) (airportsList st)
          shown text
          (loading st) (resultSection st) (resultSection_header st)
          (resultSection_cards st) (lastMetarRaw st) (refresh_indicator st)
          (notification st)
          (autoRefreshToggle st) (autoRefreshPanel st)
          (autoRefreshInterval st) (countdownInterval st)
          (refresh_timers st) (countdown_timers st)
          (remainingSeconds st) (refreshTimer st).

Definition with_results
    (load shown : bool) (header : option nat) (cards : list Airport)
    (last : option (gmap string string)) (indicator : bool)
    (note : option Notice) (st : State) : State :=
  mkState (selectedAirports st) (icaoSearch st) (searchResults st)
          (selectedAirportsContainer st) (airportsList st)
          (errorMessage st) (errorMessage_text st)
          load shown header cards last indicator note
          (autoRefreshToggle st) (autoRefreshPanel st)
          (autoRefreshInterval st) (countdownInterval st)
          (refresh_timers st) (countdown_timers st)
          (remainingSeconds st) (refreshTimer st).

Definition with_refresh
    (toggle panel refreshId countdownId : bool) (nr nc : nat)
    (remaining : Z) (timer : option Timer) (st : State) : State :=
  mkState (selectedAirports st) (icaoSearch st) (searchResults st)
          (selectedAirportsContainer st) (airportsList st)
          (errorMessage st) (errorMessage_text st)
          (loading st) (resultSection st) (resultSection_header st)
          (resultSection_cards st) (lastMetarRaw st) (refresh_indicator st)
          (notification st)
          toggle panel refreshId countdownId nr nc remaining timer.

(** *** The small display helpers *)

Definition showError (message : Message) (st : State) : State :=
  with_error true (Some message) st.

Definition hideError (st : State) : State :=
  with_error false (errorMessage_text st) st.

Definition showLoading (st : State) : State :=
  with_results true (resultSection st) (resultSection_header st)
               (resultSection_cards st) (lastMetarRaw st)
               (refresh_indicator st) (notification st) st.

Definition hideLoading (st : State) : State :=
  with_results false (resultSection st) (resultSection_header st)
               (resultSection_cards st) (lastMetarRaw st)
               (refresh_indicator st) (notification st) st.

Definition hideResult (st : State) : State :=
  with_results (loading st) false (resultSection_header st)
               (resultSection_cards st) (lastMetarRaw st)
               (refresh_indicator st) (notification st) st.

Definition showAutoRefreshPanel (st : State) : State :=
  with_refresh (autoRefreshToggle st) true
               (autoRefreshInterval st) (countdownInterval st)
               (refresh_timers st) (countdown_timers st)
               (remainingSeconds st) (refreshTimer st) st.

(** *** Selecting airports *)

(** [renderSelectedAirports]: an empty selection hides the container and
    leaves the tags that were there. *)
Definition renderSelectedAirports (st : State) : State :=
  match selectedAirports st with
  | [] =>
      with_selection (selectedAirports st) (icaoSearch st)
                     (searchResults st) false (airportsList st) st
  | _ =>
      with_selection (selectedAirports st) (icaoSearch st)
                     (searchResults st) true
                     (map (fun a => (icao a, name a)) (selectedAirports st))
                     st
  end.

Definition selectAirport (airport : Candidate) (st : State) : State :=
  if existsb (fun a => String.eqb (icao a) (c_icao airport))
             (selectedAirports st)
  then
    let st := showError (AlreadyAdded (c_icao airport)) st in
    with_selection (selectedAirports st) "" false
                   (selectedAirportsContainer st) (airportsList st) st
  else
    let added :=
      selectedAirports st
      ++ [mkAirport (c_icao airport) (c_name airport)
                    (default "" (c_runway_headings airport))] in
    let st :=
      with_selection added (icaoSearch st) (searchResults st)
                     (selectedAirportsContainer st) (airportsList st) st in
    let st := renderSelectedAirports st in
    with_selection (selectedAirports st) "" false
                   (selectedAirportsContainer st) (airportsList st) st.

Definition removeAirport (code : string) (st : State) : State :=
  let kept :=
    List.filter (fun a => negb (String.eqb (icao a) code))
                (selectedAirports st) in
  renderSelectedAirports
    (with_selection kept (icaoSearch st) (searchResults st)
                    (selectedAirportsContainer st) (airportsList st) st).

(** Typing in the search box, the answer of an airport search and a click
    outside the result list set the text of the box and open or close the
    result list; they touch nothing else.  What text and which of the two
    depends on the input, the server and the click; here any is allowed. *)
Definition search_box (value : string) (active : bool) (st : State) : State :=
  with_selection (selectedAirports st) value active
                 (selectedAirportsContainer st) (airportsList st) st.

(** *** Auto-refresh *)

(** [String(n).padStart(2, '0')] and its general form for a one-character
    pad. *)
Definition padStart (target : nat) (pad : ascii) (s : string) : string :=
  String.string_of_list_ascii (replicate (target - String.length s) pad)
  +:+ s.

Definition timeString (remaining : Z) : string :=
  let minutes := (remaining / 60)%Z in
  let seconds := Z.rem remaining 60 in
  pretty minutes +:+ ":" +:+ padStart 2 "0" (pretty seconds).

Definition updateCountdown (st : State) : State :=
  let remaining :=
    if (remainingSeconds st <=? 0)%Z then REFRESH_INTERVAL_SECONDS
    else remainingSeconds st in
  with_refresh (autoRefreshToggle st) (autoRefreshPanel st)
               (autoRefreshInterval st) (countdownInterval st)
               (refresh_timers st) (countdown_timers st)
               (remaining - 1) (Some (Countdown (timeString remaining))) st.

Definition stopAutoRefresh (st : State) : State :=
  with_refresh (autoRefreshToggle st) (autoRefreshPanel st)
               false false
               (if autoRefreshInterval st then pred (refresh_timers st)
                else refresh_timers st)
               (if countdownInterval st then pred (countdown_timers st)
                else countdown_timers st)
               (remainingSeconds st) (Some Stopped) st.

Definition startAutoRefresh (st : State) : State :=
  match selectedAirports st with
  | [] =>
      showError ChooseAirportFirst
        (with_refresh false (autoRefreshPanel st)
                      (autoRefreshInterval st) (countdownInterval st)
                      (refresh_timers st) (countdown_timers st)
                      (remainingSeconds st) (refreshTimer st) st)
  | _ =>
      let st :=
        with_refresh (autoRefreshToggle st) (autoRefreshPanel st)
                     (autoRefreshInterval st) (countdownInterval st)
                     (refresh_timers st) (countdown_timers st)
                     REFRESH_INTERVAL_SECONDS (refreshTimer st) st in
      let st := updateCountdown st in
      with_refresh (autoRefreshToggle st) (autoRefreshPanel st)
                   true true
                   (S (refresh_timers st)) (S (countdown_timers st))
                   (remainingSeconds st) (refreshTimer st) st
  end.

(** The [change] handler of the toggle: the browser has flipped the box
    before the handler runs. *)
Definition toggle_changed (st : State) : State :=
  let st :=
    with_refresh (negb (autoRefreshToggle st)) (autoRefreshPanel st)
                 (autoRefreshInterval st) (countdownInterval st)
                 (refresh_timers st) (countdown_timers st)
                 (remainingSeconds st) (refreshTimer st) st in
  if autoRefreshToggle st then startAutoRefresh st else stopAutoRefresh st.

(** Unchecking the box from code and stopping, as [clearAll] and the
    wrapped [fetchMetarTaf] do when the box is checked. *)
Definition uncheck_and_stop (st : State) : State :=
  if autoRefreshToggle st then
    stopAutoRefresh
      (with_refresh false (autoRefreshPanel st)
                    (autoRefreshInterval st) (countdownInterval st)
                    (refresh_timers st) (countdown_timers st)
                    (remainingSeconds st) (refreshTimer st) st)
  else st.

(** *** Results *)

Definition truthy (s : option string) : bool :=
  match s with
  | Some EmptyString | None => false
  | Some _ => true
  end.

Definition cache_key (code : string) : string := "metar_" +:+ code.

(** The [forEach] of [displayMultipleAirportsResults]: failed results are
    skipped; the others record their METAR and get a card. *)
Fixpoint display_each (results : list (Airport * FetchData))
    (last : gmap string string) (cards : list Airport)
    : gmap string string * list Airport :=
  match results with
  | [] => (last, cards)
  | (airport, data) :: rest =>
      if success data then
        let last :=
          match metar data with
          | Some m =>
              if truthy (metar data)
              then <[cache_key (icao airport) := m]> last else last
          | None => last
          end in
        display_each rest last (cards ++ [airport])
      else display_each rest last cards
  end.

Definition displayMultipleAirportsResults
    (results : list (Airport * FetchData)) (st : State) : State :=
  let st :=
    with_results (loading st) (resultSection st) None []
                 (lastMetarRaw st) (refresh_indicator st) (notification st)
                 st in
  match results with
  | [] => showError NoData st
  | _ =>
      let '(last, cards) :=
        display_each results (default ∅ (lastMetarRaw st)) [] in
      with_results (loading st) true (Some (length results)) cards
                   (Some last) (refresh_indicator st) (notification st) st
  end.

(** The [forEach] of the refresh handler: which METARs differ from the
    recorded ones; the record is brought up to date on the way. *)
Fixpoint detect_changes (results : list (Airport * FetchData))
    (last : option (gmap string string)) (hasChanges : bool)
    : option (gmap string string) * bool :=
  match results with
  | [] => (last, hasChanges)
  | (airport, data) :: rest =>
      match metar data with
      | Some m =>
          if success data && truthy (metar data) then
            let key := cache_key (icao airport) in
            let table := default ∅ last in
            if bool_decide (table !! key = Some m)
            then detect_changes rest (Some table) hasChanges
            else detect_changes rest (Some (<[key := m]> table)) true
          else detect_changes rest last hasChanges
      | None => detect_changes rest last hasChanges
      end
  end.

(** The synchronous part of [performAutoRefresh]. *)
Definition performAutoRefresh (st : State) : State :=
  match selectedAirports st with
  | [] =>
      let st := stopAutoRefresh st in
      with_refresh false (autoRefreshPanel st)
                   (autoRefreshInterval st) (countdownInterval st)
                   (refresh_timers st) (countdown_timers st)
                   (remainingSeconds st) (refreshTimer st) st
  | _ =>
      with_results (loading st) (resultSection st) (resultSection_header st)
                   (resultSection_cards st) (lastMetarRaw st) true
                   (notification st) st
  end.

Definition reset_countdown (st : State) : State :=
  with_refresh (autoRefreshToggle st) (autoRefreshPanel st)
               (autoRefreshInterval st) (countdownInterval st)
               (refresh_timers st) (countdown_timers st)
               REFRESH_INTERVAL_SECONDS (refreshTimer st) st.

(** Its [then] handler. *)
Definition refresh_done (results : list (Airport * FetchData)) (st : State)
    : State :=
  let '(last, hasChanges) := detect_changes results (lastMetarRaw st) false in
  let st :=
    with_results (loading st) (resultSection st) (resultSection_header st)
                 (resultSection_cards st) last false (notification st) st in
  let st :=
    if hasChanges then
      displayMultipleAirportsResults results
        (with_results (loading st) (resultSection st)
                      (resultSection_header st) (resultSection_cards st)
                      (lastMetarRaw st) (refresh_indicator st)
                      (Some NewMetar) st)
    else
      with_results (loading st) (resultSection st) (resultSection_header st)
                   (resultSection_cards st) (lastMetarRaw st)
                   (refresh_indicator st) (Some NoChange) st in
  reset_countdown st.

(** Its [catch] handler. *)
Definition refresh_failed (st : State) : State :=
  reset_countdown
    (with_results (loading st) (resultSection st) (resultSection_header st)
                  (resultSection_cards st) (lastMetarRaw st) false
                  (notification st) st).

(** *** Fetching and clearing *)

(** [window.fetchMetarTaf]: the wrapper, then the synchronous part of the
    original. *)
Definition fetchMetarTaf (st : State) : State :=
  let st := uncheck_and_stop st in
  match selectedAirports st with
  | [] => showError ChooseAirport st
  | _ => showLoading (hideResult (hideError st))
  end.

Definition fetch_done (results : list (Airport * FetchData)) (st : State)
    : State :=
  showAutoRefreshPanel (displayMultipleAirportsResults results (hideLoading st)).

(** The [catch] handler; an aborted request shows no error. *)
Definition fetch_failed (aborted : bool) (st : State) : State :=
  let st := hideLoading st in
  if aborted then st else showError ConnectionFailed st.

Definition clearAll (st : State) : State :=
  let st := uncheck_and_stop st in
  let st :=
    with_refresh (autoRefreshToggle st) false
                 (autoRefreshInterval st) (countdownInterval st)
                 (refresh_timers st) (countdown_timers st)
                 (remainingSeconds st) (refreshTimer st) st in
  let st :=
    with_selection [] "" (searchResults st) (selectedAirportsContainer st)
                   (airportsList st) st in
  let st := renderSelectedAirports st in
  let st := hideError (hideResult st) in
  let st :=
    with_selection (selectedAirports st) (icaoSearch st) false
                   (selectedAirportsContainer st) (airportsList st) st in
  with_results (loading st) (resultSection st) None [] (Some ∅)
               (refresh_indicator st) (notification st) st.

(** *** The five-minute cache of [/fetch] answers *)

(** A value of [dataCache]; the time is [Date.now()], in milliseconds. *)
Record Cached : Type := mkCached {
  data : FetchData;
  timestamp : Z
}.

Definition CACHE_DURATION : Z := 5 * 60 * 1000.

(** The cleanup that runs every minute: one pass over the entries, deleting
    each expired one. *)
Definition cleanup (now : Z) (dataCache : gmap string Cached)
    : gmap string Cached :=
  map_fold (fun key value cache =>
              if (now - timestamp value >? CACHE_DURATION)%Z
              then delete key cache else cache)
           dataCache dataCache.

(** What [fetchMetarTaf] takes from the cache for an airport instead of
    asking the server. *)
Definition cached_answer (now : Z) (code : string)
    (dataCache : gmap string Cached) : option FetchData :=
  match dataCache !! cache_key code with
  | Some cached =>
      if (now - timestamp cached <? CACHE_DURATION)%Z
      then Some (data cached) else None
  | None => None
  end.

(** What it stores when the server has answered. *)
Definition store_answer (now : Z) (code : string) (answer : FetchData)
    (dataCache : gmap string Cached) : gmap string Cached :=
  <[cache_key code := mkCached answer now]> dataCache.

(** *** Runway headings *)

(** [s.split(sep)] for a one-character separator: the piece before the
    first separator and the pieces after it. *)
Fixpoint split_at (sep : ascii) (s : string) : string * list string :=
  match s with
  | EmptyString => (EmptyString, [])
  | String c rest =>
      let '(piece, pieces) := split_at sep rest in
      if Ascii.eqb c sep then (EmptyString, piece :: pieces)
      else (String c piece, pieces)
  end.

Definition split (sep : ascii) (s : string) : list string :=
  let '(piece, pieces) := split_at sep s in piece :: pieces.

(** [pieces.join(sep)]. *)
Fixpoint join (sep : string) (pieces : list string) : string :=
  match pieces with
  | [] => EmptyString
  | [piece] => piece
  | piece :: rest => piece +:+ sep +:+ join sep rest
  end.

(** A template literal prints a missing value as [undefined]. *)
Definition interpolate (value : option string) : string :=
  default "undefined" value.

Definition formatRunway (rw : string) : string :=
  let parts := split ":" rw in
  "ВПП " +:+ interpolate (parts !! 0%nat) +:+ ": "
  +:+ interpolate (parts !! 1%nat).

Definition formatRunwayHeadings (runwayStr : string) : string :=
  match runwayStr with
  | EmptyString => "Нет данных"
  | _ => join " | " (map formatRunway (split "," runwayStr))
  end.

(** *** Events

    What can happen on the page, as far as the state above is concerned.
    A request that finishes carries whatever results the server gave, and
    may finish at any time; the handlers that are not listed (the
    local-time switch, the archive button, the rows that unfold inside a
    card) write none of the fields of the state. *)

Inductive Event : Type :=
  | SearchBox (value : string) (active : bool)
  | PickAirport (airport : Candidate)
  | RemoveTag (code : string)
  | ClickClear
  | ClickFetch
  | FetchDone (results : list (Airport * FetchData))
  | FetchFailed (aborted : bool)
  | ToggleAutoRefresh
  | Tick
  | RefreshFire
  | RefreshDone (results : list (Airport * FetchData))
  | RefreshFailed.

(** A timer event can only come from a live timer. *)
Definition enabled (e : Event) (st : State) : Prop :=
  match e with
  | Tick => (0 < countdown_timers st)%nat
  | RefreshFire => (0 < refresh_timers st)%nat
  | _ => True
  end.

Definition handle (e : Event) (st : State) : State :=
  match e with
  | SearchBox value active => search_box value active st
  | PickAirport airport => selectAirport airport st
  | RemoveTag code => removeAirport code st
  | ClickClear => clearAll st
  | ClickFetch => fetchMetarTaf st
  | FetchDone results => fetch_done results st
  | FetchFailed aborted => fetch_failed aborted st
  | ToggleAutoRefresh => toggle_changed st
  | Tick => updateCountdown st
  | RefreshFire => performAutoRefresh st
  | RefreshDone results => refresh_done results st
  | RefreshFailed => refresh_failed st
  end.

Inductive reachable : State -> Prop :=
  | reachable_initial : reachable initial
  | reachable_step (e : Event) (st : State) :
      reachable st -> enabled e st -> reachable (handle e st).

(** Running a list of events in order. *)
Definition run (events : list Event) (st : State) : State :=
  fold_left (fun s e => handle e s) events st.

End Metar.

(** The codes of the selected airports, in order. *)
Definition icaos (st : Metar.State) : list string :=
  map Metar.icao (Metar.selectedAirports st).

(** The selection and its rendering agree: no code twice, the tag
    container is shown exactly when there is a selection, and then the tags
    are the selected airports in order. *)
Definition selection_ok (st : Metar.State) : Prop :=
  NoDup (icaos st) /\
  (Metar.selectedAirportsContainer st = true
   <-> Metar.selectedAirports st <> []) /\
  (Metar.selectedAirports st <> [] ->
   Metar.airportsList st
     = map (fun a => (Metar.icao a, Metar.name a))
           (Metar.selectedAirports st)).

(** Timers follow the toggle: both interval ids are set exactly when the
    box is checked, and then exactly one timer of each kind is live. *)
Definition timers_ok (st : Metar.State) : Prop :=
  Metar.autoRefreshInterval st = Metar.autoRefreshToggle st /\
  Metar.countdownInterval st = Metar.autoRefreshToggle st /\
  Metar.refresh_timers st = (if Metar.autoRefreshToggle st then 1 else 0)%nat /\
  Metar.countdown_timers st
    = (if Metar.autoRefreshToggle st then 1 else 0)%nat.

(** The countdown stays within one refresh interval, and a countdown text
    on the page shows a time from 0:01 to 10:00. *)
Definition countdown_ok (st : Metar.State) : Prop :=
  (0 <= Metar.remainingSeconds st <= 600)%Z /\
  (forall s, Metar.refreshTimer st = Some (Metar.Countdown s) ->
             exists r : Z, (1 <= r <= 600)%Z /\ s = Metar.timeString r).

(** The parts of the state the two auto-refresh invariants read. *)
Definition timer_view (st : Metar.State) : bool * bool * bool * nat * nat :=
  (Metar.autoRefreshToggle st, Metar.autoRefreshInterval st,
   Metar.countdownInterval st, Metar.refresh_timers st,
   Metar.countdown_timers st).

Definition clock_view (st : Metar.State) : Z * option Metar.Timer :=
  (Metar.remainingSeconds st, Metar.refreshTimer st).

(** The airports of the results that succeeded, in order. *)
Definition succeeded (results : list (Metar.Airport * Metar.FetchData))
    : list Metar.Airport :=
  map fst (List.filter (fun r => Metar.success (snd r)) results).

(** A result whose METAR is tracked and differs from the recorded one. *)
Definition differs (table : gmap string string)
    (r : Metar.Airport * Metar.FetchData) : bool :=
  Metar.success (snd r) && Metar.truthy (Metar.metar (snd r))
  && negb (bool_decide (table !! Metar.cache_key (Metar.icao (fst r))
                        = Metar.metar (snd r))).

Definition result_codes (results : list (Metar.Airport * Metar.FetchData))
    : list string :=
  map (fun r => Metar.icao (fst r)) results.

(** The runway string the server sends for a list of runways. *)
Definition runway_string (runways : list (string * string)) : string :=
  Metar.join "," (map (fun rw => fst rw +:+ ":" +:+ snd rw) runways).

Definition free_of (c : ascii) (s : string) : Prop :=
  ~ In c (String.list_ascii_of_string s).

(** *** A session on the METAR page *)

Definition uuee : Metar.Candidate :=
  Metar.mkCandidate "UUEE" "Sheremetyevo" (Some "06L:063°,24R:243°").

Definition ulli : Metar.Candidate :=
  Metar.mkCandidate "ULLI" "Pulkovo" None.

Definition uuee_airport : Metar.Airport :=
  Metar.mkAirport "UUEE" "Sheremetyevo" "06L:063°,24R:243°".

Definition ulli_airport : Metar.Airport :=
  Metar.mkAirport "ULLI" "Pulkovo" "".

Definition sample_results : list (Metar.Airport * Metar.FetchData) :=
  [(uuee_airport,
    Metar.mkFetchData true (Some "UUEE 021200Z 24005MPS 9999 BKN020 05/01 Q1015")
                      None);
   (ulli_airport, Metar.mkFetchData false None None)].

Definition sample_session : list Metar.Event :=
  [Metar.PickAirport uuee; Metar.PickAirport ulli; Metar.PickAirport uuee;
   Metar.ClickFetch; Metar.FetchDone sample_results;
   Metar.ToggleAutoRefresh; Metar.Tick; Metar.Tick; Metar.RemoveTag "ULLI";
   Metar.RefreshFire; Metar.RefreshDone sample_results].

Definition sample_cache : gmap string Metar.Cached :=
  {[ Metar.cache_key "UUEE" :=
       Metar.mkCached (Metar.mkFetchData true (Some "UUEE 021200Z") None)
                      1000;
     Metar.cache_key "ULLI" :=
       Metar.mkCached (Metar.mkFetchData false None None) 250000 ]}.

Definition sample_runways : list (string * string) :=
  [("06L", "063°"); ("24R", "243°")].

(** * Properties *)

(** ** The counting loops terminate on their guard *)

Section CountingLoops.

Variable step : Z.
Hypothesis step_pos : (0 < step)%Z.

(** Any fuel beyond the distance to the bound gives the same list. *)
Lemma for_ge_fuel_enough (lo : Z) (n : nat) :
  forall c : Z,
    (Z.to_nat (c - lo + 1) <= n)%nat ->
    for_ge_fuel n c lo step = for_ge c lo step.
Proof.
  unfold for_ge.
  induction n as [n IH] using lt_wf_ind. intros c Hn.
  destruct (Z.leb_spec lo c) as [Hle | Hgt].
  - destruct n as [|n]; [lia|].
    destruct (Z.to_nat (c - lo + 1)) as [|m] eqn:Hm; [lia|].
    cbn [for_ge_fuel]. destruct (Z.leb_spec lo c); [|lia]. f_equal.
    rewrite (IH n), (IH m) by lia. reflexivity.
  - replace (Z.to_nat (c - lo + 1)) with O by lia.
    destruct n; cbn [for_ge_fuel]; [reflexivity|].
    destruct (Z.leb_spec lo c); [lia | reflexivity].
Qed.

Lemma for_le_fuel_enough (hi : Z) (n : nat) :
  forall c : Z,
    (Z.to_nat (hi - c + 1) <= n)%nat ->
    for_le_fuel n c hi step = for_le c hi step.
Proof.
  unfold for_le.
  induction n as [n IH] using lt_wf_ind. intros c Hn.
  destruct (Z.leb_spec c hi) as [Hle | Hgt].
  - destruct n as [|n]; [lia|].
    destruct (Z.to_nat (hi - c + 1)) as [|m] eqn:Hm; [lia|].
    cbn [for_le_fuel]. destruct (Z.leb_spec c hi); [|lia]. f_equal.
    rewrite (IH n), (IH m) by lia. reflexivity.
  - replace (Z.to_nat (hi - c + 1)) with O by lia.
    destruct n; cbn [for_le_fuel]; [reflexivity|].
    destruct (Z.leb_spec c hi); [lia | reflexivity].
Qed.

(** One turn of each loop: test the guard, keep the counter, move on. *)
Lemma for_ge_step (c lo : Z) :
  for_ge c lo step =
    if (lo <=? c)%Z then c :: for_ge (c - step) lo step else [].
Proof.
  unfold for_ge at 1.
  destruct (Z.leb_spec lo c) as [Hle | Hgt].
  - destruct (Z.to_nat (c - lo + 1)) as [|m] eqn:Hm; [lia|].
    cbn [for_ge_fuel]. destruct (Z.leb_spec lo c); [|lia]. f_equal.
    apply for_ge_fuel_enough; lia.
  - replace (Z.to_nat (c - lo + 1)) with O by lia. reflexivity.
Qed.

Lemma for_le_step (c hi : Z) :
  for_le c hi step =
    if (c <=? hi)%Z then c :: for_le (c + step) hi step else [].
Proof.
  unfold for_le at 1.
  destruct (Z.leb_spec c hi) as [Hle | Hgt].
  - destruct (Z.to_nat (hi - c + 1)) as [|m] eqn:Hm; [lia|].
    cbn [for_le_fuel]. destruct (Z.leb_spec c hi); [|lia]. f_equal.
    apply for_le_fuel_enough; lia.
  - replace (Z.to_nat (hi - c + 1)) with O by lia. reflexivity.
Qed.

(** The downward loop stays between its bound and its start. *)
Lemma for_ge_fuel_bounds (lo : Z) (fuel : nat) :
  forall c p : Z, In p (for_ge_fuel fuel c lo step) -> (lo <= p <= c)%Z.
Proof.
  induction fuel as [|fuel IH]; intros c p; cbn [for_ge_fuel].
  - intros [].
  - destruct (Z.leb_spec lo c) as [Hle | Hgt]; [|intros []].
    intros [<- | Hin]; [lia|]. apply IH in Hin. lia.
Qed.

End CountingLoops.

Section IndexLoop.

Variables step n : nat.
Hypothesis step_pos : (0 < step)%nat.

Lemma ceil_div_succ (a : nat) :
  (0 < a)%nat -> ceil_div a step = S (ceil_div (a - step) step).
Proof.
  intros Ha. unfold ceil_div.
  destruct (Nat.le_gt_cases step a) as [Hle | Hlt].
  - replace (a + step - 1)%nat with ((a - step + step - 1) + 1 * step)%nat
      by lia.
    rewrite Nat.div_add by lia. lia.
  - replace (a - step)%nat with O by lia.
    rewrite (Nat.div_small (0 + step - 1) step) by lia.
    replace (a + step - 1)%nat with ((a - 1) + 1 * step)%nat by lia.
    rewrite Nat.div_add by lia. rewrite Nat.div_small by lia. reflexivity.
Qed.

(** The index loop visits [i], [i + step], ... below [n], whatever fuel
    beyond [n - i] it is given. *)
Lemma for_lt_fuel_multiples (fuel : nat) :
  forall i : nat,
    (n - i <= fuel)%nat ->
    for_lt_fuel fuel i n step =
      map (fun q => (i + q * step)%nat) (seq 0 (ceil_div (n - i) step)).
Proof.
  induction fuel as [|fuel IH]; intros i Hfuel.
  - replace (n - i)%nat with O by lia. unfold ceil_div.
    rewrite Nat.div_small by lia. reflexivity.
  - cbn [for_lt_fuel]. destruct (Nat.ltb_spec i n) as [Hlt | Hge].
    + rewrite ceil_div_succ by lia. cbn [seq map]. f_equal; [lia|].
      rewrite IH by lia. rewrite <- seq_shift, map_map.
      replace (n - (i + step))%nat with (n - i - step)%nat by lia.
      apply map_ext. intros q. lia.
    + replace (n - i)%nat with O by lia. unfold ceil_div.
      rewrite Nat.div_small by lia. reflexivity.
Qed.

Lemma for_lt_multiples :
  for_lt 0 n step
    = map (fun q => (q * step)%nat) (seq 0 (ceil_div n step)).
Proof.
  unfold for_lt. rewrite for_lt_fuel_multiples by lia.
  rewrite Nat.sub_0_r. reflexivity.
Qed.

End IndexLoop.

Lemma for_lt_fuel_below (n step fuel : nat) :
  forall start i : nat, In i (for_lt_fuel fuel start n step) -> (i < n)%nat.
Proof.
  induction fuel as [|fuel IH]; intros start i; cbn [for_lt_fuel].
  - intros [].
  - destruct (Nat.ltb_spec start n) as [Hlt | Hge]; [|intros []].
    intros [<- | Hin]; [exact Hlt | exact (IH _ _ Hin)].
Qed.

Lemma for_lt_1 (n : nat) : for_lt 0 n 1 = seq 0 n.
Proof.
  rewrite for_lt_multiples by lia. unfold ceil_div.
  replace (n + 1 - 1)%nat with n by lia. rewrite Nat.div_1_r.
  rewrite <- (map_id (seq 0 n)) at 2. apply map_ext. intros q. lia.
Qed.

(** ** Array reads inside a sounding of [N] levels *)

(** Read [arr[i]] when [i] is provably below the length of [arr]. *)
Ltac read_level arr i x H :=
  destruct (lookup_lt_is_Some_2 arr i) as [x H]; [lia|].

Lemma get_lookup (arr : list R) (i : nat) (r : R) :
  arr !! i = Some r -> get arr i = Num r.
Proof. unfold get. intros ->. reflexivity. Qed.

Lemma get_in_range (arr : list R) (i : nat) :
  (i < length arr)%nat -> exists r, arr !! i = Some r /\ get arr i = Num r.
Proof.
  intros Hi. destruct (lookup_lt_is_Some_2 arr i Hi) as [r Hr].
  exists r. split; [exact Hr | apply get_lookup, Hr].
Qed.

Lemma get_out_of_range (arr : list R) (i : nat) :
  (length arr <= i)%nat -> get arr i = NaN.
Proof.
  intros Hi. unfold get. rewrite (lookup_ge_None_2 arr i Hi). reflexivity.
Qed.

Lemma at_index_lookup (arr : list number) (i : nat) (a : number) :
  arr !! i = Some a -> at_index arr i = a.
Proof. unfold at_index. intros ->. reflexivity. Qed.

Lemma skew_num (t p : R) :
  (t + (1000 - p) * skewFactor)%js = Num (t + (1000 - p) * 0.04).
Proof. reflexivity. Qed.

Lemma tempX_lookup (data : Sounding) (i : nat) (t p : R) :
  temperature data !! i = Some t ->
  pressure data !! i = Some p ->
  tempX data !! i = Some (Num (t + (1000 - p) * 0.04)).
Proof.
  intros Ht Hp. unfold tempX.
  rewrite list_lookup_imap, Ht. cbn [fmap option_fmap option_map].
  rewrite (get_lookup _ _ _ Hp). reflexivity.
Qed.

Lemma dewpointX_lookup (data : Sounding) (i : nat) (td p : R) :
  dewpoint data !! i = Some td ->
  pressure data !! i = Some p ->
  dewpointX data !! i = Some (Num (td + (1000 - p) * 0.04)).
Proof.
  intros Ht Hp. unfold dewpointX.
  rewrite list_lookup_imap, Ht. cbn [fmap option_fmap option_map].
  rewrite (get_lookup _ _ _ Hp). reflexivity.
Qed.

(** ** The density flag *)

Lemma isLowPerformance_true
    (innerWidth : Z) (hardwareConcurrency : option Z) (mobile : bool) :
  isLowPerformance innerWidth hardwareConcurrency mobile = true <->
  (innerWidth <= 768)%Z
  \/ (exists n, hardwareConcurrency = Some n /\ (n <= 2)%Z)
  \/ mobile = true.
Proof.
  unfold isLowPerformance. rewrite !orb_true_iff, Z.leb_le.
  destruct hardwareConcurrency as [n|].
  - rewrite Z.leb_le. split.
    + intros [[H | H] | H]; eauto.
    + intros [H | [(m & [= <-] & H) | H]]; auto.
  - split.
    + intros [[H | H] | H]; auto. discriminate.
    + intros [H | [(m & [=] & _) | H]]; auto.
Qed.

(** ** C1: the Skew-T projection *)

(** C1.  For a sounding of [N] levels the chart ends with the temperature
    and the dewpoint trace; both have [N] abscissas, and at every index [i]
    below [N] the abscissas are [temperature[i] + (1000 - pressure[i]) * 0.04]
    and [dewpoint[i] + (1000 - pressure[i]) * 0.04], with the ordinate
    [pressure[i]] shared by the two traces. *)
Theorem skew_projection (lowPerf : bool) (data : Sounding) (N : nat) :
  levels data N ->
  skewFactor = Num 0.04 /\
  (exists grid,
      createTemperatureChart lowPerf data =
        grid ++ [tempTrace data; dewpointTrace data]) /\
  length (Trace.x (tempTrace data)) = N /\
  length (Trace.x (dewpointTrace data)) = N /\
  Trace.y (tempTrace data) = Trace.y (dewpointTrace data) /\
  forall i : nat,
    (i < N)%nat ->
    exists t td p : R,
      temperature data !! i = Some t /\
      dewpoint data !! i = Some td /\
      pressure data !! i = Some p /\
      Trace.x (tempTrace data) !! i = Some (Num (t + (1000 - p) * 0.04)) /\
      Trace.x (dewpointTrace data) !! i
        = Some (Num (td + (1000 - p) * 0.04)) /\
      Trace.y (tempTrace data) !! i = Some (Num p).
Proof.
  intros (Hp & Ht & Hd & _ & _).
  split; [reflexivity|]. split.
  { exists (isobars ++ isotherms lowPerf ++ dryAdiabats lowPerf).
    unfold createTemperatureChart. rewrite <- !app_assoc. reflexivity. }
  cbn [tempTrace dewpointTrace Trace.x Trace.y].
  unfold tempX, dewpointX. rewrite !length_imap.
  repeat split; try assumption.
  intros i Hi.
  read_level (temperature data) i t Hti.
  read_level (dewpoint data) i td Hdi.
  read_level (pressure data) i p Hpi.
  exists t, td, p. repeat split; try assumption.
  - apply tempX_lookup; assumption.
  - apply dewpointX_lookup; assumption.
  - rewrite list_lookup_fmap, Hpi. reflexivity.
Qed.

(** The sample sounding has five levels. *)
Lemma sample_levels : levels sample_sounding 5.
Proof. repeat split. Defined.

Lemma skew_projection_witness :
  levels sample_sounding 5 /\
  length (Trace.x (tempTrace sample_sounding)) = 5%nat.
Proof.
  split; [exact sample_levels|].
  apply (skew_projection false sample_sounding 5 sample_levels).
Defined.

(** ** C2: the temperature along a dry adiabat *)

Lemma adiabat_pressure_bounds (lowPerf : bool) (p : Z) :
  In p (for_ge 1050 100 (adiabatStep lowPerf)) -> (100 <= p <= 1050)%Z.
Proof.
  apply for_ge_fuel_bounds. destruct lowPerf; reflexivity.
Qed.

Lemma theta0_bounds (lowPerf : bool) (theta0 : Z) :
  In theta0 (theta0Values lowPerf) -> (-40 <= theta0 <= 100)%Z.
Proof. destruct lowPerf; cbn; intuition lia. Qed.

Lemma adiabat_t_num (theta0 p : Z) :
  (100 <= p)%Z ->
  adiabat_t theta0 p
    = Num (IZR theta0 * Rpower (IZR p / 1000) 0.286 - 273.15).
Proof.
  intros Hp. apply IZR_le in Hp.
  unfold adiabat_t, div.
  destruct (Req_dec_T 1000 0) as [H | _]; [lra|].
  unfold Math_pow.
  destruct (Rlt_dec 0 (IZR p / 1000)) as [_ | Hn]; [reflexivity|].
  exfalso. apply Hn. lra.
Qed.

Lemma Rpower_1_l (e : R) : Rpower 1 e = 1.
Proof. unfold Rpower. rewrite ln_1, Rmult_0_r. apply exp_0. Qed.

Lemma poisson_factor_bounds (p : Z) :
  (100 <= p <= 1050)%Z -> 0 < Rpower (IZR p / 1000) 0.286 <= 1.05.
Proof.
  intros [Hlo Hhi]. apply IZR_le in Hlo, Hhi. split.
  - unfold Rpower. apply exp_pos.
  - apply Rle_trans with (Rpower 1.05 0.286).
    + apply Rle_Rpower_l; lra.
    + rewrite <- (Rpower_1 1.05) at 2 by lra.
      apply Rle_Rpower; lra.
Qed.

(** Every point of every dry adiabat lies left of -132 on the abscissa:
    the curves are below -168 degrees before skewing, and the skew adds at
    most 36. *)
Lemma dry_adiabats_off_chart (lowPerf : bool) (theta0 p : Z) :
  In theta0 (theta0Values lowPerf) ->
  In p (for_ge 1050 100 (adiabatStep lowPerf)) ->
  exists T : R,
    adiabat_t theta0 p = Num T /\
    T <= -168.15 /\
    (adiabat_t theta0 p + (1000 - IZR p) * skewFactor)%js
      = Num (T + (1000 - IZR p) * 0.04) /\
    T + (1000 - IZR p) * 0.04 <= -132.15.
Proof.
  intros Hth Hp.
  apply theta0_bounds in Hth. apply adiabat_pressure_bounds in Hp.
  pose proof (poisson_factor_bounds p Hp) as Hf.
  exists (IZR theta0 * Rpower (IZR p / 1000) 0.286 - 273.15).
  rewrite adiabat_t_num by lia.
  destruct Hth as [Hlo Hhi]. destruct Hp as [Hplo Hphi].
  apply IZR_le in Hlo, Hhi, Hplo, Hphi.
  set (f := Rpower (IZR p / 1000) 0.286) in *.
  assert (IZR theta0 * f <= 105).
  { destruct (Rle_dec 0 (IZR theta0)); nra. }
  repeat split; try reflexivity; lra.
Qed.

(** C2.  For every configured [theta0] and every sampled pressure [p] the
    emitted temperature is [theta0 * (p / 1000) ^ 0.286 - 273.15] with
    [theta0] taken as it stands in the configured list, in degrees Celsius:
    exponent and offset are as stated, but [theta0] is not brought to an
    absolute temperature first.  At [theta0 = -40] and [p = 1000], a point
    of the full grid, the code emits -313.15, where the formula on the
    absolute reference [theta0 + 273.15] gives -40. *)
Theorem dry_adiabat_temperature :
  (forall (lowPerf : bool) (theta0 p : Z),
      In theta0 (theta0Values lowPerf) ->
      In p (for_ge 1050 100 (adiabatStep lowPerf)) ->
      adiabat_t theta0 p
        = Num (IZR theta0 * Rpower (IZR p / 1000) 0.286 - 273.15) /\
      adiabat_t theta0 p
        <> Num ((IZR theta0 + 273.15) * Rpower (IZR p / 1000) 0.286
                - 273.15)) /\
  In (-40)%Z (theta0Values false) /\
  In 1000%Z (for_ge 1050 100 (adiabatStep false)) /\
  adiabat_t (-40) 1000 = Num (-313.15) /\
  (-40 + 273.15) * Rpower (1000 / 1000) 0.286 - 273.15 = -40.
Proof.
  split; [|split; [|split; [|split]]].
  - intros lowPerf theta0 p Hth Hp.
    apply adiabat_pressure_bounds in Hp.
    pose proof (poisson_factor_bounds p Hp) as Hf.
    rewrite adiabat_t_num by lia. split; [reflexivity|].
    intros Heq. injection Heq as Heq. nra.
  - cbn. tauto.
  - vm_compute. tauto.
  - rewrite adiabat_t_num by lia.
    replace (IZR 1000 / 1000) with 1 by lra.
    rewrite Rpower_1_l. f_equal. lra.
  - replace (1000 / 1000) with 1 by lra. rewrite Rpower_1_l. lra.
Qed.

(** ** C3: the background grid does not depend on the sounding *)

Lemma filter_is_grid_all (traces : list Trace.t) :
  Forall (fun tr => is_grid tr = true) traces ->
  List.filter is_grid traces = traces.
Proof.
  induction 1 as [|tr traces Htr _ IH]; [reflexivity|].
  cbn [List.filter]. rewrite Htr, IH. reflexivity.
Qed.

Lemma grid_map_all {A : Type} (f : A -> Trace.t) (l : list A) :
  (forall a, is_grid (f a) = true) ->
  Forall (fun tr => is_grid tr = true) (map f l).
Proof. intros Hf. apply Forall_map, Forall_forall. intros a _. apply Hf. Qed.

Lemma background_chart (lowPerf : bool) (data : Sounding) :
  background (createTemperatureChart lowPerf data)
    = isobars ++ isotherms lowPerf ++ dryAdiabats lowPerf.
Proof.
  unfold background, createTemperatureChart.
  rewrite !List.filter_app.
  rewrite !filter_is_grid_all by (apply grid_map_all; reflexivity).
  cbn. rewrite !app_nil_r. reflexivity.
Qed.

(** C3.  Whatever two soundings are charted, and whatever two environments
    the density flag is read from, as long as the flag comes out the same
    the isobar, isotherm and dry-adiabat traces of the two charts are the
    same lists; they are the ones fixed by the flag (and by [skewFactor])
    alone. *)
Theorem background_independent
    (w1 w2 : Z) (hc1 hc2 : option Z) (m1 m2 : bool) (data1 data2 : Sounding) :
  isLowPerformance w1 hc1 m1 = isLowPerformance w2 hc2 m2 ->
  background (createTemperatureChart (isLowPerformance w1 hc1 m1) data1)
    = background (createTemperatureChart (isLowPerformance w2 hc2 m2) data2)
  /\ background (createTemperatureChart (isLowPerformance w1 hc1 m1) data1)
    = isobars
        ++ isotherms (isLowPerformance w1 hc1 m1)
        ++ dryAdiabats (isLowPerformance w1 hc1 m1).
Proof.
  intros Hsame. rewrite !background_chart, Hsame. split; reflexivity.
Qed.

Lemma background_independent_witness :
  background
    (createTemperatureChart (isLowPerformance 1920 (Some 8%Z) false)
                            sample_sounding)
  = background
      (createTemperatureChart (isLowPerformance 1280 None false)
                              (mkSounding [] [] [] [] [])).
Proof.
  exact (proj1 (background_independent 1920 1280 (Some 8%Z) None false false
                  sample_sounding (mkSounding [] [] [] [] []) eq_refl)).
Defined.

(** ** C4: speed and direction of the wind *)

Lemma atan_nonpos (z : R) : z <= 0 -> atan z <= 0.
Proof.
  intros [Hlt | ->].
  - left. rewrite <- atan_0. apply atan_increasing, Hlt.
  - rewrite atan_0. lra.
Qed.

Lemma atan_pos (z : R) : 0 < z -> 0 < atan z.
Proof. intros Hz. rewrite <- atan_0. apply atan_increasing, Hz. Qed.

(** [Math.atan2] answers in [(-PI, PI]]. *)
Lemma atan2_range (y x : R) : - PI < atan2 y x <= PI.
Proof.
  pose proof PI_RGT_0 as Hpi. unfold atan2.
  destruct (Rlt_dec 0 x) as [Hx | Hx].
  { pose proof (atan_bound (y / x)). lra. }
  destruct (Rlt_dec x 0) as [Hx' | Hx'].
  - pose proof (atan_bound (y / x)) as Hb.
    destruct (Rle_dec 0 y) as [Hy | Hy].
    + assert (y / x <= 0).
      { unfold Rdiv. assert (/ x < 0) by (apply Rinv_lt_0_compat, Hx'). nra. }
      pose proof (atan_nonpos (y / x)). lra.
    + assert (0 < y / x).
      { unfold Rdiv. assert (/ x < 0) by (apply Rinv_lt_0_compat, Hx'). nra. }
      pose proof (atan_pos (y / x)). lra.
  - destruct (Rlt_dec 0 y); [lra|]. destruct (Rlt_dec y 0); lra.
Qed.

(** The angle in degrees, shifted by 180, lies in [(0, 360]]. *)
Lemma degrees_range (a : R) :
  - PI < a <= PI -> 0 < a * 180 / PI + 180 <= 360.
Proof.
  intros [Hlo Hhi]. pose proof PI_RGT_0 as Hpi.
  assert (Hq : a * 180 / PI = 180 * (a / PI)) by (field; lra).
  assert (-1 < a / PI <= 1).
  { split.
    - apply (Rmult_lt_reg_r PI); [lra|]. unfold Rdiv.
      rewrite Rmult_assoc, Rinv_l by lra. lra.
    - apply (Rmult_le_reg_r PI); [lra|]. unfold Rdiv.
      rewrite Rmult_assoc, Rinv_l by lra. lra. }
  rewrite Hq. lra.
Qed.

(** The remainder of a non-negative dividend by a positive divisor. *)
Lemma Rrem_range (r s : R) :
  0 <= r -> 0 < s -> 0 <= Rrem r s < s.
Proof.
  intros Hr Hs. unfold Rrem, Ztrunc.
  assert (Hq : 0 <= r / s).
  { unfold Rdiv. assert (0 < / s) by (apply Rinv_0_lt_compat, Hs). nra. }
  destruct (Rle_dec 0 (r / s)) as [_ | Hn]; [|contradiction].
  pose proof (Zfloor_bound (r / s)) as [Hlo Hhi].
  assert (Hrs : r = s * (r / s)) by (field; lra).
  set (f := IZR (Zfloor (r / s))) in *.
  split; nra.
Qed.

Lemma Rrem_small (r s : R) : 0 <= r < s -> Rrem r s = r.
Proof.
  intros [Hr Hs]. unfold Rrem, Ztrunc.
  assert (Hq : 0 <= r / s < 1).
  { assert (0 < / s) by (apply Rinv_0_lt_compat; lra).
    split; [unfold Rdiv; nra|].
    apply (Rmult_lt_reg_r s); [lra|]. unfold Rdiv.
    rewrite Rmult_assoc, Rinv_l by lra. lra. }
  destruct (Rle_dec 0 (r / s)) as [_ | Hn]; [|lra].
  rewrite (Zfloor_eq 0 (r / s)) by (simpl; lra). lra.
Qed.

Lemma Rrem_self (s : R) : 0 < s -> Rrem s s = 0.
Proof.
  intros Hs. unfold Rrem, Ztrunc.
  replace (s / s) with 1 by (field; lra).
  destruct (Rle_dec 0 1) as [_ | Hn]; [|lra].
  rewrite (ZfloorZ 1). lra.
Qed.

Lemma rem_360 (r : R) : (Num r mod 360)%js = Num (Rrem r 360).
Proof.
  unfold rem. destruct (Req_dec_T 360 0) as [H | _]; [lra | reflexivity].
Qed.

Lemma sum_squares_nonneg (u v : R) : 0 <= u * u + v * v.
Proof. nra. Qed.

Lemma speed_num (u v : R) :
  Math_sqrt (Num u * Num u + Num v * Num v)%js = Num (sqrt (u * u + v * v)).
Proof.
  cbn. destruct (Rle_dec 0 (u * u + v * v)) as [_ | Hn]; [reflexivity|].
  exfalso. apply Hn, sum_squares_nonneg.
Qed.

Lemma direction_num (u v : R) :
  ((Math_atan2 (Num u) (Num v) * 180 / Math_PI + 180) mod 360)%js
    = Num (Rrem (atan2 u v * 180 / PI + 180) 360).
Proof.
  unfold Math_atan2, Math_PI, lift2, mul, div, add, lift2.
  destruct (Req_dec_T PI 0) as [H | _]; [exfalso; apply PI_neq0, H|].
  apply rem_360.
Qed.

Lemma windSpeed_lookup (data : Sounding) (i : nat) (u v : R) :
  u_wind data !! i = Some u ->
  v_wind data !! i = Some v ->
  windSpeed data !! i = Some (Num (sqrt (u * u + v * v))).
Proof.
  intros Hu Hv. unfold windSpeed.
  rewrite list_lookup_imap, Hu. cbn [fmap option_fmap option_map].
  rewrite (get_lookup _ _ _ Hv), speed_num. reflexivity.
Qed.

Lemma windDirection_lookup (data : Sounding) (i : nat) (u v : R) :
  u_wind data !! i = Some u ->
  v_wind data !! i = Some v ->
  windDirection data !! i
    = Some (Num (Rrem (atan2 u v * 180 / PI + 180) 360)).
Proof.
  intros Hu Hv. unfold windDirection.
  rewrite list_lookup_imap, Hu. cbn [fmap option_fmap option_map].
  rewrite (get_lookup _ _ _ Hv), direction_num. reflexivity.
Qed.

Lemma atan2_north : atan2 0 (-10) = PI.
Proof.
  unfold atan2.
  destruct (Rlt_dec 0 (-10)) as [H | _]; [lra|].
  destruct (Rlt_dec (-10) 0) as [_ | H]; [|lra].
  destruct (Rle_dec 0 0) as [_ | H]; [|lra].
  replace (0 / -10) with 0 by (field; lra). rewrite atan_0. lra.
Qed.

(** C4.  At every level whose wind components [u], [v] are (finite)
    numbers, the chart's speed is [sqrt (u * u + v * v)], which is not
    negative, and its direction is
    [(atan2(u, v) * 180 / PI + 180) mod 360], which lies in [[0, 360)].  A
    level with [u = 0], [v = -10] has speed 10 and direction 0. *)
Theorem wind_resolution :
  (forall (data : Sounding) (i : nat) (u v : R),
      u_wind data !! i = Some u ->
      v_wind data !! i = Some v ->
      exists speed dir : R,
        windSpeed data !! i = Some (Num speed) /\
        windDirection data !! i = Some (Num dir) /\
        speed = sqrt (u * u + v * v) /\
        0 <= speed /\
        dir = Rrem (atan2 u v * 180 / PI + 180) 360 /\
        0 <= dir < 360) /\
  (forall (data : Sounding) (i : nat),
      u_wind data !! i = Some 0 ->
      v_wind data !! i = Some (-10) ->
      windSpeed data !! i = Some (Num 10) /\
      windDirection data !! i = Some (Num 0)).
Proof.
  split.
  - intros data i u v Hu Hv.
    exists (sqrt (u * u + v * v)), (Rrem (atan2 u v * 180 / PI + 180) 360).
    split; [apply windSpeed_lookup; assumption|].
    split; [apply windDirection_lookup; assumption|].
    split; [reflexivity|]. split; [apply sqrt_pos|]. split; [reflexivity|].
    pose proof (degrees_range _ (atan2_range u v)).
    apply Rrem_range; lra.
  - intros data i Hu Hv.
    rewrite (windSpeed_lookup data i _ _ Hu Hv).
    rewrite (windDirection_lookup data i _ _ Hu Hv).
    split; do 2 f_equal.
    + replace (0 * 0 + -10 * -10) with (10 * 10) by lra.
      apply sqrt_square. lra.
    + rewrite atan2_north.
      replace (PI * 180 / PI + 180) with 360
        by (field; apply PI_neq0).
      apply Rrem_self. lra.
Qed.

Lemma wind_resolution_witness :
  windSpeed sample_sounding !! 0%nat = Some (Num 10) /\
  windDirection sample_sounding !! 0%nat = Some (Num 0).
Proof.
  apply (proj2 wind_resolution sample_sounding 0%nat); reflexivity.
Defined.

(** ** The levels the barb loop visits *)

Lemma barb_indices_multiples (data : Sounding) :
  barb_indices data =
    map (fun q => (q * barbInterval data)%nat)
        (seq 0 (ceil_div (length (pressure data)) (barbInterval data))).
Proof.
  unfold barb_indices. apply for_lt_multiples. unfold barbInterval. lia.
Qed.

Lemma barb_indices_spec (data : Sounding) (i : nat) :
  In i (barb_indices data) <->
  (i < length (pressure data))%nat /\ (i mod barbInterval data = 0)%nat.
Proof.
  set (N := length (pressure data)). set (k := barbInterval data).
  assert (Hpos : (1 <= k)%nat) by (unfold k, barbInterval; lia).
  rewrite barb_indices_multiples, in_map_iff. fold N k. split.
  - intros (q & <- & Hq). apply in_seq in Hq. split.
    + unfold ceil_div in Hq.
      assert (q < (N + k - 1) / k)%nat as Hlt by lia.
      pose proof (Nat.div_mod_eq (N + k - 1) k) as Hdiv.
      pose proof (Nat.mod_upper_bound (N + k - 1) k ltac:(lia)) as Hmod.
      nia.
    + apply Nat.Div0.mod_mul.
  - intros [Hi Hmod]. exists (i / k)%nat. split.
    + pose proof (Nat.div_mod_eq i k). lia.
    + apply in_seq. split; [lia|]. cbn. unfold ceil_div.
      apply Nat.Div0.div_lt_upper_bound.
      pose proof (Nat.div_mod_eq i k) as Hdi.
      pose proof (Nat.div_mod_eq (N + k - 1) k) as Hdiv.
      pose proof (Nat.mod_upper_bound (N + k - 1) k ltac:(lia)) as Hm.
      nia.
Qed.

(** In a sounding of [N] levels the chart is the speed trace followed by the
    glyphs of the selected levels, each built from the level's own speed,
    direction and pressure. *)
Lemma chart_glyphs (data : Sounding) (N : nat)
    (P : nat -> list Trace.t -> Prop) :
  levels data N ->
  (forall i u v p,
      In i (barb_indices data) ->
      u_wind data !! i = Some u ->
      v_wind data !! i = Some v ->
      pressure data !! i = Some p ->
      windSpeed data !! i = Some (Num (sqrt (u * u + v * v))) ->
      windDirection data !! i
        = Some (Num (Rrem (atan2 u v * 180 / PI + 180) 360)) ->
      P i (barb_glyph (Num (sqrt (u * u + v * v)))
                      (Num (Rrem (atan2 u v * 180 / PI + 180) 360))
                      (Num p))) ->
  exists glyphs : list (list Trace.t),
    createWindChart data = windSpeedTrace data :: concat glyphs /\
    Forall2 P (barb_indices data) glyphs.
Proof.
  intros (Hp & _ & _ & Hu & Hv) HP.
  exists (map (fun i => barb_glyph (at_index (windSpeed data) i)
                                   (at_index (windDirection data) i)
                                   (get (pressure data) i))
              (barb_indices data)).
  split.
  - unfold createWindChart, windBarbs. rewrite flat_map_concat_map.
    reflexivity.
  - apply Forall2_fmap_r, Forall_Forall2_diag, Forall_forall.
    intros i Hsel. unfold compose. apply list_elem_of_In in Hsel.
    pose proof (for_lt_fuel_below _ _ _ _ _ Hsel) as Hi.
    read_level (u_wind data) i u Hui.
    read_level (v_wind data) i v Hvi.
    read_level (pressure data) i p Hpi.
    pose proof (windSpeed_lookup data i u v Hui Hvi) as Hs.
    pose proof (windDirection_lookup data i u v Hui Hvi) as Hd.
    rewrite (at_index_lookup _ _ _ Hs), (at_index_lookup _ _ _ Hd).
    rewrite (get_lookup _ _ _ Hpi).
    apply (HP i u v p); assumption.
Qed.

(** ** C5: flags and short barbs of a glyph *)

Lemma flag_loop_shape (x1 dirRad p : number) (n : nat) :
  forall currentPos : number,
    length (flag_loop n x1 dirRad p currentPos).1 = n /\
    Forall (fun tr => Trace.style tr = Trace.Flag)
           (flag_loop n x1 dirRad p currentPos).1.
Proof.
  induction n as [|n IH]; intros currentPos; cbn [flag_loop].
  - split; [reflexivity | constructor].
  - specialize (IH (currentPos - 0.15)%js).
    destruct (flag_loop n x1 dirRad p (currentPos - 0.15)%js) as [rest pos].
    cbn [fst length] in *. destruct IH as [Hlen Hsty].
    split; [lia | constructor; [reflexivity | exact Hsty]].
Qed.

Lemma barb_loop_shape (x1 dirRad p : number) (n : nat) :
  forall currentPos : number,
    length (barb_loop n x1 dirRad p currentPos).1 = n /\
    Forall (fun tr => Trace.style tr = Trace.Barb)
           (barb_loop n x1 dirRad p currentPos).1.
Proof.
  induction n as [|n IH]; intros currentPos; cbn [barb_loop].
  - split; [reflexivity | constructor].
  - specialize (IH (currentPos - 0.1)%js).
    destruct (barb_loop n x1 dirRad p (currentPos - 0.1)%js) as [rest pos].
    cbn [fst length] in *. destruct IH as [Hlen Hsty].
    split; [lia | constructor; [reflexivity | exact Hsty]].
Qed.

(** What one turn of the barb loop pushes, for any speed and direction. *)
Lemma barb_glyph_shape (speed dir p : number) :
  exists (shaft : Trace.t) (flags barbs : list Trace.t),
    barb_glyph speed dir p = shaft :: flags ++ barbs /\
    Trace.style shaft = Trace.Shaft [toFixed speed 1; toFixed dir 0] /\
    Trace.y shaft = [p; p] /\
    length flags = iterations (numFlags speed) /\
    length barbs = iterations (numBarbs speed) /\
    Forall (fun tr => Trace.style tr = Trace.Flag) flags /\
    Forall (fun tr => Trace.style tr = Trace.Barb) barbs.
Proof.
  unfold barb_glyph.
  set (x1 := (- Math_min (speed / 5)%js 15 * _)%js).
  set (dirRad := (dir * Math_PI / 180)%js).
  pose proof (flag_loop_shape x1 dirRad p (iterations (numFlags speed)) 0.7)
    as Hflags.
  destruct (flag_loop (iterations (numFlags speed)) x1 dirRad p 0.7)
    as [flags pos].
  pose proof (barb_loop_shape x1 dirRad p (iterations (numBarbs speed)) pos)
    as Hbarbs.
  destruct (barb_loop (iterations (numBarbs speed)) x1 dirRad p pos)
    as [barbs pos'].
  cbn [fst] in *. destruct Hflags as [? ?]. destruct Hbarbs as [? ?].
  eexists _, flags, barbs. repeat split; assumption.
Qed.

Lemma Zceil_IZR (z : Z) : Zceil (IZR z) = z.
Proof. unfold Zceil. rewrite ZfloorNZ. lia. Qed.

Lemma numFlags_num (s : R) : numFlags (Num s) = Num (IZR (Zfloor (s / 50))).
Proof.
  unfold numFlags, div.
  destruct (Req_dec_T 50 0) as [H | _]; [lra | reflexivity].
Qed.

Lemma numBarbs_num (s : R) :
  numBarbs (Num s)
    = Num (IZR (Zfloor ((s - IZR (Zfloor (s / 50)) * 50) / 10))).
Proof.
  unfold numBarbs. rewrite numFlags_num. unfold mul, sub, lift2, div.
  destruct (Req_dec_T 10 0) as [H | _]; [lra | reflexivity].
Qed.

(** The decomposition of a non-negative speed into fifties and tens. *)
Lemma speed_decomposition (s : R) :
  0 <= s ->
  let nf := Zfloor (s / 50) in
  let nb := Zfloor ((s - IZR nf * 50) / 10) in
  (0 <= nf)%Z /\ (0 <= nb <= 4)%Z /\
  0 <= s - IZR nf * 50 - IZR nb * 10 < 10.
Proof.
  intros Hs nf nb.
  pose proof (Zfloor_bound (s / 50)) as Hf. fold nf in Hf.
  pose proof (Zfloor_bound ((s - IZR nf * 50) / 10)) as Hb. fold nb in Hb.
  assert (H50 : s = 50 * (s / 50)) by (field; lra).
  assert (H10 : s - IZR nf * 50 = 10 * ((s - IZR nf * 50) / 10))
    by (field; lra).
  assert (Hnf : (0 <= nf)%Z).
  { apply Zfloor_lub. simpl. lra. }
  assert (Hr : 0 <= s - IZR nf * 50 < 50) by lra.
  assert (Hnb0 : (0 <= nb)%Z).
  { apply Zfloor_lub. simpl. lra. }
  assert (Hnb4 : (nb < 5)%Z).
  { apply lt_IZR. lra. }
  repeat split; try lia; lra.
Qed.

(** C5.  In a sounding of [N] levels the wind chart is the speed trace
    followed, for each selected level in order (the levels [i < N] that are
    multiples of [max(1, floor(N / 20))]), by the glyph of that level:
    the shaft, whose hover text carries the level's speed [s] and direction,
    then exactly [numFlags = floor(s / 50)] flags, then exactly
    [numBarbs = floor((s - numFlags * 50) / 10)] short barbs, and nothing
    else.  The speed is not negative, there are at most four short barbs,
    and what is left of the speed after the flags and barbs is at least 0
    and under 10 and is not drawn.  A level of speed 65 gets one flag and
    one short barb. *)
Theorem barb_decomposition (data : Sounding) (N : nat) :
  levels data N ->
  exists glyphs : list (list Trace.t),
    createWindChart data = windSpeedTrace data :: concat glyphs /\
    (forall i, In i (barb_indices data) <->
               (i < N)%nat /\ (i mod Nat.max 1 (N / 20) = 0)%nat) /\
    Forall2
      (fun (i : nat) (glyph : list Trace.t) =>
         exists s d p : R,
           windSpeed data !! i = Some (Num s) /\
           windDirection data !! i = Some (Num d) /\
           pressure data !! i = Some p /\
           0 <= s /\
           let nf := Zfloor (s / 50) in
           let nb := Zfloor ((s - IZR nf * 50) / 10) in
           numFlags (Num s) = Num (IZR nf) /\
           numBarbs (Num s) = Num (IZR nb) /\
           (0 <= nf)%Z /\ (0 <= nb <= 4)%Z /\
           0 <= s - IZR nf * 50 - IZR nb * 10 < 10 /\
           (exists (shaft : Trace.t) (flags barbs : list Trace.t),
               glyph = shaft :: flags ++ barbs /\
               Trace.style shaft
                 = Trace.Shaft [toFixed (Num s) 1; toFixed (Num d) 0] /\
               Trace.y shaft = [Num p; Num p] /\
               length flags = Z.to_nat nf /\
               length barbs = Z.to_nat nb /\
               Forall (fun tr => Trace.style tr = Trace.Flag) flags /\
               Forall (fun tr => Trace.style tr = Trace.Barb) barbs) /\
           (s = 65 -> nf = 1%Z /\ nb = 1%Z))
      (barb_indices data) glyphs.
Proof.
  intros Hlev.
  exists (map (fun i => barb_glyph (at_index (windSpeed data) i)
                                   (at_index (windDirection data) i)
                                   (get (pressure data) i))
              (barb_indices data)).
  split; [|split].
  - unfold createWindChart, windBarbs. rewrite flat_map_concat_map.
    reflexivity.
  - intros i. rewrite barb_indices_spec. unfold barbInterval.
    destruct Hlev as [-> _]. reflexivity.
  - apply Forall2_fmap_r, Forall_Forall2_diag, Forall_forall.
    intros i Hsel. apply list_elem_of_In in Hsel.
    destruct Hlev as (Hp & _ & _ & Hu & Hv).
    pose proof (for_lt_fuel_below _ _ _ _ _ Hsel) as Hi.
    read_level (u_wind data) i u Hui.
    read_level (v_wind data) i v Hvi.
    read_level (pressure data) i p Hpi.
    pose proof (windSpeed_lookup data i u v Hui Hvi) as Hs.
    pose proof (windDirection_lookup data i u v Hui Hvi) as Hd.
    set (s := sqrt (u * u + v * v)) in *.
    assert (Hs0 : 0 <= s) by apply sqrt_pos.
    eexists s, _, p.
    split; [exact Hs|]. split; [exact Hd|]. split; [exact Hpi|].
    split; [exact Hs0|]. cbv zeta.
    destruct (speed_decomposition s Hs0) as (Hnf & Hnb & Hrem).
    split; [apply numFlags_num|]. split; [apply numBarbs_num|].
    split; [exact Hnf|]. split; [exact Hnb|]. split; [exact Hrem|]. split.
    + rewrite (at_index_lookup _ _ _ Hs), (at_index_lookup _ _ _ Hd).
      rewrite (get_lookup _ _ _ Hpi).
      destruct (barb_glyph_shape (Num s)
                  (Num (Rrem (atan2 u v * 180 / PI + 180) 360)) (Num p))
        as (shaft & flags & barbs & Hg & Hst & Hy & Hlf & Hlb & Hff & Hfb).
      exists shaft, flags, barbs.
      rewrite numFlags_num in Hlf. rewrite numBarbs_num in Hlb.
      cbn [iterations] in Hlf, Hlb. rewrite Zceil_IZR in Hlf, Hlb.
      repeat split; assumption.
    + intros H65.
      assert (Hf1 : Zfloor (s / 50) = 1%Z).
      { apply Zfloor_eq. rewrite H65. simpl. lra. }
      split; [exact Hf1|].
      rewrite Hf1. apply Zfloor_eq. rewrite H65. simpl. lra.
Qed.

Lemma sample_speed_65 : sqrt (25 * 25 + 60 * 60) = 65.
Proof.
  replace (25 * 25 + 60 * 60) with (65 * 65) by lra.
  apply sqrt_square. lra.
Qed.

Lemma barb_decomposition_witness :
  levels sample_sounding 5 /\
  exists glyphs : list (list Trace.t),
    createWindChart sample_sounding
      = windSpeedTrace sample_sounding :: concat glyphs /\
    length glyphs = 5%nat /\
    exists shaft flag barb : Trace.t,
      glyphs !! 1%nat = Some [shaft; flag; barb] /\
      Trace.style shaft
        = Trace.Shaft [toFixed (Num 65) 1;
                       toFixed (Num (Rrem (atan2 25 60 * 180 / PI + 180) 360))
                               0] /\
      Trace.style flag = Trace.Flag /\
      Trace.style barb = Trace.Barb.
Proof.
  split; [exact sample_levels|].
  destruct (barb_decomposition sample_sounding 5 sample_levels)
    as (glyphs & Hchart & _ & Hall).
  exists glyphs. split; [exact Hchart|].
  change (barb_indices sample_sounding) with [0; 1; 2; 3; 4]%nat in Hall.
  split; [symmetry; exact (Forall2_length _ _ _ Hall)|].
  apply Forall2_cons_inv_l in Hall as (g0 & rest & _ & Hall & ->).
  apply Forall2_cons_inv_l in Hall as (g1 & rest' & Hone & _ & ->).
  destruct Hone as (s & d & p & Hs & Hd & _ & _ & Hone).
  cbv zeta in Hone.
  destruct Hone as (_ & _ & _ & _ & _ & Hglyph & H65).
  assert (Hu : u_wind sample_sounding !! 1%nat = Some 25) by reflexivity.
  assert (Hv : v_wind sample_sounding !! 1%nat = Some 60) by reflexivity.
  rewrite (windSpeed_lookup sample_sounding 1 25 60 Hu Hv) in Hs.
  rewrite (windDirection_lookup sample_sounding 1 25 60 Hu Hv) in Hd.
  rewrite sample_speed_65 in Hs.
  injection Hs as <-. injection Hd as <-.
  destruct (H65 eq_refl) as [Hf1 Hb1].
  destruct Hglyph as (shaft & flags & barbs & -> & Hst & _ & Hlf & Hlb
                      & Hff & Hfb).
  rewrite Hf1 in Hlf. rewrite Hb1 in Hlb.
  destruct flags as [|flag [|? ?]]; try discriminate Hlf.
  destruct barbs as [|barb [|? ?]]; try discriminate Hlb.
  exists shaft, flag, barb. split; [reflexivity|]. split; [exact Hst|].
  split.
  - apply Forall_inv in Hff. exact Hff.
  - apply Forall_inv in Hfb. exact Hfb.
Defined.

(** ** C6: which levels get a barb *)

(** [Math.floor(length / 20)] on numbers is the integer quotient. *)
Lemma floor_length_div (N : nat) :
  Math_floor (INR N / 20)%js = Num (INR (N / 20)).
Proof.
  unfold div. destruct (Req_dec_T 20 0) as [H | _]; [lra|].
  unfold Math_floor, lift1. f_equal.
  rewrite (INR_IZR_INZ (N / 20)). f_equal.
  apply Zfloor_eq.
  pose proof (Nat.div_mod_eq N 20) as Hdiv.
  pose proof (Nat.mod_upper_bound N 20 ltac:(lia)) as Hmod.
  set (q := (N / 20)%nat) in *. set (r := (N mod 20)%nat) in *.
  assert (HN : INR N = 20 * INR q + INR r).
  { rewrite Hdiv at 1. rewrite plus_INR, mult_INR. simpl (INR 20). lra. }
  rewrite <- INR_IZR_INZ.
  assert (0 <= INR r) by apply pos_INR.
  assert (INR r < 20).
  { apply lt_INR in Hmod. simpl (INR 20) in Hmod. lra. }
  lra.
Qed.

(** [Math.max(1, Math.floor(length / 20))] on numbers is [barbInterval]. *)
Lemma barbInterval_number (data : Sounding) :
  Math_max 1 (Math_floor (INR (length (pressure data)) / 20)%js)
    = Num (INR (barbInterval data)).
Proof.
  rewrite floor_length_div. unfold barbInterval, Math_max, lift2. f_equal.
  set (q := (length (pressure data) / 20)%nat).
  destruct (Nat.le_gt_cases 1 q) as [Hq | Hq].
  - rewrite Nat.max_r by exact Hq. apply Rmax_right.
    apply le_INR in Hq. simpl (INR 1) in Hq. exact Hq.
  - replace q with O by lia. simpl. apply Rmax_left. lra.
Qed.

Lemma barb_count_bound (N : nat) :
  (ceil_div N (Nat.max 1 (N / 20)) <= 39)%nat.
Proof.
  unfold ceil_div. set (k := Nat.max 1 (N / 20)).
  assert (Hk : (1 <= k)%nat) by (unfold k; lia).
  assert (HN : (N <= 20 * k + 19)%nat).
  { pose proof (Nat.div_mod_eq N 20) as Hdiv.
    pose proof (Nat.mod_upper_bound N 20 ltac:(lia)) as Hmod.
    unfold k. lia. }
  apply Nat.lt_succ_r, Nat.Div0.div_lt_upper_bound; lia.
Qed.

Lemma barb_count_lower_bound (N : nat) :
  (20 <= N)%nat -> (20 <= ceil_div N (Nat.max 1 (N / 20)))%nat.
Proof.
  intros HN. unfold ceil_div.
  assert (Hq : (1 <= N / 20)%nat).
  { apply Nat.div_le_lower_bound; lia. }
  rewrite Nat.max_r by exact Hq.
  apply Nat.div_le_lower_bound; [lia|].
  pose proof (Nat.Div0.mul_div_le N 20). lia.
Qed.

(** One glyph holds exactly one shaft. *)
Lemma filter_is_shaft_none (traces : list Trace.t) (s : Trace.Style) :
  (forall hover, s <> Trace.Shaft hover) ->
  Forall (fun tr => Trace.style tr = s) traces ->
  List.filter is_shaft traces = [].
Proof.
  intros Hs. induction 1 as [|tr traces Htr _ IH]; [reflexivity|].
  cbn [List.filter]. unfold is_shaft at 1. rewrite Htr, IH.
  destruct s; try reflexivity. exfalso. apply (Hs hover). reflexivity.
Qed.

Lemma glyph_one_shaft (speed dir p : number) :
  length (List.filter is_shaft (barb_glyph speed dir p)) = 1%nat.
Proof.
  destruct (barb_glyph_shape speed dir p)
    as (shaft & flags & barbs & -> & Hst & _ & _ & _ & Hff & Hfb).
  cbn [List.filter]. unfold is_shaft at 1. rewrite Hst.
  rewrite List.filter_app.
  rewrite (filter_is_shaft_none flags Trace.Flag)
    by (discriminate || exact Hff).
  rewrite (filter_is_shaft_none barbs Trace.Barb)
    by (discriminate || exact Hfb).
  reflexivity.
Qed.

(** The chart draws one shaft per selected level. *)
Lemma shafts_drawn (data : Sounding) :
  length (List.filter is_shaft (createWindChart data))
    = length (barb_indices data).
Proof.
  unfold createWindChart. cbn [List.filter].
  change (is_shaft (windSpeedTrace data)) with false. cbv iota.
  unfold windBarbs.
  induction (barb_indices data) as [|i idx IH]; [reflexivity|].
  cbn [flat_map]. rewrite List.filter_app, length_app, glyph_one_shaft, IH.
  reflexivity.
Qed.

(** The bound of 20 fails: all 39 levels of a 39-level sounding are
    selected, and the chart draws 39 barbs. *)
Lemma barbs_exceed_20 :
  levels sounding39 39 /\
  barbInterval sounding39 = 1%nat /\
  barb_indices sounding39 = seq 0 39 /\
  length (List.filter is_shaft (createWindChart sounding39)) = 39%nat /\
  ~ (length (List.filter is_shaft (createWindChart sounding39)) <= 20)%nat.
Proof.
  assert (HN : length (pressure sounding39) = 39%nat) by reflexivity.
  assert (Hk : barbInterval sounding39 = 1%nat)
    by (unfold barbInterval; rewrite HN; reflexivity).
  assert (Hsel : barb_indices sounding39 = seq 0 39).
  { unfold barb_indices. rewrite Hk, HN. apply for_lt_1. }
  split; [repeat split|]. split; [exact Hk|]. split; [exact Hsel|].
  rewrite shafts_drawn, Hsel, length_seq. split; [reflexivity | lia].
Qed.

(** C6.  In a sounding of [N] levels, with [k = max(1, floor(N / 20))],
    the barb loop selects exactly the indices [0, k, 2k, ...] below [N],
    that is [ceil(N / k)] levels, and the chart draws one barb for each.
    That count is at most 39 for every [N], and at least 20 as soon as [N]
    is: 20 is not an upper bound (39 levels give 39 barbs).  Whenever
    [N < 40], and so for [N = 5], the interval is 1 and every level is
    selected. *)
Theorem barb_decimation (data : Sounding) (N : nat) :
  levels data N ->
  let k := Nat.max 1 (N / 20) in
  barbInterval data = k /\
  barb_indices data = map (fun q => (q * k)%nat) (seq 0 (ceil_div N k)) /\
  (forall i, In i (barb_indices data) <->
             (i < N)%nat /\ (i mod k = 0)%nat) /\
  length (List.filter is_shaft (createWindChart data))
    = length (barb_indices data) /\
  (length (barb_indices data) <= 39)%nat /\
  ((20 <= N)%nat -> (20 <= length (barb_indices data))%nat) /\
  ((N < 40)%nat -> k = 1%nat /\ barb_indices data = seq 0 N).
Proof.
  intros (HN & _) k.
  assert (Hk : barbInterval data = k)
    by (unfold barbInterval, k; rewrite HN; reflexivity).
  assert (Hpos : (1 <= k)%nat) by (unfold k; lia).
  assert (Hsel : barb_indices data
                 = map (fun q => (q * k)%nat) (seq 0 (ceil_div N k))).
  { rewrite barb_indices_multiples, Hk, HN. reflexivity. }
  split; [exact Hk|]. split; [exact Hsel|].
  split; [|split; [apply shafts_drawn|split; [|split]]].
  - intros i. rewrite barb_indices_spec, Hk, HN. reflexivity.
  - rewrite Hsel, length_map, length_seq. apply barb_count_bound.
  - intros H20. rewrite Hsel, length_map, length_seq.
    apply barb_count_lower_bound, H20.
  - intros H40.
    assert (Hk1 : k = 1%nat).
    { unfold k. assert (N / 20 <= 1)%nat; [|lia].
      apply Nat.lt_succ_r, Nat.Div0.div_lt_upper_bound; lia. }
    split; [exact Hk1|].
    unfold barb_indices. rewrite Hk, Hk1, HN. apply for_lt_1.
Qed.

Lemma barb_decimation_witness :
  levels sample_sounding 5 /\
  barbInterval sample_sounding = 1%nat /\
  barb_indices sample_sounding = [0; 1; 2; 3; 4]%nat /\
  length (List.filter is_shaft (createWindChart sample_sounding)) = 5%nat.
Proof.
  split; [exact sample_levels|].
  pose proof (barb_decimation sample_sounding 5 sample_levels)
    as (Hk & _ & _ & Hshafts & _ & _ & Hall).
  cbv zeta in Hall. destruct Hall as [_ Hall]; [lia|].
  split; [exact Hk|]. split; [exact Hall|].
  rewrite Hshafts, Hall. reflexivity.
Defined.

(** ** C7: the isotherm family *)

Lemma isotherm_temps_loop (lowPerf : bool) :
  for_le (-80) 40 (isothermStep lowPerf) = isotherm_temps lowPerf.
Proof. destruct lowPerf; vm_compute; reflexivity. Qed.

Lemma isotherm_pressures_loop (lowPerf : bool) :
  for_ge 1050 100 (pressureStep lowPerf) = isotherm_pressures lowPerf.
Proof. destruct lowPerf; vm_compute; reflexivity. Qed.

Lemma Num_IZR_inj (a b : Z) : Num (IZR a) = Num (IZR b) -> a = b.
Proof. intros H. injection H as H. apply eq_IZR, H. Qed.

(** In constrained mode the isotherms stop short of 100 hPa: the curve at
    -80 is one of the emitted isotherms, its lowest sample is 150 hPa, and
    100 hPa is not sampled. *)
Lemma isotherm_constrained_misses_100 :
  In (isotherm true (-80)) (isotherms true) /\
  last (Trace.y (isotherm true (-80))) = Some (Num 150) /\
  ~ In (Num 100) (Trace.y (isotherm true (-80))).
Proof.
  unfold isotherms, isotherm. cbn [Trace.y].
  rewrite isotherm_temps_loop, isotherm_pressures_loop.
  split; [left; reflexivity|]. split; [reflexivity|].
  intros Hin. apply in_map_iff in Hin as (p & Hp & Hin).
  apply (Num_IZR_inj p 100) in Hp. subst p.
  cbn in Hin. intuition discriminate.
Qed.

(** C7.  The isotherms are drawn for the nominal temperatures
    -80, ..., 40 stepped by 10 (full) or 20 (constrained).  Each is sampled
    at 1050, 1050 - step, ... while the pressure is at least 100 hPa, with
    step 50 (full) or 100 (constrained): down to 100 hPa inclusive in full
    mode, down to 150 hPa in constrained mode.  Every point is
    [(t + (1000 - p) * 0.04, p)] with [t] the nominal temperature. *)
Theorem isotherm_family (lowPerf : bool) :
  isothermStep lowPerf = (if lowPerf then 20 else 10)%Z /\
  pressureStep lowPerf = (if lowPerf then 100 else 50)%Z /\
  for_le (-80) 40 (isothermStep lowPerf) = isotherm_temps lowPerf /\
  for_ge 1050 100 (pressureStep lowPerf) = isotherm_pressures lowPerf /\
  last (isotherm_pressures lowPerf)
    = Some (if lowPerf then 150 else 100)%Z /\
  isotherms lowPerf =
    map (fun t : Z =>
           Trace.mk
             (map (fun p : Z => Num (IZR t + (1000 - IZR p) * 0.04))
                  (isotherm_pressures lowPerf))
             (map (fun p : Z => Num (IZR p)) (isotherm_pressures lowPerf))
             Trace.Isotherm [])
        (isotherm_temps lowPerf).
Proof.
  split; [reflexivity|]. split; [reflexivity|].
  split; [apply isotherm_temps_loop|].
  split; [apply isotherm_pressures_loop|].
  split; [destruct lowPerf; reflexivity|].
  unfold isotherms, isotherm.
  rewrite isotherm_temps_loop, isotherm_pressures_loop. reflexivity.
Qed.

(** ** C8: the constrained grid is never larger *)

Lemma adiabat_samples_count (lowPerf : bool) :
  length (for_ge 1050 100 (adiabatStep lowPerf))
    = if lowPerf then 48%nat else 96%nat.
Proof. destruct lowPerf; vm_compute; reflexivity. Qed.

Lemma isotherm_points (lowPerf : bool) :
  Forall (fun tr =>
            length (Trace.x tr) = (if lowPerf then 10 else 20)%nat /\
            length (Trace.y tr) = (if lowPerf then 10 else 20)%nat)
         (isotherms lowPerf).
Proof.
  unfold isotherms. apply Forall_map, Forall_forall. intros t _.
  unfold isotherm. cbn [Trace.x Trace.y].
  rewrite !length_map, isotherm_pressures_loop.
  destruct lowPerf; split; reflexivity.
Qed.

Lemma adiabat_points (lowPerf : bool) :
  Forall (fun tr =>
            length (Trace.x tr) = (if lowPerf then 48 else 96)%nat /\
            length (Trace.y tr) = (if lowPerf then 48 else 96)%nat)
         (dryAdiabats lowPerf).
Proof.
  unfold dryAdiabats. apply Forall_map, Forall_forall. intros t _.
  unfold dryAdiabat. cbn [Trace.x Trace.y].
  rewrite !length_map, adiabat_samples_count. split; reflexivity.
Qed.

(** C8.  The constrained profile draws 7 isotherms against 13 and 4 dry
    adiabats against 8, so no more curves than the full profile; every
    constrained isotherm has 10 points where every full one has 20, and
    every constrained adiabat 48 where every full one has 96, so strictly
    fewer points per curve. *)
Theorem constrained_grid_smaller :
  length (isotherms true) = 7%nat /\
  length (isotherms false) = 13%nat /\
  length (dryAdiabats true) = 4%nat /\
  length (dryAdiabats false) = 8%nat /\
  (length (isotherms true) <= length (isotherms false))%nat /\
  (length (dryAdiabats true) <= length (dryAdiabats false))%nat /\
  Forall (fun c =>
            Forall (fun f =>
                      (length (Trace.x c) < length (Trace.x f))%nat /\
                      (length (Trace.y c) < length (Trace.y f))%nat)
                   (isotherms false))
         (isotherms true) /\
  Forall (fun c =>
            Forall (fun f =>
                      (length (Trace.x c) < length (Trace.x f))%nat /\
                      (length (Trace.y c) < length (Trace.y f))%nat)
                   (dryAdiabats false))
         (dryAdiabats true).
Proof.
  assert (Hi : forall lowPerf,
             length (isotherms lowPerf) = if lowPerf then 7%nat else 13%nat).
  { intros lowPerf. unfold isotherms.
    rewrite length_map, isotherm_temps_loop. destruct lowPerf; reflexivity. }
  assert (Ha : forall lowPerf,
             length (dryAdiabats lowPerf) = if lowPerf then 4%nat else 8%nat).
  { intros lowPerf. unfold dryAdiabats.
    rewrite length_map. destruct lowPerf; reflexivity. }
  rewrite (Hi true), (Hi false), (Ha true), (Ha false).
  do 4 (split; [reflexivity|]). do 2 (split; [lia|]).
  split.
  - eapply Forall_impl; [apply (isotherm_points true)|].
    intros c [Hcx Hcy].
    eapply Forall_impl; [apply (isotherm_points false)|].
    intros f [Hfx Hfy]. cbn in *. lia.
  - eapply Forall_impl; [apply (adiabat_points true)|].
    intros c [Hcx Hcy].
    eapply Forall_impl; [apply (adiabat_points false)|].
    intros f [Hfx Hfy]. cbn in *. lia.
Qed.

(** ** C9: the skew formula inverts, up to rounding *)

Lemma unskew_skew (v p : R) :
  unskew (Num (v + (1000 - p) * 0.04)) (Num p) = Num v.
Proof. unfold unskew. cbn. f_equal. lra. Qed.

Lemma Rabs_bounds (x b : R) : Rabs x <= b -> - b <= x <= b.
Proof. unfold Rabs. destruct (Rcase_abs x); lra. Qed.

Lemma eps64_small : 0 < eps64 < 1 / 10 ^ 15.
Proof. unfold eps64. lra. Qed.

Lemma eta64_small : 0 < eta64 < 1 / 10 ^ 30.
Proof.
  unfold eta64. split; [apply powerRZ_lt; lra|].
  replace (- 1075)%Z with (- 100 + - 975)%Z by reflexivity.
  rewrite powerRZ_add by lra.
  assert (H100 : powerRZ 2 (- 100) < 1 / 10 ^ 30).
  { change (- 100)%Z with (Z.neg 100). unfold powerRZ.
    rewrite (pow_IZR 2 (Pos.to_nat 100)).
    change (2 ^ Z.of_nat (Pos.to_nat 100))%Z
      with 1267650600228229401496703205376%Z.
    lra. }
  assert (H975 : 0 < powerRZ 2 (- 975) <= 1).
  { split; [apply powerRZ_lt; lra|].
    change (- 975)%Z with (Z.neg 975). unfold powerRZ.
    rewrite <- Rinv_1. apply Rinv_le_contravar; [lra|].
    apply pow_R1_Rle. lra. }
  assert (0 < powerRZ 2 (- 100)) by (apply powerRZ_lt; lra).
  nra.
Qed.

(** [round64] is within half a unit in the last place. *)
Lemma nearest_even_error (y : R) : Rabs (IZR (nearest_even y) - y) <= 1 / 2.
Proof.
  unfold nearest_even. pose proof (Zfloor_bound y) as Hf.
  destruct (Rlt_dec (y - IZR (Zfloor y)) (1 / 2)) as [Hlow | Hlow].
  - apply Rabs_le. lra.
  - destruct (Rlt_dec (1 / 2) (y - IZR (Zfloor y))) as [Hhigh | Hhigh].
    + rewrite plus_IZR. apply Rabs_le. lra.
    + destruct (Z.even (Zfloor y)); [|rewrite plus_IZR]; apply Rabs_le; lra.
Qed.

Lemma exponent_le (x : R) : x <> 0 -> powerRZ 2 (exponent x) <= Rabs x.
Proof.
  intros Hx. assert (Hpos : 0 < Rabs x) by (apply Rabs_pos_lt, Hx).
  rewrite powerRZ_Rpower by lra. unfold Rpower, exponent.
  pose proof (Zfloor_bound (ln (Rabs x) / ln 2)) as [Hf _].
  assert (Hln2 : 0 < ln 2) by (pose proof ln_lt_2; lra).
  assert (Hle : IZR (Zfloor (ln (Rabs x) / ln 2)) * ln 2 <= ln (Rabs x)).
  { apply (Rmult_le_compat_r (ln 2)) in Hf; [|lra].
    replace (ln (Rabs x) / ln 2 * ln 2) with (ln (Rabs x)) in Hf
      by (field; lra).
    exact Hf. }
  rewrite <- (exp_ln (Rabs x)) at 2 by exact Hpos.
  destruct Hle as [Hlt | Heq].
  - left. apply exp_increasing, Hlt.
  - right. rewrite Heq. reflexivity.
Qed.

Lemma eps64_power : powerRZ 2 (- 52) / 2 = eps64.
Proof.
  unfold eps64. change (- 52)%Z with (Z.neg 52). unfold powerRZ.
  rewrite (pow_IZR 2 (Pos.to_nat 52)).
  change (2 ^ Z.of_nat (Pos.to_nat 52))%Z with 4503599627370496%Z.
  field.
Qed.

Lemma eta64_power : powerRZ 2 (- 1074) / 2 = eta64.
Proof.
  unfold eta64. replace (- 1075)%Z with (- 1074 + - 1)%Z by reflexivity.
  rewrite powerRZ_add by lra.
  change (powerRZ 2 (- 1)) with (/ (2 * 1)). field.
Qed.

Lemma round64_error (x : R) :
  Rabs (round64 x - x) <= eps64 * Rabs x + eta64.
Proof.
  pose proof eps64_small as Heps. pose proof eta64_small as Heta.
  unfold round64. destruct (Req_dec_T x 0) as [-> | Hx].
  - rewrite Rminus_diag, Rabs_R0. lra.
  - cbv zeta. set (e := Z.max (exponent x - 52) (- 1074)).
    assert (Hscale : powerRZ 2 (- e) * powerRZ 2 e = 1).
    { rewrite <- powerRZ_add by lra.
      replace (- e + e)%Z with 0%Z by lia. reflexivity. }
    assert (Hpos : 0 < powerRZ 2 e) by (apply powerRZ_lt; lra).
    set (y := x * powerRZ 2 (- e)).
    replace (IZR (nearest_even y) * powerRZ 2 e - x)
      with ((IZR (nearest_even y) - y) * powerRZ 2 e)
      by (unfold y; nra).
    rewrite Rabs_mult, (Rabs_pos_eq (powerRZ 2 e)) by lra.
    pose proof (nearest_even_error y) as Hn.
    assert (Hab : 0 <= Rabs (IZR (nearest_even y) - y)) by apply Rabs_pos.
    assert (Hhalf : Rabs (IZR (nearest_even y) - y) * powerRZ 2 e
                    <= powerRZ 2 e / 2) by nra.
    pose proof (Rabs_pos x) as Hxpos.
    assert (Hex : 0 <= eps64 * Rabs x) by (apply Rmult_le_pos; lra).
    destruct (Z.max_spec (exponent x - 52) (- 1074)) as [[_ He] | [_ He]];
      fold e in He; rewrite He in Hhalf |- *.
    + rewrite eta64_power in Hhalf. lra.
    + pose proof (exponent_le x Hx) as Hmag.
      replace (exponent x - 52)%Z with (exponent x + - 52)%Z
        in Hhalf |- * by lia.
      rewrite powerRZ_add in Hhalf |- * by lra.
      pose proof eps64_power as Hp.
      assert (H52 : 0 < powerRZ 2 (- 52)) by (apply powerRZ_lt; lra).
      assert (Hle : powerRZ 2 (exponent x) * powerRZ 2 (- 52) / 2
                    <= eps64 * Rabs x).
      { rewrite <- Hp. nra. }
      lra.
Qed.

(** The arithmetic of the error bound, on magnitudes. *)
Lemma product_bound (E H A RA RC : R) :
  0 <= E <= 1 / 1000 -> 0 <= H <= 1 / 1000 -> 0 <= A <= 1001000 ->
  0 <= RA <= (1 + E) * A + H ->
  0 <= RC <= (1 + E) * 0.04 + H ->
  RA * RC <= (1 + 3 / 1000) * (0.04 * A) + 1100000 * H.
Proof.
  intros HE HH HA HRA HRC.
  assert (H1 : RA * RC <= ((1 + E) * A + H) * ((1 + E) * 0.04 + H)).
  { apply Rmult_le_compat; lra. }
  assert (HEA : 0 <= E * A <= A / 1000).
  { split; [apply Rmult_le_pos; lra|].
    replace (A / 1000) with (1 / 1000 * A) by lra.
    apply Rmult_le_compat_r; lra. }
  assert (HEEA : 0 <= E * (E * A) <= A / 1000000).
  { split; [apply Rmult_le_pos; lra|].
    replace (A / 1000000) with (1 / 1000 * (A / 1000)) by lra.
    apply Rmult_le_compat; lra. }
  assert (HAH : 0 <= A * H <= 1001000 * H).
  { split; [apply Rmult_le_pos; lra|]. apply Rmult_le_compat_r; lra. }
  assert (HEAH : 0 <= E * (A * H) <= 1001 * H).
  { split; [apply Rmult_le_pos; lra|].
    replace (1001 * H) with (1 / 1000 * (1001000 * H)) by lra.
    apply Rmult_le_compat; lra. }
  assert (HEH : 0 <= E * H <= H / 1000).
  { split; [apply Rmult_le_pos; lra|].
    replace (H / 1000) with (1 / 1000 * H) by lra.
    apply Rmult_le_compat_r; lra. }
  assert (HHH : 0 <= H * H <= H / 1000).
  { split; [apply Rmult_le_pos; lra|].
    replace (H / 1000) with (1 / 1000 * H) by lra.
    apply Rmult_le_compat_r; lra. }
  replace (((1 + E) * A + H) * ((1 + E) * 0.04 + H))
    with (0.04 * A + 2 * (0.04 * (E * A)) + 0.04 * (E * (E * A))
          + A * H + E * (A * H) + 0.04 * H + 0.04 * (E * H) + H * H)
    in H1 by ring.
  lra.
Qed.

Lemma rounded_product_bound (E H A Q M : R) :
  0 <= E <= 1 / 1000 -> 0 <= H <= 1 / 1000 -> 0 <= A <= 1001000 ->
  0 <= Q <= (1 + 3 / 1000) * (0.04 * A) + 1100000 * H ->
  0 <= M <= (1 + E) * Q + H ->
  M <= (1 + 5 / 1000) * (0.04 * A) + 1200000 * H /\ M <= 6 * 10 ^ 4.
Proof.
  intros HE HH HA HQ HM.
  assert (HEQ : 0 <= E * Q <= Q / 1000).
  { split; [apply Rmult_le_pos; lra|].
    replace (Q / 1000) with (1 / 1000 * Q) by lra.
    apply Rmult_le_compat_r; lra. }
  split; lra.
Qed.

Lemma round_trip_algebra (E H T S M A D X R : R) :
  0 <= E <= 1 / 1000 -> 0 <= H ->
  0 <= T -> 0 <= S ->
  0 <= M <= (1 + 5 / 1000) * S + 1200000 * H ->
  0 <= A <= T + M ->
  0 <= X <= E * A + H ->
  0 <= D <= T + X ->
  0 <= R <= E * D + H ->
  E * 1300000 <= 1 / 2 ->
  R + X <= E * (3 * T + 2 * S) + 3 * H.
Proof.
  intros HE HH HT HS HM HA HX HD HR Hbig.
  assert (HEA : E * A <= E * T + E * M).
  { rewrite <- Rmult_plus_distr_l. apply Rmult_le_compat_l; lra. }
  assert (HEM : E * M <= (1 + 5 / 1000) * (E * S) + (E * 1200000) * H).
  { replace ((1 + 5 / 1000) * (E * S) + E * 1200000 * H)
      with (E * ((1 + 5 / 1000) * S + 1200000 * H)) by ring.
    apply Rmult_le_compat_l; lra. }
  assert (HEH : (E * 1200000) * H <= 1 / 2 * H).
  { apply Rmult_le_compat_r; lra. }
  assert (HET : 0 <= E * T) by (apply Rmult_le_pos; lra).
  assert (HES : 0 <= E * S) by (apply Rmult_le_pos; lra).
  assert (HEX : E * X <= X / 1000).
  { replace (X / 1000) with (1 / 1000 * X) by lra.
    apply Rmult_le_compat_r; lra. }
  assert (HED : E * D <= E * T + E * X).
  { rewrite <- Rmult_plus_distr_l. apply Rmult_le_compat_l; lra. }
  lra.
Qed.

Lemma eps64_bounds : 0 <= eps64 <= 1 / 1000 /\ eps64 * 1300000 <= 1 / 2.
Proof. unfold eps64. lra. Qed.

Lemma eta64_bounds : 0 <= eta64 <= 1 / 1000.
Proof. pose proof eta64_small. lra. Qed.

Section RoundTrip.

Variable rnd : R -> R.
Hypothesis rnd_error :
  forall x, Rabs x <= 10 ^ 9 -> Rabs (rnd x - x) <= eps64 * Rabs x + eta64.

Lemma rnd_magnitude (x : R) :
  Rabs x <= 10 ^ 9 -> Rabs (rnd x) <= (1 + eps64) * Rabs x + eta64.
Proof.
  intros Hx. replace (rnd x) with ((rnd x - x) + x) at 1 by lra.
  pose proof (Rabs_triang (rnd x - x) x). pose proof (rnd_error x Hx). lra.
Qed.

(** The computed shift, for a pressure of magnitude up to [10^6]: it is in
    range and close to the exact one. *)
Lemma shift_magnitude (p : R) :
  Rabs p <= 10 ^ 6 ->
  let m := rnd (rnd (1000 - p) * rnd 0.04) in
  Rabs m <= 6 * 10 ^ 4 /\
  Rabs m <= (1 + 5 / 1000) * Rabs ((1000 - p) * 0.04) + 1200000 * eta64.
Proof.
  intros Hp m.
  destruct eps64_bounds as [HE _]. pose proof eta64_bounds as HH.
  apply Rabs_bounds in Hp.
  assert (HA : 0 <= Rabs (1000 - p) <= 1001000).
  { split; [apply Rabs_pos | apply Rabs_le; lra]. }
  assert (Hc : Rabs 0.04 = 0.04) by (apply Rabs_pos_eq; lra).
  pose proof (rnd_magnitude (1000 - p) ltac:(lra)) as Hra.
  pose proof (rnd_magnitude 0.04 ltac:(rewrite Hc; lra)) as Hrc.
  rewrite Hc in Hrc.
  pose proof (product_bound eps64 eta64 (Rabs (1000 - p))
                (Rabs (rnd (1000 - p))) (Rabs (rnd 0.04)) HE HH HA
                (conj (Rabs_pos _) Hra) (conj (Rabs_pos _) Hrc)) as Hq.
  rewrite <- Rabs_mult in Hq.
  assert (Hq9 : Rabs (rnd (1000 - p) * rnd 0.04) <= 10 ^ 9) by lra.
  pose proof (rnd_magnitude _ Hq9) as Hm. fold m in Hm.
  rewrite Rabs_mult, Hc, (Rmult_comm _ 0.04).
  destruct (rounded_product_bound eps64 eta64 (Rabs (1000 - p))
              (Rabs (rnd (1000 - p) * rnd 0.04)) (Rabs m)
              HE HH HA (conj (Rabs_pos _) Hq) (conj (Rabs_pos _) Hm))
    as [Hclose Hrange].
  split; [exact Hrange | exact Hclose].
Qed.

(** Forth and back with the same computed shift: only the last addition
    and the last subtraction contribute. *)
Lemma round_trip_error (t p : R) :
  Rabs t <= 10 ^ 6 -> Rabs p <= 10 ^ 6 ->
  let m := rnd (rnd (1000 - p) * rnd 0.04) in
  Rabs (rnd (rnd (t + m) - m) - t)
    <= eps64 * (3 * Rabs t + 2 * Rabs ((1000 - p) * 0.04)) + 3 * eta64.
Proof.
  intros Ht Hp m.
  destruct eps64_bounds as [HE Hbig]. pose proof eta64_bounds as HH.
  destruct (shift_magnitude p Hp) as [Hm Hms]. fold m in Hm, Hms.
  pose proof (Rabs_triang t m) as Htm.
  pose proof (Rabs_pos t) as Ht0.
  assert (HH0 : 0 <= eta64) by lra.
  pose proof (rnd_error (t + m) ltac:(lra)) as Hx.
  set (x := rnd (t + m)) in *.
  assert (Hxm : Rabs (x - m) <= Rabs t + Rabs (x - (t + m))).
  { replace (x - m) with (t + (x - (t + m))) by lra. apply Rabs_triang. }
  assert (HEA : eps64 * Rabs (t + m) <= Rabs (t + m) / 1000).
  { replace (Rabs (t + m) / 1000) with (1 / 1000 * Rabs (t + m)) by lra.
    apply Rmult_le_compat_r; [apply Rabs_pos | lra]. }
  pose proof (rnd_error (x - m) ltac:(lra)) as Hr.
  assert (Hsum : Rabs (rnd (x - m) - t)
                 <= Rabs (rnd (x - m) - (x - m)) + Rabs (x - (t + m))).
  { replace (rnd (x - m) - t)
      with ((rnd (x - m) - (x - m)) + (x - (t + m))) by lra.
    apply Rabs_triang. }
  eapply Rle_trans; [exact Hsum|].
  apply (round_trip_algebra eps64 eta64 (Rabs t)
           (Rabs ((1000 - p) * 0.04)) (Rabs m) (Rabs (t + m))
           (Rabs (x - m)) (Rabs (x - (t + m)))
           (Rabs (rnd (x - m) - (x - m))));
    try assumption;
    try (split; [apply Rabs_pos | assumption]);
    try apply Rabs_pos.
Qed.

End RoundTrip.

Lemma fl_exact (rnd : R -> R) (a : number) :
  (forall x, rnd x = x) -> fl rnd a = a.
Proof. intros Hid. destruct a as [r|]; cbn; [rewrite Hid|]; reflexivity. Qed.

Lemma tempX_fl_lookup (rnd : R -> R) (data : Sounding) (i : nat) (t p : R) :
  temperature data !! i = Some t ->
  pressure data !! i = Some p ->
  tempX_fl rnd data !! i = Some (skew_fl rnd (Num t) (Num p)).
Proof.
  intros Ht Hp. unfold tempX_fl.
  rewrite list_lookup_imap, Ht. cbn [fmap option_fmap option_map].
  rewrite (get_lookup _ _ _ Hp). reflexivity.
Qed.

Lemma dewpointX_fl_lookup (rnd : R -> R) (data : Sounding) (i : nat)
    (td p : R) :
  dewpoint data !! i = Some td ->
  pressure data !! i = Some p ->
  dewpointX_fl rnd data !! i = Some (skew_fl rnd (Num td) (Num p)).
Proof.
  intros Ht Hp. unfold dewpointX_fl.
  rewrite list_lookup_imap, Ht. cbn [fmap option_fmap option_map].
  rewrite (get_lookup _ _ _ Hp). reflexivity.
Qed.

(** With nothing rounded the expressions are those of the exact model. *)
Lemma skew_fl_exact (rnd : R -> R) (t p : number) :
  (forall x, rnd x = x) ->
  skew_fl rnd t p = (t + (1000 - p) * skewFactor)%js.
Proof.
  intros Hid. unfold skew_fl, shift_fl. rewrite !fl_exact by exact Hid.
  reflexivity.
Qed.

Lemma tempX_fl_exact (rnd : R -> R) (data : Sounding) :
  (forall x, rnd x = x) ->
  tempX_fl rnd data = tempX data /\ dewpointX_fl rnd data = dewpointX data.
Proof.
  intros Hid. unfold tempX_fl, dewpointX_fl, tempX, dewpointX.
  split; apply imap_ext; intros j t _; apply skew_fl_exact, Hid.
Qed.

(** C9.  Let every operation round its exact result [x], when
    [|x| <= 10^9], to within [2^-53 |x| + 2^-1075], as binary64 arithmetic
    does.  For every level [i] of a sounding of [N] levels the plotted
    abscissa [x] of the temperature is a number, and the inverse formula
    [x - (1000 - p) * skewFactor], computed the same way, gives a number
    [t'].  When the temperature and the pressure are at most [10^6] in
    magnitude,
    [|t' - temperature[i]| <= 2^-53 * (3 |temperature[i]| +
    2 |(1000 - p) * 0.04|) + 3 * 2^-1075]; for temperatures within 100
    degrees of zero and pressures from 0 to 1100 hPa that is less than
    [10^-13].  The same holds on the dewpoint.  If nothing is rounded the
    abscissas are those of the exact model and the value comes back
    exactly. *)
Theorem skew_round_trip (rnd : R -> R) (data : Sounding) (N i : nat) :
  (forall x, Rabs x <= 10 ^ 9 ->
             Rabs (rnd x - x) <= eps64 * Rabs x + eta64) ->
  levels data N ->
  (i < N)%nat ->
  exists t td p x xd t' td' : R,
    temperature data !! i = Some t /\
    dewpoint data !! i = Some td /\
    pressure data !! i = Some p /\
    tempX_fl rnd data !! i = Some (Num x) /\
    dewpointX_fl rnd data !! i = Some (Num xd) /\
    unskew_fl rnd (Num x) (Num p) = Num t' /\
    unskew_fl rnd (Num xd) (Num p) = Num td' /\
    (Rabs p <= 10 ^ 6 ->
     (Rabs t <= 10 ^ 6 ->
      Rabs (t' - t)
        <= eps64 * (3 * Rabs t + 2 * Rabs ((1000 - p) * 0.04))
           + 3 * eta64) /\
     (Rabs td <= 10 ^ 6 ->
      Rabs (td' - td)
        <= eps64 * (3 * Rabs td + 2 * Rabs ((1000 - p) * 0.04))
           + 3 * eta64)) /\
    (0 <= p <= 1100 ->
     (Rabs t <= 100 -> Rabs (t' - t) < 1 / 10 ^ 13) /\
     (Rabs td <= 100 -> Rabs (td' - td) < 1 / 10 ^ 13)) /\
    ((forall y, rnd y = y) ->
     tempX_fl rnd data = tempX data /\
     dewpointX_fl rnd data = dewpointX data /\
     t' = t /\ td' = td).
Proof.
  intros Hrnd (Hp & Ht & Hd & _ & _) Hi.
  read_level (temperature data) i t Hti.
  read_level (dewpoint data) i td Hdi.
  read_level (pressure data) i p Hpi.
  set (m := rnd (rnd (1000 - p) * rnd 0.04)).
  exists t, td, p, (rnd (t + m)), (rnd (td + m)),
         (rnd (rnd (t + m) - m)), (rnd (rnd (td + m) - m)).
  split; [exact Hti|]. split; [exact Hdi|]. split; [exact Hpi|].
  split; [rewrite (tempX_fl_lookup rnd data i t p Hti Hpi); reflexivity|].
  split; [rewrite (dewpointX_fl_lookup rnd data i td p Hdi Hpi);
          reflexivity|].
  split; [reflexivity|]. split; [reflexivity|].
  split; [|split].
  - intros Hpr. split; intros Htr.
    + exact (round_trip_error rnd Hrnd t p Htr Hpr).
    + exact (round_trip_error rnd Hrnd td p Htr Hpr).
  - intros Hrange.
    assert (Hpr : Rabs p <= 10 ^ 6) by (apply Rabs_le; lra).
    assert (Hs : Rabs ((1000 - p) * 0.04) <= 40) by (apply Rabs_le; lra).
    pose proof eta64_small as Heta.
    destruct eps64_bounds as [HE _].
    assert (Hnum : eps64 * 380 < 5 / 10 ^ 14) by (unfold eps64; lra).
    split; intros Hmag.
    + pose proof (round_trip_error rnd Hrnd t p ltac:(lra) Hpr) as Herr.
      cbv zeta in Herr. fold m in Herr.
      assert (Hlin : eps64 * (3 * Rabs t + 2 * Rabs ((1000 - p) * 0.04))
                     <= eps64 * 380)
        by (apply Rmult_le_compat_l; lra).
      lra.
    + pose proof (round_trip_error rnd Hrnd td p ltac:(lra) Hpr) as Herr.
      cbv zeta in Herr. fold m in Herr.
      assert (Hlin : eps64 * (3 * Rabs td + 2 * Rabs ((1000 - p) * 0.04))
                     <= eps64 * 380)
        by (apply Rmult_le_compat_l; lra).
      lra.
  - intros Hid.
    destruct (tempX_fl_exact rnd data Hid) as [HX HXd].
    split; [exact HX|]. split; [exact HXd|].
    unfold m. rewrite !Hid. split; lra.
Qed.

Lemma skew_round_trip_witness :
  (forall x, Rabs x <= 10 ^ 9 ->
             Rabs (round64 x - x) <= eps64 * Rabs x + eta64) /\
  levels sample_sounding 5 /\
  exists x t' : R,
    tempX_fl round64 sample_sounding !! 1%nat = Some (Num x) /\
    unskew_fl round64 (Num x) (Num 850) = Num t' /\
    Rabs (t' - 5) < 1 / 10 ^ 13.
Proof.
  assert (Hrnd : forall x, Rabs x <= 10 ^ 9 ->
                           Rabs (round64 x - x) <= eps64 * Rabs x + eta64)
    by (intros x _; apply round64_error).
  split; [exact Hrnd|]. split; [exact sample_levels|].
  destruct (skew_round_trip round64 sample_sounding 5 1 Hrnd
              sample_levels ltac:(lia))
    as (t & td & p & x & xd & t' & td' & Ht & _ & Hp & Hx & _ & Hback & _
        & _ & Hsmall & _).
  injection Ht as <-. injection Hp as <-.
  exists x, t'. split; [exact Hx|]. split; [exact Hback|].
  apply Hsmall; [lra | apply Rabs_le; lra].
Defined.

(** ** C10: the table and the wind chart agree *)

Lemma table_row_wind (data : Sounding) (i : nat) (u v : R) :
  u_wind data !! i = Some u ->
  v_wind data !! i = Some v ->
  table_row data i =
    [toFixed (get (pressure data) i) 1;
     toFixed (get (temperature data) i) 1;
     toFixed (get (dewpoint data) i) 1;
     toFixed (Num (sqrt (u * u + v * v))) 1;
     toFixed (Num (Rrem (atan2 u v * 180 / PI + 180) 360)) 0].
Proof.
  intros Hu Hv. unfold table_row.
  rewrite (get_lookup _ _ _ Hu), (get_lookup _ _ _ Hv).
  rewrite speed_num, direction_num. reflexivity.
Qed.

Lemma createDataTable_lookup (data : Sounding) (i : nat) :
  (i < length (pressure data))%nat ->
  createDataTable data !! i = Some (table_row data i).
Proof.
  intros Hi. unfold createDataTable.
  rewrite for_lt_1, list_lookup_fmap, lookup_seq_lt by exact Hi.
  reflexivity.
Qed.

(** C10.  For every level [i] of a sounding of [N] levels, the speed and
    direction cells of row [i] of the data table are the formatted values of
    [windSpeed[i]] and [windDirection[i]] of the wind chart (to one and to
    zero digits), and when level [i] carries a barb its hover text is made
    from the same two formatted values. *)
Theorem table_matches_chart (data : Sounding) (N i : nat) :
  levels data N ->
  (i < N)%nat ->
  exists (speed dir : number) (row : list Formatted),
    windSpeed data !! i = Some speed /\
    windDirection data !! i = Some dir /\
    createDataTable data !! i = Some row /\
    row !! 3%nat = Some (toFixed speed 1) /\
    row !! 4%nat = Some (toFixed dir 0) /\
    length row = 5%nat /\
    (In i (barb_indices data) ->
     exists shaft : Trace.t,
       In shaft (createWindChart data) /\
       Trace.style shaft = Trace.Shaft [toFixed speed 1; toFixed dir 0]).
Proof.
  intros (Hp & _ & _ & Hu & Hv) Hi.
  read_level (u_wind data) i u Hui.
  read_level (v_wind data) i v Hvi.
  pose proof (windSpeed_lookup data i u v Hui Hvi) as Hs.
  pose proof (windDirection_lookup data i u v Hui Hvi) as Hd.
  eexists _, _, _. split; [exact Hs|]. split; [exact Hd|].
  split; [rewrite createDataTable_lookup by lia;
          rewrite (table_row_wind data i u v Hui Hvi); reflexivity|].
  split; [reflexivity|]. split; [reflexivity|]. split; [reflexivity|].
  intros Hsel.
  destruct (barb_glyph_shape (at_index (windSpeed data) i)
                             (at_index (windDirection data) i)
                             (get (pressure data) i))
    as (shaft & flags & barbs & Hg & Hst & _).
  exists shaft. split.
  - unfold createWindChart, windBarbs. right.
    apply in_flat_map. exists i. split; [exact Hsel|].
    rewrite Hg. left. reflexivity.
  - rewrite Hst.
    rewrite (at_index_lookup _ _ _ Hs), (at_index_lookup _ _ _ Hd).
    reflexivity.
Qed.

Lemma table_matches_chart_witness :
  exists (speed dir : number) (row : list Formatted),
    windSpeed sample_sounding !! 1%nat = Some speed /\
    windDirection sample_sounding !! 1%nat = Some dir /\
    createDataTable sample_sounding !! 1%nat = Some row /\
    row !! 3%nat = Some (toFixed speed 1) /\
    row !! 4%nat = Some (toFixed dir 0).
Proof.
  destruct (table_matches_chart sample_sounding 5 1 sample_levels)
    as (speed & dir & row & Hs & Hd & Hr & H3 & H4 & _); [lia|].
  exists speed, dir, row. repeat split; assumption.
Defined.

(** ** The concrete cases on IEEE doubles *)

(** [u = 0], [v = -10]: the speed is 10; [Math.atan2(0, -10)] is [Math.PI],
    whose shifted angle is exactly 360, of remainder 0. *)
Example binary64_north :
  Binary64.speed 0 (-10) = 10%float /\
  Binary64.shifted_degrees Binary64.PI = 360%float.
Proof. split; reflexivity. Qed.

(** The lowest angle [- Math.PI] is shifted to exactly 0, not below. *)
Example binary64_lowest_angle :
  Binary64.shifted_degrees (- Binary64.PI)%float = 0%float.
Proof. reflexivity. Qed.

(** Speed 65: the quotients are 1.3 and 1.5, of floor 1 and 1. *)
Example binary64_speed_65 :
  Binary64.flags_quotient 65 = 1.3%float /\
  Binary64.barbs_quotient 65 1 = 1.5%float.
Proof. split; reflexivity. Qed.

(** On doubles the round trip is exact for some levels and only close for
    others: 5 degrees at 850 hPa comes back as 5, while 0.1 degrees at
    850 hPa comes back within 1e-15 of 0.1 but not equal to it. *)
Example binary64_round_trip :
  Binary64.unskew (Binary64.skew 5 850) 850 = 5%float /\
  Binary64.unskew (Binary64.skew 0.1 850) 850 <> 0.1%float /\
  (PrimFloat.abs (Binary64.unskew (Binary64.skew 0.1 850) 850 - 0.1)
     <? 1e-15)%float = true.
Proof.
  split; [reflexivity|]. split; [vm_compute; discriminate | reflexivity].
Qed.

(** On doubles, every temperature from -100 to 100 degrees in tenths comes
    back within 1e-14 at every pressure from 25 to 1100 hPa in steps
    of 25, and not every one within 1e-15. *)
Example binary64_round_trip_sweep :
  sweep_within 1e-14 = true /\ sweep_within 1e-15 = false.
Proof. split; vm_compute; reflexivity. Qed.

(** * Further properties of the diagram script *)

(** ** Speed and direction give the components back *)

Lemma sin_minus_PI (a : R) : sin (a - PI) = - sin a.
Proof. rewrite sin_minus, cos_PI, sin_PI. lra. Qed.

Lemma cos_minus_PI (a : R) : cos (a - PI) = - cos a.
Proof. rewrite cos_minus, cos_PI, sin_PI. lra. Qed.

Lemma sqrt_one_plus_ratio (y x : R) :
  x <> 0 -> sqrt (1 + (y / x)²) = sqrt (x * x + y * y) / Rabs x.
Proof.
  intros Hx.
  assert (Habs : 0 < Rabs x) by (apply Rabs_pos_lt, Hx).
  replace (1 + (y / x)²) with ((x * x + y * y) / (Rabs x * Rabs x)).
  - rewrite sqrt_div_alt by nra.
    rewrite sqrt_square by lra. reflexivity.
  - unfold Rsqr. replace (Rabs x * Rabs x) with (x * x).
    + field. exact Hx.
    + unfold Rabs. destruct (Rcase_abs x); lra.
Qed.

Lemma hypot_pos (y x : R) : x <> 0 -> 0 < sqrt (x * x + y * y).
Proof. intros Hx. apply sqrt_lt_R0. nra. Qed.

(** [Math.atan2(y, x)] is the angle of the point [(x, y)]. *)
Lemma atan2_polar (y x : R) :
  sqrt (x * x + y * y) * sin (atan2 y x) = y /\
  sqrt (x * x + y * y) * cos (atan2 y x) = x.
Proof.
  unfold atan2.
  destruct (Rlt_dec 0 x) as [Hx | Hx].
  { pose proof (hypot_pos y x ltac:(lra)) as Hr.
    rewrite sin_atan, cos_atan, sqrt_one_plus_ratio by lra.
    rewrite Rabs_right by lra. split; field; lra. }
  destruct (Rlt_dec x 0) as [Hx' | Hx'].
  - pose proof (hypot_pos y x ltac:(lra)) as Hr.
    destruct (Rle_dec 0 y) as [Hy | Hy].
    + rewrite neg_sin, neg_cos, sin_atan, cos_atan,
        sqrt_one_plus_ratio by lra.
      rewrite Rabs_left by lra. split; field; lra.
    + rewrite sin_minus_PI, cos_minus_PI, sin_atan, cos_atan,
        sqrt_one_plus_ratio by lra.
      rewrite Rabs_left by lra. split; field; lra.
  - assert (x = 0) by lra. subst x.
    replace (0 * 0 + y * y) with (y * y) by lra.
    destruct (Rlt_dec 0 y) as [Hy | Hy].
    + rewrite sin_PI2, cos_PI2, sqrt_square by lra. lra.
    + destruct (Rlt_dec y 0) as [Hy' | Hy'].
      * rewrite sin_neg, cos_neg, sin_PI2, cos_PI2.
        replace (y * y) with ((- y) * (- y)) by lra.
        rewrite sqrt_square by lra. lra.
      * assert (y = 0) by lra. subst y.
        rewrite Rmult_0_l, sqrt_0. lra.
Qed.

(** The direction in radians is the angle of [atan2] turned by half a
    circle. *)
Lemma direction_radians (a : R) :
  - PI < a <= PI ->
  sin (Rrem (a * 180 / PI + 180) 360 * PI / 180) = - sin a /\
  cos (Rrem (a * 180 / PI + 180) 360 * PI / 180) = - cos a.
Proof.
  intros Ha. pose proof PI_RGT_0 as Hpi.
  pose proof (degrees_range a Ha) as [Hlo Hhi].
  destruct (Req_dec_T a PI) as [-> | Hne].
  - replace (PI * 180 / PI + 180) with 360 by (field; lra).
    rewrite Rrem_self by lra.
    replace (0 * PI / 180) with 0 by lra.
    rewrite sin_0, cos_0, sin_PI, cos_PI. lra.
  - assert (a * 180 / PI + 180 < 360).
    { destruct Hhi as [Hlt | Heq]; [exact Hlt|]. exfalso. apply Hne.
      assert (Hq : a * 180 / PI = 180) by lra.
      apply (f_equal (fun z => z * PI / 180)) in Hq.
      replace (a * 180 / PI * PI / 180) with a in Hq by (field; lra).
      lra. }
    rewrite Rrem_small by lra.
    replace ((a * 180 / PI + 180) * PI / 180) with (a + PI) by (field; lra).
    rewrite neg_sin, neg_cos. lra.
Qed.

(** Polar round trip.  In exact arithmetic, at every level with components
    [u], [v] the chart's speed [s] and direction [d] (in degrees) satisfy
    [u = - s * sin d] and [v = - s * cos d]: the direction is the one the
    wind comes from. *)
Theorem wind_components_recovered
    (data : Sounding) (i : nat) (u v : R) :
  u_wind data !! i = Some u ->
  v_wind data !! i = Some v ->
  exists s d : R,
    windSpeed data !! i = Some (Num s) /\
    windDirection data !! i = Some (Num d) /\
    - s * sin (d * PI / 180) = u /\
    - s * cos (d * PI / 180) = v.
Proof.
  intros Hu Hv.
  exists (sqrt (u * u + v * v)), (Rrem (atan2 u v * 180 / PI + 180) 360).
  split; [apply windSpeed_lookup; assumption|].
  split; [apply windDirection_lookup; assumption|].
  destruct (direction_radians _ (atan2_range u v)) as [-> ->].
  destruct (atan2_polar u v) as [Hs Hc].
  replace (u * u + v * v) with (v * v + u * u) by lra.
  split; lra.
Qed.

Lemma wind_components_recovered_witness :
  exists s d : R,
    windSpeed sample_sounding !! 1%nat = Some (Num s) /\
    windDirection sample_sounding !! 1%nat = Some (Num d) /\
    - s * sin (d * PI / 180) = 25 /\
    - s * cos (d * PI / 180) = 60.
Proof.
  apply (wind_components_recovered sample_sounding 1 25 60); reflexivity.
Defined.

(** ** The shaft of a barb *)

Lemma barb_glyph_unfold (speed dir p : number) :
  let dirRad := (dir * Math_PI / 180)%js in
  let x1 := (- Math_min (speed / 5)%js 15 * Math_sin dirRad)%js in
  let fl := flag_loop (iterations (numFlags speed)) x1 dirRad p 0.7 in
  barb_glyph speed dir p =
    Trace.mk [Num 0; x1] [p; p]
             (Trace.Shaft [toFixed speed 1; toFixed dir 0]) []
    :: fl.1 ++ (barb_loop (iterations (numBarbs speed)) x1 dirRad p fl.2).1.
Proof.
  intros dirRad x1 fl. unfold barb_glyph. fold dirRad. fold x1. fold fl.
  destruct fl as [flags pos]. cbn [fst snd].
  destruct (barb_loop _ x1 dirRad p pos) as [barbs pos']. reflexivity.
Qed.

Lemma dirRad_num (d : R) : (Num d * Math_PI / 180)%js = Num (d * PI / 180).
Proof.
  unfold Math_PI, mul, lift2, div.
  destruct (Req_dec_T 180 0) as [H | _]; [lra | reflexivity].
Qed.

Lemma shaft_tip_num (s d : R) :
  (- Math_min (Num s / 5)%js 15 * Math_sin (Num (d * PI / 180)))%js
    = Num (- Rmin (s / 5) 15 * sin (d * PI / 180)).
Proof.
  unfold div. destruct (Req_dec_T 5 0) as [H | _]; [lra | reflexivity].
Qed.

(** Where the shaft of a selected level ends.  In a sounding of [N]
    levels, with [s] the speed and [u] the eastward component, the shaft
    runs on the pressure row from 0 to [x1], which is never beyond 15 on
    either side; in exact arithmetic [s * x1 = min(s / 5, 15) * u]: the
    extent is [u / 5] up to speed 75, and a wind with [u = 0] (from due
    north or due south) has a shaft of length zero whatever its speed. *)
Theorem shaft_extent (data : Sounding) (N i : nat) (u v p : R) :
  levels data N ->
  In i (barb_indices data) ->
  u_wind data !! i = Some u ->
  v_wind data !! i = Some v ->
  pressure data !! i = Some p ->
  exists (s d x1 : R) (hover : list Formatted),
    windSpeed data !! i = Some (Num s) /\
    windDirection data !! i = Some (Num d) /\
    In (Trace.mk [Num 0; Num x1] [Num p; Num p] (Trace.Shaft hover) [])
       (createWindChart data) /\
    s * x1 = Rmin (s / 5) 15 * u /\
    Rabs x1 <= 15 /\
    (s <= 75 -> x1 = u / 5) /\
    (u = 0 -> x1 = 0).
Proof.
  intros _ Hsel Hu Hv Hp.
  pose proof (windSpeed_lookup data i u v Hu Hv) as Hs.
  pose proof (windDirection_lookup data i u v Hu Hv) as Hd.
  set (s := sqrt (u * u + v * v)) in *.
  set (d := Rrem (atan2 u v * 180 / PI + 180) 360) in *.
  assert (Hs0 : 0 <= s) by apply sqrt_pos.
  destruct (direction_radians _ (atan2_range u v)) as [Hsin _].
  fold d in Hsin.
  destruct (atan2_polar u v) as [Hpol _].
  replace (v * v + u * u) with (u * u + v * v) in Hpol by lra.
  fold s in Hpol.
  set (x1 := - Rmin (s / 5) 15 * sin (d * PI / 180)).
  assert (Hmin : 0 <= Rmin (s / 5) 15 <= 15 /\ Rmin (s / 5) 15 <= s / 5).
  { pose proof (Rmin_l (s / 5) 15). pose proof (Rmin_r (s / 5) 15).
    split; [split|]; try lra. apply Rmin_glb; lra. }
  assert (Hx1 : s * x1 = Rmin (s / 5) 15 * u).
  { unfold x1. rewrite Hsin. clear Hsin.
    set (sa := sin (atan2 u v)) in *. rewrite <- Hpol. ring. }
  exists s, d, x1, [toFixed (Num s) 1; toFixed (Num d) 0].
  split; [exact Hs|]. split; [exact Hd|]. split; [|split; [exact Hx1|split]].
  - unfold createWindChart, windBarbs. right.
    apply in_flat_map. exists i. split; [exact Hsel|].
    rewrite (at_index_lookup _ _ _ Hs), (at_index_lookup _ _ _ Hd).
    rewrite (get_lookup _ _ _ Hp), barb_glyph_unfold.
    rewrite dirRad_num, shaft_tip_num. left. reflexivity.
  - unfold x1. rewrite Rabs_mult, Rabs_Ropp.
    pose proof (SIN_bound (d * PI / 180)) as Hb.
    assert (Rabs (sin (d * PI / 180)) <= 1) by (apply Rabs_le; lra).
    rewrite (Rabs_right (Rmin (s / 5) 15)) by lra.
    pose proof (Rabs_pos (sin (d * PI / 180))). nra.
  - split.
    + intros H75. rewrite Rmin_left in Hx1 by lra.
      destruct (Req_dec_T s 0) as [Hz | Hnz].
      * assert (Hu0 : u = 0).
        { rewrite <- Hpol, Hz. ring. }
        unfold x1. rewrite Hz, Hu0.
        replace (0 / 5) with 0 by lra.
        rewrite Rmin_left by lra. lra.
      * apply (Rmult_eq_reg_l s); [|exact Hnz]. rewrite Hx1. field.
    + intros Hu0. destruct (Req_dec_T s 0) as [Hz | Hnz].
      * unfold x1. rewrite Hz. replace (0 / 5) with 0 by lra.
        rewrite Rmin_left by lra. lra.
      * apply (Rmult_eq_reg_l s); [|exact Hnz]. rewrite Hx1, Hu0. ring.
Qed.

Lemma shaft_extent_witness :
  levels sample_sounding 5 /\
  exists (s d x1 : R) (hover : list Formatted),
    windSpeed sample_sounding !! 1%nat = Some (Num s) /\
    windDirection sample_sounding !! 1%nat = Some (Num d) /\
    In (Trace.mk [Num 0; Num x1] [Num 850; Num 850] (Trace.Shaft hover) [])
       (createWindChart sample_sounding) /\
    s * x1 = Rmin (s / 5) 15 * 25.
Proof.
  assert (Hsel : In 1%nat (barb_indices sample_sounding))
    by (right; left; reflexivity).
  split; [exact sample_levels|].
  destruct (shaft_extent sample_sounding 5 1 25 60 850 sample_levels Hsel)
    as (s & d & x1 & hover & Hs & Hd & Hin & Hx & _);
    [reflexivity | reflexivity | reflexivity |].
  exists s, d, x1, hover. repeat split; assumption.
Defined.

(** ** Where flags and short barbs are anchored *)

Lemma flag_loop_anchors (x1 dr : R) (p : number) (n : nat) :
  forall c : R,
    Forall2 (fun tr a => anchor_x tr = Num (x1 * a))
            (flag_loop n (Num x1) (Num dr) p (Num c)).1
            (map (fun k => c - 0.15 * INR k) (seq 0 n)) /\
    (flag_loop n (Num x1) (Num dr) p (Num c)).2 = Num (c - 0.15 * INR n).
Proof.
  induction n as [|n IH]; intros c.
  - cbn. split; [constructor | f_equal; lra].
  - cbn [flag_loop]. change (Num c - 0.15)%js with (Num (c - 0.15)).
    destruct (IH (c - 0.15)) as [Hrest Hpos].
    destruct (flag_loop n (Num x1) (Num dr) p (Num (c - 0.15)))
      as [rest pos].
    cbn [fst snd] in *. split.
    + cbn [seq map]. constructor.
      * cbn. f_equal. lra.
      * rewrite <- seq_shift, map_map.
        erewrite map_ext; [exact Hrest|].
        intros k. cbv beta. rewrite S_INR. lra.
    + rewrite Hpos. f_equal. rewrite S_INR. lra.
Qed.

Lemma barb_loop_anchors (x1 dr : R) (p : number) (n : nat) :
  forall c : R,
    Forall2 (fun tr a => anchor_x tr = Num (x1 * a))
            (barb_loop n (Num x1) (Num dr) p (Num c)).1
            (map (fun j => c - 0.1 * INR j) (seq 0 n)).
Proof.
  induction n as [|n IH]; intros c.
  - cbn. constructor.
  - cbn [barb_loop]. change (Num c - 0.1)%js with (Num (c - 0.1)).
    pose proof (IH (c - 0.1)) as Hrest.
    destruct (barb_loop n (Num x1) (Num dr) p (Num (c - 0.1)))
      as [rest pos].
    cbn [fst] in *. cbn [seq map]. constructor.
    + cbn. f_equal. lra.
    + rewrite <- seq_shift, map_map.
      erewrite map_ext; [exact Hrest|].
      intros k. cbv beta. rewrite S_INR. lra.
Qed.

Lemma INR_to_nat (z : Z) : (0 <= z)%Z -> INR (Z.to_nat z) = IZR z.
Proof. intros Hz. rewrite INR_IZR_INZ, Z2Nat.id by exact Hz. reflexivity. Qed.

(** The decorations of one glyph. *)
Lemma glyph_anchoring (s d : R) (p : number) :
  0 <= s ->
  let nf := Z.to_nat (Zfloor (s / 50)) in
  let nb := Z.to_nat (Zfloor ((s - IZR (Zfloor (s / 50)) * 50) / 10)) in
  let x1 := - Rmin (s / 5) 15 * sin (d * PI / 180) in
  exists (shaft : Trace.t) (decorations : list Trace.t),
    barb_glyph (Num s) (Num d) p = shaft :: decorations /\
    Trace.x shaft = [Num 0; Num x1] /\
    Forall2 (fun tr a => anchor_x tr = Num (x1 * a))
            decorations (decoration_anchors nf nb) /\
    (s < 10 -> decorations = []) /\
    (s < 190 ->
     Forall (fun a => 0.05 <= a <= 0.7) (decoration_anchors nf nb)) /\
    (190 <= s < 200 ->
     exists a, last (decoration_anchors nf nb) = Some a /\ a = -0.05).
Proof.
  intros Hs nf nb x1.
  destruct (speed_decomposition s Hs) as (Hf0 & [Hb0 Hb4] & Hrem).
  set (f := Zfloor (s / 50)) in *.
  set (b := Zfloor ((s - IZR f * 50) / 10)) in *.
  pose proof (INR_to_nat f Hf0) as HF. fold nf in HF.
  pose proof (INR_to_nat b Hb0) as HB. fold nb in HB.
  rewrite barb_glyph_unfold, dirRad_num, shaft_tip_num. fold x1.
  rewrite numFlags_num, numBarbs_num. cbn [iterations].
  rewrite !Zceil_IZR.
  change (Zfloor (s / 50)) with f.
  change (Zfloor ((s - IZR f * 50) / 10)) with b.
  change (Z.to_nat f) with nf. change (Z.to_nat b) with nb.
  destruct (flag_loop_anchors x1 (d * PI / 180) p nf 0.7) as [Hfl Hpos].
  set (fl := flag_loop nf (Num x1) (Num (d * PI / 180)) p (Num 0.7)) in *.
  pose proof (barb_loop_anchors x1 (d * PI / 180) p nb
                (0.7 - 0.15 * INR nf)) as Hbl.
  rewrite <- Hpos in Hbl.
  eexists _, _. split; [reflexivity|]. split; [reflexivity|].
  split; [apply Forall2_app; [exact Hfl | exact Hbl]|].
  assert (Hsf : IZR f * 50 <= s).
  { pose proof (Zfloor_bound (s / 50)) as [Hlo _]. fold f in Hlo.
    assert (s = 50 * (s / 50)) by (field; lra). lra. }
  split; [|split].
  - intros H10.
    assert (Hf : f = 0%Z).
    { apply Zfloor_eq. lra. }
    assert (Hb : b = 0%Z).
    { unfold b. rewrite Hf. apply Zfloor_eq. lra. }
    unfold fl, nf, nb. rewrite Hf, Hb. reflexivity.
  - intros H190.
    assert (Hf3 : (f <= 3)%Z).
    { apply Z.lt_succ_r, lt_IZR. change (Z.succ 3) with 4%Z. lra. }
    assert (Hfb : (15 * f + 10 * b <= 75)%Z).
    { assert (Hb3 : (f = 3 -> b <= 3)%Z).
      { intros Hf. apply Z.lt_succ_r, lt_IZR. change (Z.succ 3) with 4%Z.
        pose proof (Zfloor_bound ((s - IZR f * 50) / 10)) as [Hlo _].
        fold b in Hlo. rewrite Hf in Hlo, Hsf. lra. }
      lia. }
    apply IZR_le in Hfb, Hf3, Hb4.
    rewrite plus_IZR, !mult_IZR in Hfb.
    rewrite <- HF, <- HB in *.
    unfold decoration_anchors. apply Forall_app. split.
    + apply Forall_map, Forall_forall. intros k Hk.
      apply elem_of_seq in Hk. destruct Hk as [_ Hk]. cbn in Hk.
      apply lt_INR in Hk. pose proof (pos_INR k).
      apply IZR_le in Hf0. cbv beta. lra.
    + apply Forall_map, Forall_forall. intros j Hj.
      apply elem_of_seq in Hj. destruct Hj as [_ Hj]. cbn in Hj.
      assert (Hj' : INR j + 1 <= INR nb).
      { rewrite <- S_INR. apply le_INR. lia. }
      pose proof (pos_INR j). pose proof (pos_INR nf). cbv beta. lra.
  - intros [H190 H200].
    assert (Hf : f = 3%Z).
    { apply Zfloor_eq. lra. }
    assert (Hb : b = 4%Z).
    { unfold b. rewrite Hf. apply Zfloor_eq. lra. }
    unfold nf, nb. rewrite Hf, Hb.
    eexists. split; [reflexivity|]. simpl. lra.
Qed.

(** Anchoring of the decorations.  In a sounding of [N] levels the chart
    is the speed trace followed by the glyphs of the selected levels; in
    the glyph of a level with speed [s] the flags and short barbs are
    anchored along the shaft, at its end [x1] times 0.7, 0.55, ... and then
    stepping by 0.1 (in exact arithmetic).  Below speed 10 there is no
    decoration.  Below speed 190 every anchor lies on the shaft, between
    the origin and 70% of it; from 190 on this fails: for [190 <= s < 200]
    the fourth short barb is anchored at a negative fraction, on the far
    side of the origin. *)
Theorem decoration_anchoring (data : Sounding) (N : nat) :
  levels data N ->
  exists glyphs : list (list Trace.t),
    createWindChart data = windSpeedTrace data :: concat glyphs /\
    Forall2
      (fun (i : nat) (glyph : list Trace.t) =>
         exists (s d x1 : R) (shaft : Trace.t)
                (decorations : list Trace.t) (anchors : list R),
           windSpeed data !! i = Some (Num s) /\
           windDirection data !! i = Some (Num d) /\
           glyph = shaft :: decorations /\
           Trace.x shaft = [Num 0; Num x1] /\
           anchors
             = decoration_anchors
                 (Z.to_nat (Zfloor (s / 50)))
                 (Z.to_nat (Zfloor ((s - IZR (Zfloor (s / 50)) * 50) / 10))) /\
           Forall2 (fun tr a => anchor_x tr = Num (x1 * a))
                   decorations anchors /\
           (s < 10 -> decorations = []) /\
           (s < 190 -> Forall (fun a => 0 < a <= 0.7) anchors) /\
           (190 <= s < 200 ->
            exists a, last anchors = Some a /\ a < 0))
      (barb_indices data) glyphs.
Proof.
  intros Hlev. apply (chart_glyphs data N _ Hlev).
  intros i u v p _ _ _ _ Hs Hd.
  destruct (glyph_anchoring (sqrt (u * u + v * v))
              (Rrem (atan2 u v * 180 / PI + 180) 360) (Num p)
              (sqrt_pos _))
    as (shaft & decorations & Hg & Hx & Hanch & Hnone & Hon & Hoff).
  eexists _, _, _, shaft, decorations, _.
  split; [exact Hs|]. split; [exact Hd|]. split; [exact Hg|].
  split; [exact Hx|]. split; [reflexivity|]. split; [exact Hanch|].
  split; [exact Hnone|]. split.
  - intros H190. eapply Forall_impl; [exact (Hon H190)|].
    cbv beta. intros a Ha. lra.
  - intros H200. destruct (Hoff H200) as (a & Hlast & ->).
    exists (-0.05). split; [exact Hlast | lra].
Qed.

Lemma decoration_anchoring_witness :
  levels sample_sounding 5 /\
  exists glyphs : list (list Trace.t),
    createWindChart sample_sounding
      = windSpeedTrace sample_sounding :: concat glyphs /\
    length glyphs = 5%nat.
Proof.
  split; [exact sample_levels|].
  destruct (decoration_anchoring sample_sounding 5 sample_levels)
    as (glyphs & Hchart & Hall).
  exists glyphs. split; [exact Hchart|].
  symmetry. exact (Forall2_length _ _ _ Hall).
Defined.

(** ** Arrays of unequal length *)

(** Ragged input.  The projected traces are as long as the temperature and
    dewpoint arrays and the wind arrays as long as [u_wind]; where the
    partner array ([pressure], resp. [v_wind]) has no entry the result is
    [NaN], neither an error nor a shorter trace. *)
Theorem ragged_arrays_give_NaN (data : Sounding) (i : nat) :
  length (tempX data) = length (temperature data) /\
  length (dewpointX data) = length (dewpoint data) /\
  length (windSpeed data) = length (u_wind data) /\
  length (windDirection data) = length (u_wind data) /\
  (pressure data !! i = None ->
   (forall t, temperature data !! i = Some t ->
              tempX data !! i = Some NaN) /\
   (forall td, dewpoint data !! i = Some td ->
               dewpointX data !! i = Some NaN)) /\
  (v_wind data !! i = None ->
   forall u, u_wind data !! i = Some u ->
             windSpeed data !! i = Some NaN /\
             windDirection data !! i = Some NaN).
Proof.
  unfold tempX, dewpointX, windSpeed, windDirection.
  rewrite !length_imap. do 4 (split; [reflexivity|]). split.
  - intros Hp. apply lookup_ge_None_1 in Hp.
    split; intros t Ht; rewrite list_lookup_imap, Ht;
      cbn [fmap option_fmap option_map];
      rewrite (get_out_of_range _ _ Hp); reflexivity.
  - intros Hv u Hu. apply lookup_ge_None_1 in Hv.
    rewrite !list_lookup_imap, Hu. cbn [fmap option_fmap option_map].
    rewrite (get_out_of_range _ _ Hv). split; reflexivity.
Qed.

Lemma ragged_arrays_give_NaN_witness :
  tempX ragged_sounding !! 2%nat = Some NaN /\
  windSpeed ragged_sounding !! 2%nat = Some NaN /\
  windDirection ragged_sounding !! 2%nat = Some NaN.
Proof.
  destruct (ragged_arrays_give_NaN ragged_sounding 2)
    as (_ & _ & _ & _ & Ht & Hw).
  destruct (Ht eq_refl) as [Ht' _].
  destruct (Hw eq_refl 30 eq_refl) as [Hs Hd].
  split; [apply (Ht' (-5)); reflexivity | split; assumption].
Defined.

(** ** The data traces against the grid *)

(** The order of the two traces.  Whatever the rounding, as long as it
    keeps the order of the numbers it rounds (as round-to-nearest does): at
    every level of a sounding of [N] levels where the dewpoint is not above
    the temperature, the dewpoint trace is not to the right of the
    temperature trace.  In exact arithmetic the gap between the two is the
    dewpoint depression [temperature[i] - dewpoint[i]], and the traces meet
    only where the air is saturated. *)
Theorem trace_gap_is_depression (rnd : R -> R) (data : Sounding)
    (N i : nat) :
  (forall a b, a <= b -> rnd a <= rnd b) ->
  levels data N ->
  (i < N)%nat ->
  exists t td x xd : R,
    temperature data !! i = Some t /\
    dewpoint data !! i = Some td /\
    tempX_fl rnd data !! i = Some (Num x) /\
    dewpointX_fl rnd data !! i = Some (Num xd) /\
    (td <= t -> xd <= x) /\
    ((forall y, rnd y = y) ->
     Trace.x (tempTrace data) !! i = Some (Num x) /\
     Trace.x (dewpointTrace data) !! i = Some (Num xd) /\
     x - xd = t - td /\
     (xd <= x <-> td <= t) /\
     (xd = x <-> td = t)).
Proof.
  intros Hmono (Hp & Ht & Hd & _ & _) Hi.
  read_level (temperature data) i t Hti.
  read_level (dewpoint data) i td Hdi.
  read_level (pressure data) i p Hpi.
  set (m := rnd (rnd (1000 - p) * rnd 0.04)).
  exists t, td, (rnd (t + m)), (rnd (td + m)).
  split; [exact Hti|]. split; [exact Hdi|].
  split; [rewrite (tempX_fl_lookup rnd data i t p Hti Hpi); reflexivity|].
  split; [rewrite (dewpointX_fl_lookup rnd data i td p Hdi Hpi);
          reflexivity|].
  split.
  - intros Hle. apply Hmono. lra.
  - intros Hid. unfold m. rewrite !Hid. cbn [tempTrace dewpointTrace Trace.x].
    rewrite (tempX_lookup data i t p Hti Hpi).
    rewrite (dewpointX_lookup data i td p Hdi Hpi).
    split; [reflexivity|]. split; [reflexivity|].
    split; [lra|]. split; split; lra.
Qed.

Lemma trace_gap_is_depression_witness :
  (forall a b, a <= b -> IZR (Zfloor a) <= IZR (Zfloor b)) /\
  levels sample_sounding 5 /\
  exists x xd : R,
    tempX_fl (fun y => IZR (Zfloor y)) sample_sounding !! 2%nat
      = Some (Num x) /\
    dewpointX_fl (fun y => IZR (Zfloor y)) sample_sounding !! 2%nat
      = Some (Num xd) /\
    xd <= x.
Proof.
  assert (Hmono : forall a b, a <= b -> IZR (Zfloor a) <= IZR (Zfloor b)).
  { intros a b Hab. apply IZR_le, Zfloor_lub.
    pose proof (Zfloor_bound a). lra. }
  split; [exact Hmono|]. split; [exact sample_levels|].
  destruct (trace_gap_is_depression (fun y => IZR (Zfloor y))
              sample_sounding 5 2 Hmono sample_levels ltac:(lia))
    as (t & td & x & xd & Ht & Htd & Hx & Hxd & Hord & _).
  injection Ht as <-. injection Htd as <-.
  exists x, xd. split; [exact Hx|]. split; [exact Hxd|].
  apply Hord. lra.
Defined.

Lemma isotherm_temps_bounds (lowPerf : bool) (t : Z) :
  In t (isotherm_temps lowPerf) -> (-80 <= t <= 40)%Z.
Proof. destruct lowPerf; cbn; intuition lia. Qed.

(** Isotherms are lines of constant temperature.  Every point of every
    emitted isotherm, put through the inverse of the skew formula, gives the
    same nominal temperature, a whole number of degrees between -80 and 40;
    so a level of that temperature at a sampled pressure is plotted on the
    isotherm. *)
Theorem isotherm_constant_temperature (lowPerf : bool) (tr : Trace.t) :
  In tr (isotherms lowPerf) ->
  exists t : Z,
    (-80 <= t <= 40)%Z /\
    Trace.x tr <> [] /\
    Forall2 (fun x y => unskew x y = Num (IZR t))
            (Trace.x tr) (Trace.y tr) /\
    Forall2 (fun x y =>
               exists p : R,
                 y = Num p /\ x = (Num (IZR t) + (1000 - Num p) * skewFactor)%js)
            (Trace.x tr) (Trace.y tr).
Proof.
  unfold isotherms. rewrite isotherm_temps_loop. intros Hin.
  apply in_map_iff in Hin as (t & <- & Ht).
  exists t. split; [apply (isotherm_temps_bounds lowPerf), Ht|].
  unfold isotherm. cbn [Trace.x Trace.y].
  rewrite isotherm_pressures_loop. split.
  { destruct lowPerf; discriminate. }
  split.
  - apply Forall2_fmap, Forall_Forall2_diag, Forall_forall.
    intros p _. apply unskew_skew.
  - apply Forall2_fmap, Forall_Forall2_diag, Forall_forall.
    intros p _. exists (IZR p). split; reflexivity.
Qed.

Lemma isotherm_constant_temperature_witness :
  exists t : Z,
    (-80 <= t <= 40)%Z /\
    Forall2 (fun x y => unskew x y = Num (IZR t))
            (Trace.x (isotherm false 0)) (Trace.y (isotherm false 0)).
Proof.
  assert (Hin : In (isotherm false 0) (isotherms false)).
  { unfold isotherms. rewrite isotherm_temps_loop.
    apply in_map. cbn. tauto. }
  destruct (isotherm_constant_temperature false _ Hin)
    as (t & Ht & _ & Hall & _).
  exists t. split; assumption.
Defined.

(** Dry adiabats miss the chart.  Every point of every emitted dry adiabat
    has a finite abscissa that is below the lower end of the x axis range
    (at most -132.15 against -60): no part of any of these curves falls
    inside the plotted range. *)
Theorem dry_adiabats_outside_axis (lowPerf : bool) (tr : Trace.t) :
  In tr (dryAdiabats lowPerf) ->
  Trace.x tr <> [] /\
  Forall (fun x => exists r : R,
                     x = Num r /\ r <= -132.15 /\ r < temp_xaxis_range.1)
         (Trace.x tr).
Proof.
  unfold dryAdiabats. intros Hin.
  apply in_map_iff in Hin as (theta0 & <- & Hth).
  unfold dryAdiabat. cbn [Trace.x]. split.
  { destruct lowPerf; discriminate. }
  apply Forall_map, List.Forall_forall. intros p Hp.
  destruct (dry_adiabats_off_chart lowPerf theta0 p Hth Hp)
    as (T & _ & _ & Hx & Hle).
  exists (T + (1000 - IZR p) * 0.04).
  split; [exact Hx|]. split; [exact Hle|]. cbn. lra.
Qed.

Lemma dry_adiabats_outside_axis_witness :
  Forall (fun x => exists r : R, x = Num r /\ r <= -132.15 /\ r < -60)
         (Trace.x (dryAdiabat false 100)).
Proof.
  assert (Hin : In (dryAdiabat false 100) (dryAdiabats false)).
  { unfold dryAdiabats. apply in_map. cbn. tauto. }
  apply (dry_adiabats_outside_axis false _ Hin).
Defined.

(** ** Building a diagram *)

Import Aero.






(** An empty sounding.  From any page, [buildDiagram] followed by a
    successful response whose temperature array is empty ends with the
    connection-error banner shown and nothing else: station info, charts
    and table stay hidden and no plot is drawn. *)
Theorem empty_sounding_reported_as_connection_error
    (lowPerf : bool) (stationId dateValue hourValue : string)
    (data : Payload) (pg : Page) :
  stationId <> EmptyString ->
  dateValue <> EmptyString ->
  temperature (sounding data) = [] ->
  exists (pg1 : Page) (req : Request),
    buildDiagram stationId dateValue hourValue pg = (pg1, Some req) /\
    let pg2 := on_response lowPerf (Success data) pg1 in
    loadingAero pg2 = false /\
    errorAero pg2 = true /\
    errorAero_text pg2 = Some ConnectionError /\
    stationInfo pg2 = false /\
    chartsSection pg2 = false /\
    dataTableSection pg2 = false /\
    temp_chart pg2 = temp_chart pg /\
    wind_chart pg2 = wind_chart pg /\
    sounding_tbody pg2 = sounding_tbody pg.
Proof.
  intros Hst Hdt Hempty.
  destruct stationId as [|c1 s1]; [contradiction|].
  destruct dateValue as [|c2 s2]; [contradiction|].
  eexists _, _. split; [reflexivity|].
  cbv zeta. unfold on_response, displayResults.
  rewrite Hempty. cbn. repeat split.
Qed.



Lemma empty_sounding_reported_as_connection_error_witness :
  exists (pg1 : Page) (req : Request),
    buildDiagram "26038" "2024-01-15" "00" blank_page = (pg1, Some req) /\
    errorAero_text (on_response false (Success empty_payload) pg1)
      = Some ConnectionError /\
    chartsSection (on_response false (Success empty_payload) pg1) = false.
Proof.
  destruct (empty_sounding_reported_as_connection_error
              false "26038" "2024-01-15" "00" empty_payload blank_page)
    as (pg1 & req & Hb & H); [discriminate | discriminate | reflexivity |].
  exists pg1, req. split; [exact Hb|]. cbv zeta in H.
  destruct H as (_ & _ & He & _ & Hc & _).
  split; assumption.
Defined.

(** ** What [buildDiagram] checks and sends *)

(** Validation.  No request goes out exactly when the station or the date
    is empty; then the matching message is shown (the station is checked
    first) and nothing else on the page changes.  Otherwise the error and
    all result sections are hidden, the loading mark is shown, and the
    request carries the station and hour as they are. *)
Theorem buildDiagram_validation
    (stationId dateValue hourValue : string) (pg : Page) :
  let r := buildDiagram stationId dateValue hourValue pg in
  (r.2 = None <-> stationId = EmptyString \/ dateValue = EmptyString) /\
  (stationId = EmptyString -> r.1 = showError SelectStation pg) /\
  (stationId <> EmptyString -> dateValue = EmptyString ->
   r.1 = showError SelectDate pg) /\
  (r.2 = None ->
   loadingAero r.1 = loadingAero pg /\
   stationInfo r.1 = stationInfo pg /\
   chartsSection r.1 = chartsSection pg /\
   dataTableSection r.1 = dataTableSection pg /\
   errorAero r.1 = true) /\
  (forall req, r.2 = Some req ->
   station_id req = stationId /\
   hour req = hourValue /\
   date req = strip_dashes dateValue /\
   loadingAero r.1 = true /\
   errorAero r.1 = false /\
   stationInfo r.1 = false /\
   indicesSection r.1 = false /\
   chartsSection r.1 = false /\
   dataTableSection r.1 = false).
Proof.
  cbv zeta. unfold buildDiagram.
  destruct stationId as [|c1 s1]; [|destruct dateValue as [|c2 s2]]; cbn.
  - split; [tauto|]. split; [reflexivity|]. split; [tauto|].
    split; [tauto | discriminate].
  - split; [tauto|]. split; [discriminate|]. split; [reflexivity|].
    split; [tauto | discriminate].
  - split; [split; [discriminate | intros [H | H]; discriminate]|].
    split; [discriminate|]. split; [discriminate|].
    split; [discriminate|]. intros req [= <-]. cbn. tauto.
Qed.

Lemma strip_dashes_app (a b : string) :
  strip_dashes (a +:+ b) = strip_dashes a +:+ strip_dashes b.
Proof.
  induction a as [|c a IH]; [reflexivity|].
  simpl. rewrite IH. destruct (Ascii.eqb c _); reflexivity.
Qed.

Lemma strip_dashes_dashless (a : string) :
  ~ In "-"%char (String.list_ascii_of_string a) -> strip_dashes a = a.
Proof.
  induction a as [|c a IH]; [reflexivity|].
  simpl. intros Hno.
  destruct (Ascii.eqb_spec c "-") as [-> | _].
  - exfalso. apply Hno. left. reflexivity.
  - rewrite IH; [reflexivity|]. tauto.
Qed.

Lemma strip_dashes_no_dash (a : string) :
  ~ In "-"%char (String.list_ascii_of_string (strip_dashes a)).
Proof.
  induction a as [|c a IH]; [intros []|].
  simpl.
  destruct (Ascii.eqb_spec c "-") as [-> | Hne]; [exact IH|].
  simpl. intros [Heq | Hin]; [congruence | exact (IH Hin)].
Qed.

(** The date sent.  The request's date never contains a dash; a date of
    the form [y-m-d] (dashless parts, as a date input gives it) is sent as
    the three parts run together. *)
Theorem build_request_date
    (stationId hourValue y m d : string) (pg : Page) :
  stationId <> EmptyString ->
  y <> EmptyString ->
  ~ In "-"%char (String.list_ascii_of_string y) ->
  ~ In "-"%char (String.list_ascii_of_string m) ->
  ~ In "-"%char (String.list_ascii_of_string d) ->
  exists req : Request,
    (buildDiagram stationId (y +:+ "-" +:+ m +:+ "-" +:+ d) hourValue pg).2
      = Some req /\
    date req = y +:+ m +:+ d /\
    ~ In "-"%char (String.list_ascii_of_string (date req)).
Proof.
  intros Hst Hy Hdy Hdm Hdd.
  destruct stationId as [|c1 s1]; [contradiction|].
  destruct y as [|cy y']; [contradiction|].
  eexists. split; [reflexivity|]. cbn [date].
  split; [|apply strip_dashes_no_dash].
  rewrite !strip_dashes_app.
  rewrite (strip_dashes_dashless (String cy y')) by exact Hdy.
  rewrite (strip_dashes_dashless m) by exact Hdm.
  rewrite (strip_dashes_dashless d) by exact Hdd.
  reflexivity.
Qed.

Lemma build_request_date_witness :
  exists req : Request,
    (buildDiagram "26038" "2024-01-15" "00" blank_page).2 = Some req /\
    date req = "20240115".
Proof.
  destruct (build_request_date "26038" "00" "2024" "01" "15" blank_page)
    as (req & Hreq & Hdate & _);
    try discriminate; try (cbn; intuition discriminate).
  exists req. split; [exact Hreq | exact Hdate].
Defined.

(** * Properties of the METAR page script *)

Import Metar.

(** ** The list of selected airports *)

(** Split on every list that a handler tests for emptiness. *)
Ltac list_cases :=
  unfold renderSelectedAirports; cbn;
  repeat match goal with
         | |- context [match ?l with [] => _ | _ :: _ => _ end] =>
             destruct l eqn:?; cbn
         end.

Lemma existsb_icao (code : string) (sel : list Airport) :
  existsb (fun a => String.eqb (icao a) code) sel = true
  <-> In code (map icao sel).
Proof.
  rewrite existsb_exists, in_map_iff.
  split; intros (a & H1 & H2); exists a.
  - apply String.eqb_eq in H2. tauto.
  - split; [tauto|]. apply String.eqb_eq. tauto.
Qed.

Lemma removed_icaos (code : string) (sel : list Airport) :
  map icao (List.filter (fun a => negb (String.eqb (icao a) code)) sel)
    = List.filter (fun c => negb (String.eqb c code)) (map icao sel).
Proof.
  induction sel as [|a sel IH]; [reflexivity|].
  cbn [List.filter map]. destruct (String.eqb (icao a) code); cbn; congruence.
Qed.

Lemma filter_absent (code : string) (sel : list Airport) :
  ~ In code (map icao sel) ->
  List.filter (fun a => negb (String.eqb (icao a) code)) sel = sel.
Proof.
  induction sel as [|a sel IH]; [reflexivity|].
  cbn [List.filter map In]. intros Hno.
  destruct (String.eqb_spec (icao a) code) as [Heq | Hne]; [tauto|].
  cbn. rewrite IH; tauto.
Qed.

Lemma selectAirport_selection (airport : Candidate) (st : State) :
  selectedAirports (selectAirport airport st) =
    if existsb (fun a => String.eqb (icao a) (c_icao airport))
               (selectedAirports st)
    then selectedAirports st
    else selectedAirports st
         ++ [mkAirport (c_icao airport) (c_name airport)
                       (default "" (c_runway_headings airport))].
Proof.
  unfold selectAirport.
  destruct (existsb _ (selectedAirports st)); [reflexivity|].
  unfold renderSelectedAirports. cbn.
  destruct (selectedAirports st ++ _); reflexivity.
Qed.

Lemma removeAirport_selection (code : string) (st : State) :
  selectedAirports (removeAirport code st) =
    List.filter (fun a => negb (String.eqb (icao a) code))
                (selectedAirports st).
Proof.
  unfold removeAirport, renderSelectedAirports. cbn.
  destruct (List.filter _ (selectedAirports st)); reflexivity.
Qed.

(** Selecting and removing.  Selecting an airport whose code is not yet in
    the list appends it (a missing runway string becomes the empty string)
    and shows no error; selecting a code that is already there changes
    nothing in the list and shows the already-added message; either way the
    search box is emptied and the result list closed.  Removing a code
    drops every entry with that code and nothing else, so removing the
    airport just added gives the previous list back. *)
Theorem select_and_remove (airport : Candidate) (st : State) :
  let st' := selectAirport airport st in
  icaoSearch st' = EmptyString /\
  searchResults st' = false /\
  (In (c_icao airport) (icaos st) ->
   selectedAirports st' = selectedAirports st /\
   errorMessage st' = true /\
   errorMessage_text st' = Some (AlreadyAdded (c_icao airport))) /\
  (~ In (c_icao airport) (icaos st) ->
   selectedAirports st' =
     selectedAirports st
     ++ [mkAirport (c_icao airport) (c_name airport)
                   (default "" (c_runway_headings airport))] /\
   errorMessage st' = errorMessage st /\
   errorMessage_text st' = errorMessage_text st /\
   selectedAirportsContainer st' = true /\
   selectedAirports (removeAirport (c_icao airport) st')
     = selectedAirports st) /\
  (forall code,
      icaos (removeAirport code st)
        = List.filter (fun c => negb (String.eqb c code)) (icaos st) /\
      ~ In code (icaos (removeAirport code st))).
Proof.
  cbv zeta. unfold icaos.
  pose proof (existsb_icao (c_icao airport) (selectedAirports st)) as Hex.
  split; [|split; [|split; [|split]]].
  - unfold selectAirport. destruct (existsb _ _); reflexivity.
  - unfold selectAirport. destruct (existsb _ _); reflexivity.
  - intros Hin. apply Hex in Hin.
    unfold selectAirport. rewrite Hin. repeat split.
  - intros Hno.
    assert (Hf : existsb (fun a => String.eqb (icao a) (c_icao airport))
                         (selectedAirports st) = false).
    { apply not_true_is_false. intros H. apply Hno, Hex, H. }
    split; [rewrite selectAirport_selection, Hf; reflexivity|].
    split; [unfold selectAirport; rewrite Hf; list_cases; reflexivity|].
    split; [unfold selectAirport; rewrite Hf; list_cases; reflexivity|].
    split.
    + unfold selectAirport. rewrite Hf.
      unfold renderSelectedAirports. cbn.
      destruct (selectedAirports st ++ _) eqn:Happ; [|reflexivity].
      apply app_eq_nil in Happ. destruct Happ; discriminate.
    + rewrite removeAirport_selection, selectAirport_selection, Hf.
      rewrite List.filter_app. cbn.
      rewrite String.eqb_refl. cbn.
      rewrite app_nil_r. apply filter_absent, Hno.
  - intros code. rewrite removeAirport_selection, removed_icaos.
    split; [reflexivity|]. intros Hin.
    apply filter_In in Hin as [_ Hne].
    rewrite String.eqb_refl in Hne. discriminate.
Qed.

(** ** What every reachable state satisfies *)

(** Take the state apart and run the handler on it. *)
Ltac open_state st :=
  destruct st as [sel box act cont tags em emt ld rs rh rc lm ri nt
                  tog pan rid cid nr nc rem tmr].

Ltac step_cases :=
  cbn;
  repeat match goal with
         | |- context [match ?l with [] => _ | _ :: _ => _ end] =>
             destruct l eqn:?; cbn
         | |- context [if ?b then _ else _] => destruct b eqn:?; cbn
         | |- context [let (_, _) := ?p in _] => destruct p eqn:?; cbn
         end.

Lemma selection_step (e : Event) (st : State) :
  selection_ok st -> selection_ok (handle e st).
Proof.
  unfold selection_ok, icaos. intros (Hnd & Hcont & Htags).
  destruct e; cbn [handle].
  - cbn. tauto.
  - (* PickAirport *)
    pose proof (existsb_icao (c_icao airport) (selectedAirports st)) as Hex.
    rewrite selectAirport_selection.
    unfold selectAirport.
    destruct (existsb _ (selectedAirports st)) eqn:Hdup.
    + cbn. tauto.
    + assert (Hno : ~ In (c_icao airport) (map icao (selectedAirports st))).
      { intros H. apply Hex in H. discriminate. }
      unfold renderSelectedAirports. cbn.
      destruct (selectedAirports st ++ _) eqn:Happ.
      { apply app_eq_nil in Happ. destruct Happ; discriminate. }
      cbn. split; [|split; [split; [discriminate | reflexivity] | reflexivity]].
      change (icao a :: map icao l) with (map icao (a :: l)).
      rewrite <- Happ, map_app. cbn. apply NoDup_app. split; [exact Hnd|].
      split; [|apply NoDup_singleton].
      intros c Hc Hc'. apply list_elem_of_In in Hc.
      apply list_elem_of_singleton in Hc'. subst c. tauto.
  - (* RemoveTag *)
    rewrite removeAirport_selection.
    assert (Hnd' : NoDup (map icao
                    (List.filter (fun a => negb (String.eqb (icao a) code))
                                 (selectedAirports st)))).
    { rewrite removed_icaos. apply NoDup_ListNoDup.
      apply List.NoDup_filter, NoDup_ListNoDup, Hnd. }
    unfold removeAirport, renderSelectedAirports. cbn.
    destruct (List.filter _ (selectedAirports st)) eqn:Hf; cbn;
      (split; [exact Hnd'|split]); try tauto; try reflexivity.
    + split; [discriminate | tauto].
    + split; [discriminate | reflexivity].
  - (* ClickClear *)
    open_state st. unfold clearAll, uncheck_and_stop. step_cases;
      (split; [constructor | split; [split; [discriminate | tauto] | tauto]]).
  - open_state st. unfold fetchMetarTaf, uncheck_and_stop.
    step_cases; cbn in *; tauto.
  - open_state st. unfold fetch_done, displayMultipleAirportsResults.
    step_cases; cbn in *; tauto.
  - open_state st. unfold fetch_failed. step_cases; cbn in *; tauto.
  - open_state st.
    unfold toggle_changed, startAutoRefresh, stopAutoRefresh.
    step_cases; cbn in *; tauto.
  - open_state st. unfold updateCountdown. cbn in *. tauto.
  - open_state st. unfold performAutoRefresh, stopAutoRefresh.
    step_cases; cbn in *; tauto.
  - open_state st. unfold refresh_done, displayMultipleAirportsResults.
    step_cases; cbn in *; tauto.
  - open_state st. unfold refresh_failed. cbn in *. tauto.
Qed.

(** Handlers that leave the auto-refresh fields alone. *)
Ltac frame :=
  unfold timer_view, clock_view,
    search_box, selectAirport, removeAirport, renderSelectedAirports, fetch_done,
    fetch_failed, refresh_done, refresh_failed, reset_countdown,
    displayMultipleAirportsResults, showAutoRefreshPanel,
    showError, hideError, showLoading, hideLoading, hideResult;
  repeat match goal with
         | |- context [match ?x with _ => _ end] => destruct x
         end;
  reflexivity.

Lemma timers_ok_view (st st' : State) :
  timer_view st' = timer_view st -> timers_ok st -> timers_ok st'.
Proof.
  unfold timer_view, timers_ok. intros [= -> -> -> -> ->]. tauto.
Qed.

Lemma countdown_ok_view (st st' : State) :
  clock_view st' = clock_view st -> countdown_ok st -> countdown_ok st'.
Proof.
  unfold clock_view, countdown_ok. intros [= -> ->]. tauto.
Qed.

Lemma uncheck_and_stop_timers (st : State) :
  timers_ok st -> timers_ok (uncheck_and_stop st).
Proof.
  unfold timers_ok, uncheck_and_stop, stopAutoRefresh.
  intros (Hr & Hc & Hnr & Hnc).
  destruct (autoRefreshToggle st) eqn:Htog; cbn.
  - rewrite Hr, Hc, Hnr, Hnc. repeat split.
  - rewrite Hr, Hc, Hnr, Hnc, Htog. repeat split.
Qed.

Lemma clearAll_timer_view (st : State) :
  timer_view (clearAll st) = timer_view (uncheck_and_stop st).
Proof. reflexivity. Qed.

Lemma fetchMetarTaf_timer_view (st : State) :
  timer_view (fetchMetarTaf st) = timer_view (uncheck_and_stop st).
Proof.
  unfold fetchMetarTaf.
  destruct (selectedAirports (uncheck_and_stop st)); reflexivity.
Qed.

Lemma timers_step (e : Event) (st : State) :
  timers_ok st -> timers_ok (handle e st).
Proof.
  intros Hok. destruct e; cbn [handle];
    try (apply (timers_ok_view st); [frame | exact Hok]).
  - apply (timers_ok_view (uncheck_and_stop st)).
    + apply clearAll_timer_view.
    + apply uncheck_and_stop_timers, Hok.
  - apply (timers_ok_view (uncheck_and_stop st)).
    + apply fetchMetarTaf_timer_view.
    + apply uncheck_and_stop_timers, Hok.
  - destruct Hok as (Hr & Hc & Hnr & Hnc).
    unfold timers_ok, toggle_changed, startAutoRefresh, stopAutoRefresh,
      updateCountdown.
    destruct (autoRefreshToggle st) eqn:Htog; cbn.
    + rewrite Hr, Hc, Hnr, Hnc. repeat split.
    + destruct (selectedAirports st); cbn;
        rewrite ?Hr, ?Hc, ?Hnr, ?Hnc, ?Htog; repeat split.
  - unfold performAutoRefresh.
    destruct (selectedAirports st) eqn:Hsel.
    + destruct Hok as (Hr & Hc & Hnr & Hnc).
      unfold timers_ok, stopAutoRefresh. cbn.
      rewrite Hr, Hc, Hnr, Hnc.
      destruct (autoRefreshToggle st); repeat split.
    + apply (timers_ok_view st); [reflexivity | exact Hok].
Qed.

Lemma updateCountdown_clock (st : State) :
  countdown_ok st -> countdown_ok (updateCountdown st).
Proof.
  unfold countdown_ok, updateCountdown, REFRESH_INTERVAL_SECONDS.
  intros (Hrange & _). cbn.
  destruct (Z.leb_spec (remainingSeconds st) 0) as [Hle | Hgt].
  - split; [lia|]. intros s [= <-]. exists 600%Z. split; [lia | reflexivity].
  - split; [lia|]. intros s [= <-].
    exists (remainingSeconds st). split; [lia | reflexivity].
Qed.

Lemma stopAutoRefresh_clock (st : State) :
  countdown_ok st -> countdown_ok (stopAutoRefresh st).
Proof.
  unfold countdown_ok, stopAutoRefresh. intros (Hrange & _). cbn.
  split; [exact Hrange | discriminate].
Qed.

Lemma uncheck_and_stop_clock (st : State) :
  countdown_ok st -> countdown_ok (uncheck_and_stop st).
Proof.
  intros Hok. unfold uncheck_and_stop.
  destruct (autoRefreshToggle st); [|exact Hok].
  apply stopAutoRefresh_clock.
  apply (countdown_ok_view st); [reflexivity | exact Hok].
Qed.

Lemma reset_countdown_clock (st : State) :
  countdown_ok st -> countdown_ok (reset_countdown st).
Proof.
  unfold countdown_ok, reset_countdown, REFRESH_INTERVAL_SECONDS.
  intros (_ & Htext). cbn. split; [lia | exact Htext].
Qed.

Lemma countdown_step (e : Event) (st : State) :
  countdown_ok st -> countdown_ok (handle e st).
Proof.
  intros Hok. destruct e; cbn [handle];
    try (apply (countdown_ok_view st); [frame | exact Hok]).
  - apply (countdown_ok_view (uncheck_and_stop st));
      [reflexivity | apply uncheck_and_stop_clock, Hok].
  - apply (countdown_ok_view (uncheck_and_stop st)).
    + unfold fetchMetarTaf.
      destruct (selectedAirports (uncheck_and_stop st)); reflexivity.
    + apply uncheck_and_stop_clock, Hok.
  - unfold toggle_changed. cbn.
    destruct (autoRefreshToggle st); cbn.
    + apply stopAutoRefresh_clock.
      apply (countdown_ok_view st); [reflexivity | exact Hok].
    + unfold startAutoRefresh. cbn.
      destruct (selectedAirports st).
      * apply (countdown_ok_view st); [reflexivity | exact Hok].
      * match goal with
        | |- countdown_ok (with_refresh _ _ _ _ _ _ _ _ (updateCountdown ?s)) =>
            apply (countdown_ok_view (updateCountdown s)); [reflexivity|]
        end.
        apply reset_countdown_clock, updateCountdown_clock in Hok.
        apply (countdown_ok_view (updateCountdown (reset_countdown st)));
          [reflexivity | exact Hok].
  - apply updateCountdown_clock, Hok.
  - unfold performAutoRefresh. destruct (selectedAirports st).
    + apply (countdown_ok_view (stopAutoRefresh st));
        [reflexivity | apply stopAutoRefresh_clock, Hok].
    + apply (countdown_ok_view st); [reflexivity | exact Hok].
  - apply (countdown_ok_view (reset_countdown st));
      [|apply reset_countdown_clock, Hok].
    unfold refresh_done.
    destruct (detect_changes results (lastMetarRaw st) false) as [last ch].
    destruct ch; [|reflexivity].
    unfold displayMultipleAirportsResults.
    destruct results; [reflexivity|].
    match goal with
    | |- context [display_each ?a ?b ?c] => destruct (display_each a b c)
    end.
    reflexivity.
  - apply (countdown_ok_view (reset_countdown st));
      [reflexivity | apply reset_countdown_clock, Hok].
Qed.

(** The three invariants hold in every state the page can reach. *)
Lemma invariants_hold (st : State) :
  reachable st -> selection_ok st /\ timers_ok st /\ countdown_ok st.
Proof.
  induction 1 as [|e st _ (IHs & IHt & IHc) _].
  - split; [|split].
    + split; [constructor | split; [split; [discriminate | tauto] | tauto]].
    + repeat split.
    + split; [cbn; lia | intros s Hs; discriminate].
  - split; [apply selection_step, IHs|].
    split; [apply timers_step, IHt | apply countdown_step, IHc].
Qed.

Lemma sample_session_reachable : reachable (run sample_session initial).
Proof.
  unfold run, sample_session. cbn [fold_left].
  repeat (apply reachable_step; [|vm_compute; first [exact I | lia]]).
  apply reachable_initial.
Qed.

(** The selection invariant.  In every state the page can reach, no
    airport code is selected twice, the tag container is shown exactly when
    the selection is not empty, and then the tags shown are the selected
    airports in order. *)
Theorem reachable_selection (st : State) :
  reachable st ->
  NoDup (icaos st) /\
  (selectedAirportsContainer st = true <-> selectedAirports st <> []) /\
  (selectedAirports st <> [] ->
   airportsList st
     = map (fun a => (icao a, name a)) (selectedAirports st)).
Proof.
  fold (selection_ok st). induction 1 as [|e st _ IH _].
  - split; [constructor | split; [split; [discriminate | tauto] | tauto]].
  - apply selection_step, IH.
Qed.

Lemma reachable_selection_witness :
  reachable (run sample_session initial) /\
  selection_ok (run sample_session initial).
Proof.
  split; [exact sample_session_reachable|].
  apply reachable_selection, sample_session_reachable.
Defined.

(** Timers follow the toggle.  In every state the page can reach, the
    auto-refresh box is checked exactly when the refresh timer and the
    countdown timer are set, and then exactly one timer of each kind is
    alive, otherwise none: no handler leaks a timer or starts a second
    one. *)
Theorem reachable_timers (st : State) :
  reachable st ->
  autoRefreshInterval st = autoRefreshToggle st /\
  countdownInterval st = autoRefreshToggle st /\
  refresh_timers st = (if autoRefreshToggle st then 1 else 0)%nat /\
  countdown_timers st = (if autoRefreshToggle st then 1 else 0)%nat.
Proof.
  fold (timers_ok st). induction 1 as [|e st _ IH _].
  - repeat split.
  - apply timers_step, IH.
Qed.

Lemma reachable_timers_witness :
  reachable (run sample_session initial) /\
  timers_ok (run sample_session initial).
Proof.
  split; [exact sample_session_reachable|].
  apply reachable_timers, sample_session_reachable.
Defined.

(** The countdown.  In every state the page can reach, the remaining
    seconds lie between 0 and 600, and a countdown text on the page is the
    rendering of a time between 1 and 600 seconds: 0:00 is never shown. *)
Theorem reachable_countdown (st : State) :
  reachable st ->
  (0 <= remainingSeconds st <= 600)%Z /\
  (forall s, refreshTimer st = Some (Countdown s) ->
             exists r : Z, (1 <= r <= 600)%Z /\ s = timeString r).
Proof.
  fold (countdown_ok st). induction 1 as [|e st _ IH _].
  - split; [cbn; lia | intros s Hs; discriminate].
  - apply countdown_step, IH.
Qed.

Lemma reachable_countdown_witness :
  reachable (run sample_session initial) /\
  countdown_ok (run sample_session initial).
Proof.
  split; [exact sample_session_reachable|].
  apply reachable_countdown, sample_session_reachable.
Defined.

(** ** Results and the record of the last METARs *)

Lemma cache_key_inj (a b : string) : cache_key a = cache_key b -> a = b.
Proof. unfold cache_key. simpl. intros [= H]. exact H. Qed.

Lemma display_each_cards (results : list (Airport * FetchData))
    (last : gmap string string) (cards : list Airport) :
  snd (display_each results last cards) = cards ++ succeeded results.
Proof.
  revert last cards.
  induction results as [|[a d] rest IH]; intros last cards.
  - cbn. rewrite app_nil_r. reflexivity.
  - cbn [display_each]. unfold succeeded. cbn [List.filter snd].
    destruct (success d).
    + rewrite IH. unfold succeeded. cbn. rewrite <- app_assoc. reflexivity.
    + apply IH.
Qed.

Lemma display_each_other (results : list (Airport * FetchData))
    (last : gmap string string) (cards : list Airport) (key : string) :
  ~ In key (map cache_key (result_codes results)) ->
  fst (display_each results last cards) !! key = last !! key.
Proof.
  revert last cards.
  induction results as [|[a d] rest IH]; intros last cards Hkey;
    [reflexivity|].
  cbn in Hkey. cbn [display_each].
  destruct (success d); [|apply IH; tauto].
  rewrite IH by tauto.
  destruct (metar d) as [m|]; [|reflexivity].
  destruct (truthy (Some m)); [|reflexivity].
  apply lookup_insert_ne. intros Heq. apply Hkey. left. exact Heq.
Qed.

Lemma display_each_recorded (results : list (Airport * FetchData))
    (last : gmap string string) (cards : list Airport)
    (a : Airport) (d : FetchData) :
  List.NoDup (result_codes results) -> In (a, d) results ->
  success d = true -> truthy (metar d) = true ->
  fst (display_each results last cards) !! cache_key (icao a) = metar d.
Proof.
  revert last cards.
  induction results as [|[a' d'] rest IH]; intros last cards Hnd Hin Hs Ht;
    [destruct Hin|].
  cbn in Hnd. apply List.NoDup_cons_iff in Hnd as [Hnew Hnd].
  destruct Hin as [[= -> ->] | Hin].
  - cbn [display_each]. rewrite Hs.
    rewrite display_each_other.
    + destruct (metar d) as [m|]; [|discriminate].
      rewrite Ht. apply lookup_insert_eq.
    + rewrite in_map_iff. intros (c & Hc & Hin). apply cache_key_inj in Hc.
      subst c. exact (Hnew Hin).
  - cbn [display_each]. destruct (success d'); apply IH; assumption.
Qed.

Lemma detect_changes_flag (results : list (Airport * FetchData))
    (last : option (gmap string string)) (h : bool) :
  snd (detect_changes results last h)
    = h || existsb (differs (default ∅ last)) results.
Proof.
  revert last h.
  induction results as [|[a d] rest IH]; intros last h.
  - cbn. rewrite orb_false_r. reflexivity.
  - cbn [detect_changes existsb]. unfold differs at 1. cbn [fst snd].
    destruct (metar d) as [m|] eqn:Hm.
    + destruct (success d); cbn [andb].
      * destruct (truthy (Some m)); cbn [andb]; [|apply IH].
        destruct (bool_decide (default ∅ last !! cache_key (icao a) = Some m)).
        -- rewrite IH. reflexivity.
        -- rewrite IH. cbn. rewrite orb_true_r. reflexivity.
      * apply IH.
    + cbn [truthy]. rewrite andb_false_r. apply IH.
Qed.

Lemma detect_changes_unchanged (results : list (Airport * FetchData))
    (last : option (gmap string string)) (h : bool) :
  existsb (differs (default ∅ last)) results = false ->
  fst (detect_changes results last h) = last.
Proof.
  revert last h.
  induction results as [|[a d] rest IH]; intros last h Hno; [reflexivity|].
  cbn [existsb] in Hno. apply orb_false_elim in Hno as [Hd Hno].
  unfold differs in Hd. cbn [fst snd] in Hd. cbn [detect_changes].
  destruct (metar d) as [m|] eqn:Hm; [|apply IH, Hno].
  destruct (success d && truthy (Some m)); [|apply IH, Hno].
  cbn in Hd. apply negb_false_iff, bool_decide_eq_true in Hd.
  rewrite bool_decide_eq_true_2 by exact Hd.
  destruct last as [t|]; [apply IH, Hno|].
  cbn in Hd. rewrite lookup_empty in Hd. discriminate.
Qed.

Lemma detect_changes_other (results : list (Airport * FetchData))
    (last : option (gmap string string)) (h : bool) (key : string) :
  ~ In key (map cache_key (result_codes results)) ->
  default ∅ (fst (detect_changes results last h)) !! key
    = default ∅ last !! key.
Proof.
  revert last h.
  induction results as [|[a d] rest IH]; intros last h Hkey; [reflexivity|].
  cbn in Hkey. cbn [detect_changes].
  destruct (metar d) as [m|]; [|apply IH; tauto].
  destruct (success d && truthy (Some m)); [|apply IH; tauto].
  destruct (bool_decide _); rewrite IH by tauto; cbn; [reflexivity|].
  apply lookup_insert_ne. intros Heq. apply Hkey. left. exact Heq.
Qed.

Lemma detect_changes_recorded (results : list (Airport * FetchData))
    (last : option (gmap string string)) (h : bool)
    (a : Airport) (d : FetchData) :
  List.NoDup (result_codes results) -> In (a, d) results ->
  success d = true -> truthy (metar d) = true ->
  default ∅ (fst (detect_changes results last h)) !! cache_key (icao a)
    = metar d.
Proof.
  revert last h.
  induction results as [|[a' d'] rest IH]; intros last h Hnd Hin Hs Ht;
    [destruct Hin|].
  cbn in Hnd. apply List.NoDup_cons_iff in Hnd as [Hnew Hnd].
  assert (Hfresh : ~ In (cache_key (icao a')) (map cache_key (result_codes rest))).
  { rewrite in_map_iff. intros (c & Hc & Hin'). apply cache_key_inj in Hc.
    subst c. exact (Hnew Hin'). }
  destruct Hin as [[= -> ->] | Hin].
  - cbn [detect_changes].
    destruct (metar d) as [m|]; [|discriminate].
    rewrite Hs, Ht. cbn [andb].
    destruct (bool_decide _) eqn:Hsame;
      rewrite detect_changes_other by exact Hfresh; cbn.
    + apply bool_decide_eq_true in Hsame. exact Hsame.
    + apply lookup_insert_eq.
  - cbn [detect_changes].
    destruct (metar d') as [m|]; [|apply IH; assumption].
    destruct (success d' && truthy (Some m)); [|apply IH; assumption].
    destruct (bool_decide _); apply IH; assumption.
Qed.

(** Once every tracked METAR of the results is in the table, none of them
    differs from it. *)
Lemma recorded_is_same (results : list (Airport * FetchData))
    (table : gmap string string) :
  (forall a d, In (a, d) results -> success d = true ->
               truthy (metar d) = true ->
               table !! cache_key (icao a) = metar d) ->
  existsb (differs table) results = false.
Proof.
  intros Hrec. apply not_true_is_false. intros Hex.
  apply existsb_exists in Hex as ([a d] & Hin & Hd).
  unfold differs in Hd. cbn [fst snd] in Hd.
  apply andb_prop in Hd as [Hd Hne]. apply andb_prop in Hd as [Hs Ht].
  apply negb_true_iff, bool_decide_eq_false in Hne.
  apply Hne, Hrec; assumption.
Qed.

Lemma succeeded_length (results : list (Airport * FetchData)) :
  (length (succeeded results) <= length results)%nat.
Proof.
  unfold succeeded. rewrite length_map. apply List.filter_length_le.
Qed.

Lemma display_fields (results : list (Airport * FetchData)) (st : State) :
  results <> [] ->
  let st' := displayMultipleAirportsResults results st in
  resultSection st' = true /\
  resultSection_header st' = Some (length results) /\
  resultSection_cards st' = succeeded results /\
  lastMetarRaw st'
    = Some (fst (display_each results (default ∅ (lastMetarRaw st)) [])) /\
  errorMessage st' = errorMessage st /\
  errorMessage_text st' = errorMessage_text st.
Proof.
  intros Hne. cbv zeta. unfold displayMultipleAirportsResults.
  destruct results as [|r rest]; [contradiction|].
  cbn [lastMetarRaw with_results].
  pose proof (display_each_cards (r :: rest)
                (default ∅ (lastMetarRaw st)) []) as Hcards.
  destruct (display_each (r :: rest) (default ∅ (lastMetarRaw st)) [])
    as [last cards].
  cbn in Hcards. subst cards. repeat split.
Qed.

(** What [displayMultipleAirportsResults] leaves on the page.  With no
    results it clears the section and shows the no-data message.  Otherwise
    the section is shown, its header counts every result while only the
    results that succeeded get a card, in order, so the header can announce
    more airports than there are cards; an error shown before stays.  The
    record of last METARs keeps the entries of other airports and, when no
    airport occurs twice, holds the METAR of every result that succeeded
    with one. *)
Theorem displayed_results (results : list (Airport * FetchData))
    (st : State) :
  let st' := displayMultipleAirportsResults results st in
  (results = [] ->
   errorMessage st' = true /\ errorMessage_text st' = Some NoData /\
   resultSection_header st' = None /\ resultSection_cards st' = [] /\
   resultSection st' = resultSection st /\
   lastMetarRaw st' = lastMetarRaw st) /\
  (results <> [] ->
   resultSection st' = true /\
   resultSection_header st' = Some (length results) /\
   resultSection_cards st' = succeeded results /\
   (length (resultSection_cards st') <= length results)%nat /\
   errorMessage st' = errorMessage st /\
   exists table,
     lastMetarRaw st' = Some table /\
     (forall key,
         ~ In key (map cache_key (result_codes results)) ->
         table !! key = default ∅ (lastMetarRaw st) !! key) /\
     (List.NoDup (result_codes results) ->
      forall a d, In (a, d) results -> success d = true ->
                  truthy (metar d) = true ->
                  table !! cache_key (icao a) = metar d)).
Proof.
  cbv zeta. split.
  - intros ->. repeat split.
  - intros Hne.
    destruct (display_fields results st Hne)
      as (Hsec & Hhead & Hcards & Hlast & Herr & _).
    split; [exact Hsec|]. split; [exact Hhead|]. split; [exact Hcards|].
    split; [rewrite Hcards; apply succeeded_length|].
    split; [exact Herr|].
    eexists. split; [exact Hlast|]. split.
    + intros key Hkey. apply display_each_other, Hkey.
    + intros Hnd a d Hin Hs Ht. apply display_each_recorded; assumption.
Qed.

Lemma refresh_done_changed (results : list (Airport * FetchData))
    (st : State) :
  existsb (differs (default ∅ (lastMetarRaw st))) results = true ->
  let st' := refresh_done results st in
  notification st' = Some NewMetar /\
  resultSection st' = true /\
  resultSection_header st' = Some (length results) /\
  resultSection_cards st' = succeeded results /\
  lastMetarRaw st'
    = Some (fst (display_each results
                   (default ∅ (fst (detect_changes results
                                      (lastMetarRaw st) false))) [])).
Proof.
  intros Hex. cbv zeta.
  assert (Hne : results <> []) by (intros ->; discriminate).
  unfold refresh_done.
  pose proof (detect_changes_flag results (lastMetarRaw st) false) as Hflag.
  rewrite Hex in Hflag.
  destruct (detect_changes results (lastMetarRaw st) false) as [last ch].
  cbn in Hflag. subst ch.
  match goal with
  | |- context [displayMultipleAirportsResults results ?s] =>
      destruct (display_fields results s Hne)
        as (Hsec & Hhead & Hcards & Hlast & _);
      set (shown := displayMultipleAirportsResults results s) in *
  end.
  cbn [fst]. unfold reset_countdown.
  cbn [notification resultSection resultSection_header resultSection_cards
       lastMetarRaw with_refresh].
  repeat split; try assumption.
  unfold shown, displayMultipleAirportsResults.
  destruct results as [|r rest]; [contradiction|].
  destruct (display_each _ _ _). reflexivity.
Qed.

Lemma refresh_done_unchanged (results : list (Airport * FetchData))
    (st : State) :
  existsb (differs (default ∅ (lastMetarRaw st))) results = false ->
  let st' := refresh_done results st in
  notification st' = Some NoChange /\
  resultSection st' = resultSection st /\
  resultSection_header st' = resultSection_header st /\
  resultSection_cards st' = resultSection_cards st /\
  lastMetarRaw st' = lastMetarRaw st.
Proof.
  intros Hex. cbv zeta. unfold refresh_done.
  pose proof (detect_changes_flag results (lastMetarRaw st) false) as Hflag.
  pose proof (detect_changes_unchanged results (lastMetarRaw st) false Hex)
    as Hlast.
  rewrite Hex in Hflag.
  destruct (detect_changes results (lastMetarRaw st) false) as [last ch].
  cbn in Hflag, Hlast. subst ch last. repeat split.
Qed.

Lemma refresh_done_always (results : list (Airport * FetchData))
    (st : State) :
  refresh_indicator (refresh_done results st) = false /\
  remainingSeconds (refresh_done results st) = 600%Z.
Proof.
  unfold refresh_done.
  destruct (detect_changes results (lastMetarRaw st) false) as [last ch].
  split; [|reflexivity].
  destruct ch; [|reflexivity].
  unfold displayMultipleAirportsResults.
  destruct results; [reflexivity|].
  match goal with
  | |- context [display_each ?a ?b ?c] => destruct (display_each a b c)
  end.
  reflexivity.
Qed.

(** The answer of an automatic refresh.  The refresh indicator goes away
    and the countdown is set back to 600 seconds.  If some result succeeded
    with a METAR that is not the one recorded for its airport, the new-METAR
    notice is shown and the cards are rebuilt from the results; otherwise
    the no-change notice is shown and the section, its header, its cards and
    the record stay exactly as they were. *)
Theorem refresh_notice (results : list (Airport * FetchData)) (st : State) :
  let st' := refresh_done results st in
  let table := default ∅ (lastMetarRaw st) in
  refresh_indicator st' = false /\
  remainingSeconds st' = 600%Z /\
  (existsb (differs table) results = true ->
   notification st' = Some NewMetar /\
   resultSection st' = true /\
   resultSection_header st' = Some (length results) /\
   resultSection_cards st' = succeeded results) /\
  (existsb (differs table) results = false ->
   notification st' = Some NoChange /\
   resultSection st' = resultSection st /\
   resultSection_header st' = resultSection_header st /\
   resultSection_cards st' = resultSection_cards st /\
   lastMetarRaw st' = lastMetarRaw st).
Proof.
  cbv zeta.
  destruct (refresh_done_always results st) as [Hind Hrem].
  split; [exact Hind|]. split; [exact Hrem|]. split.
  - intros Hex.
    destruct (refresh_done_changed results st Hex) as (? & ? & ? & ? & _).
    tauto.
  - apply refresh_done_unchanged.
Qed.

(** After the results were shown or refreshed, the same results differ in
    nothing from the record. *)
Lemma settled_after_refresh (results : list (Airport * FetchData))
    (st : State) :
  List.NoDup (result_codes results) ->
  existsb (differs (default ∅ (lastMetarRaw (refresh_done results st))))
          results = false.
Proof.
  intros Hnd.
  destruct (existsb (differs (default ∅ (lastMetarRaw st))) results) eqn:Hex.
  - destruct (refresh_done_changed results st Hex) as (_ & _ & _ & _ & ->).
    apply recorded_is_same. intros a d Hin Hs Ht. cbn.
    apply display_each_recorded; assumption.
  - destruct (refresh_done_unchanged results st Hex) as (_ & _ & _ & _ & ->).
    exact Hex.
Qed.

Lemma settled_after_fetch (results : list (Airport * FetchData))
    (st : State) :
  List.NoDup (result_codes results) ->
  existsb (differs (default ∅ (lastMetarRaw (fetch_done results st))))
          results = false.
Proof.
  intros Hnd. destruct results as [|r rest]; [reflexivity|].
  assert (Hne : r :: rest <> []) by discriminate.
  unfold fetch_done, showAutoRefreshPanel. cbn [lastMetarRaw with_refresh].
  destruct (display_fields (r :: rest) (hideLoading st) Hne)
    as (_ & _ & _ & -> & _).
  apply recorded_is_same. intros a d Hin Hs Ht. cbn [default].
  apply display_each_recorded; assumption.
Qed.

(** The same data twice.  When no airport occurs twice in the results, a
    refresh that brings the results the page has just shown, after a manual
    fetch or after an earlier refresh, reports no change and leaves the
    cards, the header and the record as they are. *)
Theorem same_data_is_no_change (results : list (Airport * FetchData))
    (st : State) :
  List.NoDup (result_codes results) ->
  forall shown,
    shown = fetch_done results st \/ shown = refresh_done results st ->
    let st' := refresh_done results shown in
    notification st' = Some NoChange /\
    resultSection st' = resultSection shown /\
    resultSection_header st' = resultSection_header shown /\
    resultSection_cards st' = resultSection_cards shown /\
    lastMetarRaw st' = lastMetarRaw shown.
Proof.
  intros Hnd shown Hshown. cbv zeta.
  apply refresh_done_unchanged.
  destruct Hshown as [-> | ->].
  - apply settled_after_fetch, Hnd.
  - apply settled_after_refresh, Hnd.
Qed.

Lemma same_data_is_no_change_witness :
  List.NoDup (result_codes sample_results) /\
  notification (refresh_done sample_results
                  (fetch_done sample_results initial)) = Some NoChange.
Proof.
  assert (Hnd : List.NoDup (result_codes sample_results)).
  { apply NoDup_ListNoDup, (bool_decide_unpack _). vm_compute. exact I. }
  split; [exact Hnd|].
  apply (same_data_is_no_change sample_results initial Hnd
           (fetch_done sample_results initial)).
  left. reflexivity.
Defined.

(** ** The countdown *)





(** ** What ends auto-refresh *)

(** Clearing, a manual fetch, and a refresh that finds nothing selected
    switch auto-refresh off.  From any state the page can reach, each of
    them leaves the box unchecked, both interval handles empty and no timer
    alive; if the box was checked, the timer text says stopped. *)
Theorem auto_refresh_switched_off (st : State) (e : Event) :
  reachable st ->
  e = ClickClear \/ e = ClickFetch \/
  (e = RefreshFire /\ selectedAirports st = []) ->
  let st' := handle e st in
  autoRefreshToggle st' = false /\
  autoRefreshInterval st' = false /\ countdownInterval st' = false /\
  refresh_timers st' = 0%nat /\ countdown_timers st' = 0%nat /\
  (autoRefreshToggle st = true -> refreshTimer st' = Some Stopped).
Proof.
  intros Hreach He. cbv zeta.
  apply invariants_hold in Hreach as (_ & Hok & _).
  pose proof (timers_step e st Hok) as (Hr & Hc & Hnr & Hnc).
  assert (Hoff : autoRefreshToggle (handle e st) = false
                 /\ (autoRefreshToggle st = true ->
                     refreshTimer (handle e st) = Some Stopped)).
  { destruct He as [-> | [-> | [-> Hsel]]]; cbn [handle].
    - unfold clearAll, uncheck_and_stop.
      destruct (autoRefreshToggle st) eqn:Htog; split;
        try reflexivity; try discriminate; exact Htog.
    - unfold fetchMetarTaf, uncheck_and_stop.
      destruct (autoRefreshToggle st) eqn:Htog; cbn.
      + destruct (selectedAirports st); split; reflexivity.
      + destruct (selectedAirports st); split;
          try discriminate; exact Htog.
    - unfold performAutoRefresh. rewrite Hsel. split; reflexivity. }
  destruct Hoff as [Hoff Htext].
  rewrite Hoff in Hr, Hc, Hnr, Hnc. tauto.
Qed.

Lemma auto_refresh_switched_off_witness :
  reachable (run sample_session initial) /\
  autoRefreshToggle (run sample_session initial) = true /\
  refresh_timers (handle ClickFetch (run sample_session initial)) = 0%nat /\
  refreshTimer (handle ClickFetch (run sample_session initial))
    = Some Stopped.
Proof.
  assert (Hon : autoRefreshToggle (run sample_session initial) = true)
    by (vm_compute; reflexivity).
  split; [exact sample_session_reachable|]. split; [exact Hon|].
  destruct (auto_refresh_switched_off (run sample_session initial) ClickFetch
              sample_session_reachable (or_intror (or_introl eq_refl)))
    as (_ & _ & _ & Hnr & _ & Htext).
  split; [exact Hnr | exact (Htext Hon)].
Defined.

(** ** The cache of answers *)

Lemma cleanup_lookup (now : Z) (dataCache : gmap string Cached)
    (key : string) :
  cleanup now dataCache !! key
    = match dataCache !! key with
      | Some cached =>
          if (now - timestamp cached >? CACHE_DURATION)%Z then None
          else Some cached
      | None => None
      end.
Proof.
  unfold cleanup.
  set (f := fun (key : string) (value : Cached) (cache : gmap string Cached) =>
              if (now - timestamp value >? CACHE_DURATION)%Z
              then delete key cache else cache).
  assert (Hgen : forall visited : gmap string Cached,
             visited ⊆ dataCache ->
             forall k, map_fold f dataCache visited !! k
                       = match visited !! k with
                         | Some cached =>
                             if (now - timestamp cached >? CACHE_DURATION)%Z
                             then None else dataCache !! k
                         | None => dataCache !! k
                         end).
  { intros visited.
    apply (map_fold_weak_ind
             (fun r m => m ⊆ dataCache ->
                forall k, r !! k
                          = match m !! k with
                            | Some cached =>
                                if (now - timestamp cached >? CACHE_DURATION)%Z
                                then None else dataCache !! k
                            | None => dataCache !! k
                            end)).
    - intros _ k. rewrite lookup_empty. reflexivity.
    - intros i x m r Hi IH Hsub k.
      assert (Hm : m ⊆ dataCache).
      { etransitivity; [|exact Hsub]. apply insert_subseteq, Hi. }
      specialize (IH Hm). unfold f.
      destruct (decide (k = i)) as [-> | Hne].
      + rewrite lookup_insert_eq.
        destruct (now - timestamp x >? CACHE_DURATION)%Z.
        * apply lookup_delete_eq.
        * rewrite IH, Hi. reflexivity.
      + rewrite lookup_insert_ne by congruence.
        destruct (now - timestamp x >? CACHE_DURATION)%Z.
        * rewrite lookup_delete_ne by congruence. apply IH.
        * apply IH. }
  rewrite (Hgen dataCache) by reflexivity.
  destruct (dataCache !! key) as [cached|] eqn:Hk; [|reflexivity].
  destruct (now - timestamp cached >? CACHE_DURATION)%Z; reflexivity.
Qed.

(** What the cleanup keeps.  After the cleanup at time [now] the cache
    holds exactly the entries it held before whose age is at most five
    minutes (300000 ms); an entry of exactly that age is kept although
    [fetchMetarTaf] no longer uses it. *)
Theorem cleanup_keeps_recent (now : Z) (dataCache : gmap string Cached)
    (key : string) (cached : Cached) :
  (cleanup now dataCache !! key = Some cached
   <-> dataCache !! key = Some cached
       /\ (now - timestamp cached <= 300000)%Z) /\
  ((now - timestamp cached = 300000)%Z ->
   forall code,
     cached_answer now code (<[cache_key code := cached]> dataCache) = None).
Proof.
  split.
  - rewrite cleanup_lookup. unfold CACHE_DURATION.
    destruct (dataCache !! key) as [c|] eqn:Hk.
    + destruct (Z.gtb_spec (now - timestamp c) (5 * 60 * 1000)) as [Hold | Hnew].
      * split; [discriminate|]. intros [[= ->] Hage]. lia.
      * split; [intros [= ->]; split; [reflexivity | lia] | tauto].
    + split; [discriminate | intros [H _]; discriminate].
  - intros Hage code. unfold cached_answer, CACHE_DURATION.
    rewrite lookup_insert_eq, Hage. reflexivity.
Qed.

(** The cleanup never changes what a fetch gets.  If the clock does not run
    backwards, the answer [fetchMetarTaf] takes from the cache for an
    airport is the same whether or not the cleanup has run before; a stored
    answer is served for the next five minutes, exclusive, and storing for
    one airport does not touch the others. *)
Theorem cleanup_invisible (now later : Z) (code : string)
    (dataCache : gmap string Cached) :
  (now <= later)%Z ->
  cached_answer later code (cleanup now dataCache)
    = cached_answer later code dataCache /\
  (forall answer,
      cached_answer later code (store_answer now code answer dataCache)
        = if (later - now <? 300000)%Z then Some answer else None) /\
  (forall other answer,
      other <> code ->
      cached_answer later code (store_answer now other answer dataCache)
        = cached_answer later code dataCache).
Proof.
  intros Hclock. split; [|split].
  - unfold cached_answer. rewrite cleanup_lookup.
    destruct (dataCache !! cache_key code) as [c|]; [|reflexivity].
    unfold CACHE_DURATION.
    destruct (Z.gtb_spec (now - timestamp c) (5 * 60 * 1000)) as [Hold | Hnew];
      [|reflexivity].
    destruct (Z.ltb_spec (later - timestamp c) (5 * 60 * 1000)); [lia|].
    reflexivity.
  - intros answer. unfold cached_answer, store_answer.
    rewrite lookup_insert_eq. reflexivity.
  - intros other answer Hne. unfold cached_answer, store_answer.
    rewrite lookup_insert_ne; [reflexivity|].
    intros Heq. apply cache_key_inj in Heq. congruence.
Qed.

Lemma cleanup_invisible_witness :
  (400000 <= 400500)%Z /\
  cached_answer 400500 "ULLI" (cleanup 400000 sample_cache)
    = cached_answer 400500 "ULLI" sample_cache /\
  cached_answer 400500 "UUEE" (cleanup 400000 sample_cache)
    = cached_answer 400500 "UUEE" sample_cache.
Proof.
  assert (Hclock : (400000 <= 400500)%Z) by lia.
  split; [exact Hclock|].
  destruct (cleanup_invisible 400000 400500 "ULLI" sample_cache Hclock)
    as [Hulli _].
  destruct (cleanup_invisible 400000 400500 "UUEE" sample_cache Hclock)
    as [Huuee _].
  split; [exact Hulli | exact Huuee].
Defined.

(** ** Runway headings *)

Lemma free_of_cons (sep c : ascii) (s : string) :
  free_of sep (String c s) <-> c <> sep /\ free_of sep s.
Proof. unfold free_of. cbn. intuition congruence. Qed.

Lemma free_of_app (sep : ascii) (a b : string) :
  free_of sep (a +:+ b) <-> free_of sep a /\ free_of sep b.
Proof.
  induction a as [|c a IH].
  - unfold free_of at 2. cbn. tauto.
  - change (String c a +:+ b) with (String c (a +:+ b)).
    rewrite !free_of_cons, IH. tauto.
Qed.

Lemma split_at_free (sep : ascii) (s : string) :
  free_of sep s -> split_at sep s = (s, []).
Proof.
  induction s as [|c s IH]; [reflexivity|].
  rewrite free_of_cons. intros [Hc Hs]. cbn [split_at]. rewrite (IH Hs).
  destruct (Ascii.eqb_spec c sep); [contradiction | reflexivity].
Qed.

Lemma split_at_sep (sep : ascii) (s rest : string) :
  free_of sep s ->
  split_at sep (s +:+ String sep rest) = (s, split sep rest).
Proof.
  induction s as [|c s IH].
  - intros _. change ("" +:+ String sep rest) with (String sep rest).
    cbn [split_at]. unfold split.
    destruct (split_at sep rest). rewrite Ascii.eqb_refl. reflexivity.
  - rewrite free_of_cons. intros [Hc Hs].
    change (String c s +:+ String sep rest)
      with (String c (s +:+ String sep rest)).
    cbn [split_at]. rewrite (IH Hs).
    destruct (Ascii.eqb_spec c sep); [contradiction | reflexivity].
Qed.

Lemma split_join (sep : ascii) (pieces : list string) :
  pieces <> [] -> List.Forall (free_of sep) pieces ->
  split sep (join (String sep EmptyString) pieces) = pieces.
Proof.
  induction pieces as [|p rest IH]; [contradiction|].
  intros _ Hfree. apply List.Forall_cons_iff in Hfree as [Hp Hrest].
  destruct rest as [|q rest].
  - cbn [join]. unfold split. rewrite (split_at_free _ _ Hp). reflexivity.
  - change (join (String sep EmptyString) (p :: q :: rest))
      with (p +:+ String sep (join (String sep EmptyString) (q :: rest))).
    unfold split at 1. rewrite (split_at_sep _ _ _ Hp).
    rewrite IH; [reflexivity | discriminate | exact Hrest].
Qed.

Lemma formatRunway_pair (num heading : string) :
  free_of ":" num -> free_of ":" heading ->
  formatRunway (num +:+ ":" +:+ heading)
    = "ВПП " +:+ num +:+ ": " +:+ heading.
Proof.
  intros Hn Hh. unfold formatRunway, split.
  change (":" +:+ heading) with (String ":" heading).
  rewrite (split_at_sep _ _ _ Hn). unfold split.
  rewrite (split_at_free _ _ Hh). reflexivity.
Qed.

Lemma append_empty (a b : string) : a +:+ b = "" -> a = "".
Proof. destruct a; [reflexivity | discriminate]. Qed.

Lemma runway_string_not_empty (runways : list (string * string)) :
  runways <> [] -> runway_string runways <> "".
Proof.
  destruct runways as [|[n h] rest]; [contradiction|].
  intros _ Hempty. unfold runway_string in Hempty. cbn [map fst snd] in Hempty.
  assert (Hpiece : n +:+ ":" +:+ h = "").
  { destruct rest; [exact Hempty|]. cbn [map join] in Hempty.
    apply append_empty in Hempty. exact Hempty. }
  destruct n; discriminate.
Qed.

(** Runway headings on a card.  For the string the server sends, runways
    as number:heading joined by commas, where no number and no heading
    contains a comma or a colon, the card lists every runway as
    ВПП number: heading, in order, separated by bars.  A string that has
    neither comma nor colon is taken as one runway and shown with the
    heading undefined; the empty string gives the no-data text. *)
Theorem runway_headings_shown (runways : list (string * string)) :
  runways <> [] ->
  (forall rw, In rw runways ->
     free_of "," (fst rw) /\ free_of ":" (fst rw) /\
     free_of "," (snd rw) /\ free_of ":" (snd rw)) ->
  formatRunwayHeadings (runway_string runways)
    = join " | " (map (fun rw => "ВПП " +:+ fst rw +:+ ": " +:+ snd rw)
                      runways) /\
  (forall s, free_of "," s -> free_of ":" s ->
     formatRunwayHeadings s =
       match s with
       | EmptyString => "Нет данных"
       | _ => "ВПП " +:+ s +:+ ": undefined"
       end).
Proof.
  intros Hne Hfree. split.
  - pose proof (runway_string_not_empty runways Hne) as Hstr.
    unfold formatRunwayHeadings.
    destruct (runway_string runways) as [|c s] eqn:Hrs; [contradiction|].
    rewrite <- Hrs. unfold runway_string.
    change "," with (String "," EmptyString).
    rewrite split_join.
    + rewrite map_map. f_equal. apply map_ext_in. intros rw Hin.
      destruct (Hfree rw Hin) as (_ & Hn & _ & Hh).
      apply formatRunway_pair; assumption.
    + destruct runways; [contradiction | discriminate].
    + apply List.Forall_forall. intros piece Hin.
      apply in_map_iff in Hin as (rw & <- & Hin).
      destruct (Hfree rw Hin) as (Hn & _ & Hh & _).
      apply free_of_app. split; [exact Hn|].
      change (":" +:+ snd rw) with (String ":" (snd rw)).
      apply free_of_cons. split; [discriminate | exact Hh].
  - intros s Hc Hn. unfold formatRunwayHeadings.
    destruct s as [|c s]; [reflexivity|].
    unfold split. rewrite (split_at_free _ _ Hc). cbn [map join].
    unfold formatRunway, split. rewrite (split_at_free _ _ Hn). reflexivity.
Qed.

Lemma runway_headings_shown_witness :
  formatRunwayHeadings "06L:063°,24R:243°" = "ВПП 06L: 063° | ВПП 24R: 243°".
Proof.
  apply (runway_headings_shown sample_runways); [discriminate|].
  intros rw [<- | [<- | []]]; repeat split;
    unfold free_of; cbn; intuition discriminate.
Defined.
